(** * Cache dump manager (core/src/cache/dumper.cpp)

    A shallow embedding of [cache::Dumper]: dump file naming and parsing,
    [WriteNewDump], [ReadLatestDump], [BumpDumpTime] and [Cleanup], over an
    explicit model of the dump directory, with exceptions as an error
    monad and filesystem failures injected by an oracle.  Log lines are
    kept with their level and an abbreviated text. *)

From Stdlib Require Import ZArith List String Ascii Bool Lia Permutation Sorted.
Import ListNotations.

Local Open Scope string_scope.
Local Open Scope list_scope.
Local Open Scope Z_scope.

(* ================================================================= *)
(** * Instants *)

Module Chrono.

(** Tick counts are signed 64-bit integers.  They are kept as [Z], and
    every operation whose result may leave the 64 bits reduces it modulo
    [2^64] into [-2^63 .. 2^63 - 1], as the two's complement arithmetic of
    the compiled code does. *)
Definition wrap64 (z : Z) : Z := (z + 2 ^ 63) mod 2 ^ 64 - 2 ^ 63.

(** Modelled from the spec: the declaration of [TimePoint] is in a header
    that is not among the files covered here; update times are instants in
    microseconds, so a [TimePoint] is a [system_clock] time point counted
    in microseconds, a signed 64-bit tick count. *)
Definition TimePoint := Z.

(** [TimePoint::min()]. *)
Definition TimePoint_min : TimePoint := - 2 ^ 63.

(** A [std::chrono::system_clock::time_point]: a signed 64-bit count of
    nanoseconds, which reaches from 1677-09-21T00:12:43.145224192 to
    2262-04-11T23:47:16.854775807 UTC. *)
Definition system_time := Z.

(** Implicit conversion from [TimePoint] to the system clock's resolution:
    the tick count times 1000, in 64 bits. *)
Definition to_system_time (t : TimePoint) : system_time := wrap64 (t * 1000).

(** [std::chrono::round<TimePoint::duration>]: nearest microsecond, ties
    to the even tick. *)
Definition Round (time : system_time) : TimePoint :=
  let lo := time / 1000 in
  let r := time mod 1000 in
  if r <? 500 then lo
  else if 500 <? r then lo + 1
  else if Z.even lo then lo else lo + 1.

(** The length in microseconds of a duration of [ms] milliseconds. *)
Definition ms_to_us (ms : Z) : Z := ms * 1000.

(** [time - age] for a [TimePoint] and a [std::chrono::milliseconds]: the
    age is converted to microsecond ticks and subtracted, both in 64
    bits. *)
Definition minus_ms (time : TimePoint) (age_ms : Z) : TimePoint :=
  wrap64 (time - wrap64 (age_ms * 1000)).

End Chrono.
Export Chrono.

(* ================================================================= *)
(** * Civil calendar (UTC) *)

Module Civil.

(** Modelled from the spec: the calendar arithmetic behind
    [utils::datetime::Timestring] and [utils::datetime::Stringtime], which
    are not among the files covered here; the spec fixes the textual form
    [YYYY-MM-DDTHH:MM:SS.uuuuuu] in UTC.  Days since 1970-01-01 are
    computed from a proleptic Gregorian date with the usual era-based
    arithmetic (an era is 400 years, 146097 days, and starts on 1 March). *)
Definition days_from_civil (y m d : Z) : Z :=
  let y' := if m <=? 2 then y - 1 else y in
  let era := y' / 400 in
  let yoe := y' - era * 400 in
  let mp := if 2 <? m then m - 3 else m + 9 in
  let doy := (153 * mp + 2) / 5 + d - 1 in
  let doe := yoe * 365 + yoe / 4 - yoe / 100 + doy in
  era * 146097 + doe - 719468.

(** Modelled from the spec: the inverse conversion, from days since
    1970-01-01 to year, month and day (helper of the absent
    [utils::datetime::Timestring]). *)
Definition civil_from_days (z : Z) : Z * Z * Z :=
  let z' := z + 719468 in
  let era := z' / 146097 in
  let doe := z' - era * 146097 in
  let yoe := (doe - doe / 1460 + doe / 36524 - doe / 146096) / 365 in
  let doy := doe - (365 * yoe + yoe / 4 - yoe / 100) in
  let mp := (5 * doy + 2) / 153 in
  let d := doy - (153 * mp + 2) / 5 + 1 in
  let m := if mp <? 10 then mp + 3 else mp - 9 in
  let y := yoe + era * 400 in
  (if m <=? 2 then y + 1 else y, m, d).

Definition us_per_second : Z := 1000000.
Definition us_per_day : Z := 86400 * us_per_second.

(** Broken-down UTC time with microseconds. *)
Record civil_time := {
  year : Z; month : Z; day : Z;
  hour : Z; minute : Z; second : Z; micros : Z
}.

Definition civil_of_time (t : TimePoint) : civil_time :=
  let days := t / us_per_day in
  let rem := t mod us_per_day in
  let '(y, m, d) := civil_from_days days in
  let secs := rem / us_per_second in
  {| year := y; month := m; day := d;
     hour := secs / 3600; minute := (secs / 60) mod 60; second := secs mod 60;
     micros := rem mod us_per_second |}.

Definition time_of_civil (c : civil_time) : TimePoint :=
  days_from_civil (year c) (month c) (day c) * us_per_day
  + (hour c * 3600 + minute c * 60 + second c) * us_per_second
  + micros c.

End Civil.
Export Civil.

(* ================================================================= *)
(** * Text of dump names *)

Module Text.

Definition is_digit (c : ascii) : bool :=
  let n := Z.of_nat (nat_of_ascii c) in (48 <=? n) && (n <=? 57).

Definition digit_char (n : Z) : ascii := ascii_of_nat (Z.to_nat (48 + n)).

Definition digit_val (c : ascii) : Z := Z.of_nat (nat_of_ascii c) - 48.

(** [digits w n rest]: the [w] low decimal digits of [n], most significant
    first, zero padded, followed by [rest]. *)
Fixpoint digits (w : nat) (n : Z) (rest : string) : string :=
  match w with
  | O => rest
  | S w' => digits w' (n / 10) (String (digit_char (n mod 10)) rest)
  end.

(** Number of decimal digits of a non-negative [n] (at least one). *)
Definition nb_digits (n : Z) : nat := S (Z.to_nat (Z.log2 n)).

(** [decimal n rest]: [n >= 0] in decimal without padding, as
    [fmt::format("{}", n)] prints an unsigned integer, followed by [rest]. *)
Fixpoint decimal_fuel (fuel : nat) (n : Z) (rest : string) : string :=
  match fuel with
  | O => rest
  | S fuel' =>
      let rest' := String (digit_char (n mod 10)) rest in
      if n / 10 =? 0 then rest' else decimal_fuel fuel' (n / 10) rest'
  end.

Definition decimal (n : Z) (rest : string) : string :=
  decimal_fuel (nb_digits n) n rest.

(** Value of a run of decimal digits, read left to right. *)
Fixpoint digits_value (s : string) (acc : Z) : Z :=
  match s with
  | EmptyString => acc
  | String c s' => digits_value s' (acc * 10 + digit_val c)
  end.

Fixpoint all_digits (s : string) : bool :=
  match s with
  | EmptyString => true
  | String c s' => is_digit c && all_digits s'
  end.

(** Reads exactly [w] digits. *)
Fixpoint scan_digits (w : nat) (s : string) (acc : Z) : option (Z * string) :=
  match w with
  | O => Some (acc, s)
  | S w' =>
      match s with
      | String c s' =>
          if is_digit c then scan_digits w' s' (acc * 10 + digit_val c)
          else None
      | EmptyString => None
      end
  end.

Definition scan_lit (l : ascii) (s : string) : option string :=
  match s with
  | String c s' => if Ascii.eqb l c then Some s' else None
  | EmptyString => None
  end.

(** [strip_prefix pre s = Some r] exactly when [s = pre ++ r]. *)
Fixpoint strip_prefix (pre s : string) : option string :=
  match pre with
  | EmptyString => Some s
  | String a pre' =>
      match s with
      | String c s' => if Ascii.eqb a c then strip_prefix pre' s' else None
      | EmptyString => None
      end
  end.

Fixpoint has_char (a : ascii) (s : string) : bool :=
  match s with
  | EmptyString => false
  | String c s' => Ascii.eqb a c || has_char a s'
  end.

End Text.
Export Text.

(* ================================================================= *)
(** * Exceptions *)

Module Exn.

(** The exception classes the dumper distinguishes.  A
    [boost::filesystem::filesystem_error] is a [std::exception]; so is
    every error of the date, number and file helpers.  Dereferencing an
    empty [std::optional] is not an exception at all: no handler stops it. *)
Inductive exception :=
| filesystem_error (what : string)
| std_exception (what : string)
| null_optional_access.

Definition is_std_exception (e : exception) : bool :=
  match e with
  | filesystem_error _ | std_exception _ => true
  | null_optional_access => false
  end.

Definition is_filesystem_error (e : exception) : bool :=
  match e with
  | filesystem_error _ => true
  | _ => false
  end.

Inductive result (A : Type) :=
| Ok (a : A)
| Throw (e : exception).
Arguments Ok {A} a.
Arguments Throw {A} e.

End Exn.
Export Exn.

(* ================================================================= *)
(** * Date and number helpers *)

Module Datetime.

(** Modelled from the spec: the year field of the absent
    [utils::datetime::Timestring]; four digits, zero padded, as in the
    spec's canonical form [YYYY-MM-DDTHH:MM:SS.uuuuuu].  A year outside
    0..9999 is written with as many digits as it needs. *)
Definition format_year (y : Z) (rest : string) : string :=
  if y <? 0 then String "-" (if - y <? 10000 then digits 4 (- y) rest
                            else decimal (- y) rest)
  else if y <? 10000 then digits 4 y rest
  else decimal y rest.

Definition format_civil (c : civil_time) (rest : string) : string :=
  format_year (year c)
    (String "-" (digits 2 (month c)
    (String "-" (digits 2 (day c)
    (String "T" (digits 2 (hour c)
    (String ":" (digits 2 (minute c)
    (String ":" (digits 2 (second c)
    (String "." (digits 6 (micros c) rest)))))))))))).

(** Modelled from the spec: [utils::datetime::Timestring] with zone
    [kTimeZone] (UTC) and [kDumpFilenameDateFormat], neither the function
    nor the format constant being among the files covered here.  The spec's
    canonical form is [YYYY-MM-DDTHH:MM:SS.uuuuuu]; what is below a
    microsecond is dropped. *)
Definition Timestring (tp : system_time) : string :=
  format_civil (civil_of_time (tp / 1000)) "".

(** Field ranges a parsed date must respect; a day that does not exist in
    its month (it would roll over into the next one) is refused. *)
Definition valid_civil (c : civil_time) : bool :=
  (1 <=? month c) && (month c <=? 12) && (1 <=? day c) && (day c <=? 31)
  && (hour c <=? 23) && (minute c <=? 59) && (second c <=? 59)
  && (let '(y, m, d) :=
        civil_from_days (days_from_civil (year c) (month c) (day c)) in
      (y =? year c) && (m =? month c) && (d =? day c)).

Definition scan_civil (s : string) : option civil_time :=
  match scan_digits 4 s 0 with Some (y, s) =>
  match scan_lit "-" s with Some s =>
  match scan_digits 2 s 0 with Some (mo, s) =>
  match scan_lit "-" s with Some s =>
  match scan_digits 2 s 0 with Some (d, s) =>
  match scan_lit "T" s with Some s =>
  match scan_digits 2 s 0 with Some (h, s) =>
  match scan_lit ":" s with Some s =>
  match scan_digits 2 s 0 with Some (mi, s) =>
  match scan_lit ":" s with Some s =>
  match scan_digits 2 s 0 with Some (se, s) =>
  match scan_lit "." s with Some s =>
  match scan_digits 6 s 0 with Some (us, EmptyString) =>
    Some {| year := y; month := mo; day := d;
            hour := h; minute := mi; second := se; micros := us |}
  | _ => None end | None => None end | None => None end | None => None end
  | None => None end | None => None end | None => None end | None => None end
  | None => None end | None => None end | None => None end | None => None end
  | None => None end.

(** Modelled from the spec: [utils::datetime::Stringtime] with zone
    [kTimeZone] (UTC) and [kDumpFilenameDateFormat], neither the function
    nor the format constant being among the files covered here: decodes
    [YYYY-MM-DDTHH:MM:SS.uuuuuu] as a UTC instant and raises on anything
    that does not decode cleanly.  The result is a
    [system_clock::time_point]; a date whose count of nanoseconds does not
    fit its 64 bits is not an instant the function can return and does not
    decode. *)
Definition Stringtime (timestring : string) : result system_time :=
  match scan_civil timestring with
  | Some c =>
      if valid_civil c then
        let ns := time_of_civil c * 1000 in
        if (- 2 ^ 63 <=? ns) && (ns <? 2 ^ 63) then Ok ns
        else Throw (std_exception "DateParseError")
      else Throw (std_exception "DateParseError")
  | None => Throw (std_exception "DateParseError")
  end.

(** Modelled from the spec: [utils::FromString<uint64_t>], which is not
    among the files covered here, decodes a run of decimal digits as an unsigned
    integer and raises when the text is not such a run or the value does
    not fit 64 bits. *)
Definition FromString_uint64 (str : string) : result Z :=
  match str with
  | EmptyString => Throw (std_exception "FromString: empty")
  | _ =>
      if all_digits str then
        let n := digits_value str 0 in
        if n <? 2 ^ 64 then Ok n
        else Throw (std_exception "FromString: overflow")
      else Throw (std_exception "FromString: extra junk")
  end.

End Datetime.
Export Datetime.

(* ================================================================= *)
(** * Dump naming *)

Module Naming.

(** The two filename patterns only use [\d] and literal characters. *)
Inductive atom :=
| Digit
| Lit (c : ascii).

Definition atom_matches (a : atom) (c : ascii) : bool :=
  match a with
  | Digit => is_digit c
  | Lit l => Ascii.eqb l c
  end.

(** Matches a sequence of atoms at the start of [s]; returns the matched
    text and what follows it. *)
Fixpoint match_atoms (p : list atom) (s : string) : option (string * string) :=
  match p with
  | [] => Some (EmptyString, s)
  | a :: p' =>
      match s with
      | String c s' =>
          if atom_matches a c then
            match match_atoms p' s' with
            | Some (m, r) => Some (String c m, r)
            | None => None
            end
          else None
      | EmptyString => None
      end
  end.

(** [\d+]: the longest run of digits.  In both patterns the run is
    followed by the end of the name or by a dot, so no shorter run can
    lead to a match. *)
Fixpoint span_digits (s : string) : string * string :=
  match s with
  | String c s' =>
      if is_digit c then
        let (m, r) := span_digits s' in (String c m, r)
      else (EmptyString, s)
  | EmptyString => (EmptyString, EmptyString)
  end.

Inductive FileFormatType := kNormal | kTmp.

(** A compiled filename pattern
    [^(<date>)<separator>(\d+)<suffix>$]. *)
Record filename_regex := {
  re_date : list atom;
  re_separator : list atom;
  re_suffix : string
}.

(** [\d{4}-\d{2}-\d{2}T\d{2}:\d{2}:\d{2}\.\d{6}] *)
Definition date_atoms : list atom :=
  [Digit; Digit; Digit; Digit; Lit "-"; Digit; Digit; Lit "-"; Digit; Digit;
   Lit "T"; Digit; Digit; Lit ":"; Digit; Digit; Lit ":"; Digit; Digit;
   Lit "."; Digit; Digit; Digit; Digit; Digit; Digit].

Definition GenerateFilenameRegex (type : FileFormatType) : filename_regex :=
  {| re_date := date_atoms;
     re_separator := [Lit "-"; Lit "v"];
     re_suffix := match type with kTmp => ".tmp" | kNormal => "" end |}.

(** [boost::regex_match]: the whole name must match; on success the two
    captures are returned. *)
Definition regex_match (s : string) (re : filename_regex)
  : option (string * string) :=
  match match_atoms (re_date re) s with
  | Some (date, r) =>
      match match_atoms (re_separator re) r with
      | Some (_, r') =>
          let (version, tail) := span_digits r' in
          match version with
          | EmptyString => None
          | _ => if String.eqb tail (re_suffix re)
                 then Some (date, version) else None
          end
      | None => None
      end
  | None => None
  end.

Definition filename_regex_ : filename_regex := GenerateFilenameRegex kNormal.
Definition tmp_filename_regex_ : filename_regex := GenerateFilenameRegex kTmp.

End Naming.
Export Naming.

(** Modelled from the spec: [Dumper::ParsedDumpName], declared in a header
    that is not among the files covered here; the fields are those
    [ParseDumpName] fills in. *)
Module ParsedDumpName.
Record t := mk {
  filename : string;
  update_time : TimePoint;
  format_version : Z
}.
End ParsedDumpName.

(** Modelled from the spec: [DumpContents], declared in a header that is
    not among the files covered here: the bytes of a dump and its update time. *)
Module DumpContents.
Record t := mk {
  contents : string;
  update_time : TimePoint
}.
End DumpContents.

(** Modelled from the spec: the declaration of [CacheConfigStatic] is not
    among the files covered here; these are the fields the dumper reads (the
    spec's DumpConfig).  [dump_format_version] is an unsigned 64-bit
    integer, [max_dump_age] an optional positive duration, counted in
    milliseconds, [max_dump_count] a [size_t]. *)
Record CacheConfigStatic := {
  dump_directory : string;
  dump_format_version : Z;
  max_dump_age : option positive;
  max_dump_count : nat
}.

(** The decoding step of [ParseDumpName], once the pattern has matched. *)
Definition decode_dump_name (filename cap1 cap2 : string)
  : result ParsedDumpName.t :=
  match Stringtime cap1 with
  | Ok date =>
      match FromString_uint64 cap2 with
      | Ok version => Ok (ParsedDumpName.mk filename (Round date) version)
      | Throw e => Throw e
      end
  | Throw e => Throw e
  end.

(** What [ParseDumpName] returns; its side effect (a warning in the log
    when the name matches but does not decode) is added below. *)
Definition parse_dump_name (filename : string) : option ParsedDumpName.t :=
  match regex_match filename filename_regex_ with
  | Some (cap1, cap2) =>
      match decode_dump_name filename cap1 cap2 with
      | Ok p => Some p
      | Throw _ => None
      end
  | None => None
  end.

(** The name part of [GenerateDumpPath]: ["{}-v{}"]. *)
Definition dump_filename (update_time : TimePoint) (version : Z) : string :=
  format_civil (civil_of_time (to_system_time update_time / 1000))
    (String "-" (String "v" (decimal version ""))).

Definition FilenameToPath (filename : string) (config : CacheConfigStatic)
  : string :=
  (dump_directory config ++ "/" ++ filename)%string.

Definition GenerateDumpPath (update_time : TimePoint)
  (config : CacheConfigStatic) : string :=
  (dump_directory config ++ "/"
   ++ Timestring (to_system_time update_time)
   ++ "-v" ++ decimal (dump_format_version config) "")%string.

(* ================================================================= *)
(** * The filesystem and the dumper's state *)

Module Fs.

Inductive file_type := regular_file | directory_file | other_file.

Record file := {
  status : file_type;
  data : string;
  perms : Z
}.

(** Paths with what they name, in the order a directory walk yields them. *)
Definition t := list (string * file).

Definition lookup (path : string) (fs : t) : option file :=
  match find (fun e => String.eqb (fst e) path) fs with
  | Some e => Some (snd e)
  | None => None
  end.

Definition erase (path : string) (fs : t) : t :=
  filter (fun e => negb (String.eqb (fst e) path)) fs.

Definition put (path : string) (f : file) (fs : t) : t :=
  erase path fs ++ [(path, f)].

Record directory_entry := {
  path : string;
  filename : string;
  entry_status : file_type
}.

(** The name of [path] inside [dir] when it lies directly in it. *)
Definition child_name (dir path : string) : option string :=
  match strip_prefix (dir ++ "/")%string path with
  | Some EmptyString => None
  | Some name => if has_char "/" name then None else Some name
  | None => None
  end.

Definition entry_of (dir : string) (e : string * file)
  : option directory_entry :=
  match child_name dir (fst e) with
  | Some name =>
      Some {| path := fst e; filename := name; entry_status := status (snd e) |}
  | None => None
  end.

Fixpoint entries (dir : string) (fs : t) : list directory_entry :=
  match fs with
  | [] => []
  | e :: fs' =>
      match entry_of dir e with
      | Some d => d :: entries dir fs'
      | None => entries dir fs'
      end
  end.

Definition is_regular_file (s : file_type) : bool :=
  match s with regular_file => true | _ => false end.

(** [boost::filesystem::perms]. *)
Definition owner_read : Z := 256.
Definition owner_write : Z := 128.

End Fs.

Inductive LogLevel := kDebug | kInfo | kWarning | kError.

Record World := {
  files : Fs.t;
  config_ : CacheConfigStatic;
  log : list (LogLevel * string)
}.

(** What the surroundings decide: the clock, and which filesystem calls
    fail (with the message of the error).  [iterate_fault dir = Some (n, _)]
    makes a walk of [dir] fail after it has yielded [n] entries. *)
Record Env := {
  clock : Z;
  exists_fault : string -> option string;
  write_fault : string -> option string;
  read_fault : string -> option string;
  rename_fault : string -> string -> option string;
  remove_fault : string -> option string;
  iterate_fault : string -> option (nat * string)
}.

(** [utils::datetime::Now()]: the clock read as a
    [system_clock::time_point], a signed 64-bit count of nanoseconds. *)
Definition Now (env : Env) : system_time := wrap64 (clock env).

(** Computations of the dumper: they may change the world and may end in
    an exception; the world reached is kept in both cases. *)
Definition M (A : Type) : Type := World -> result A * World.

Definition ret {A} (a : A) : M A := fun w => (Ok a, w).

Definition bind {A B} (m : M A) (k : A -> M B) : M B :=
  fun w =>
    match m w with
    | (Ok a, w') => k a w'
    | (Throw e, w') => (Throw e, w')
    end.

Definition throw {A} (e : exception) : M A := fun w => (Throw e, w).

(** [try { body } catch (const E& ex) { handler }], where [catches] tells
    the exceptions of class [E]. *)
Definition try_catch {A} (body : M A) (catches : exception -> bool)
  (handler : exception -> M A) : M A :=
  fun w =>
    match body w with
    | (Throw e, w') => if catches e then handler e w' else (Throw e, w')
    | r => r
    end.

Declare Scope dumper_scope.
Delimit Scope dumper_scope with dumper.
Notation "x <- m ;; k" := (bind m (fun x => k))
  (at level 61, m at next level, right associativity) : dumper_scope.
Notation "m ;;; k" := (bind m (fun _ => k))
  (at level 61, right associativity) : dumper_scope.
Local Open Scope dumper_scope.

Definition LOG (level : LogLevel) (text : string) : M unit :=
  fun w => (Ok tt, {| files := files w; config_ := config_ w;
                      log := log w ++ [(level, text)] |}).

Definition set_files (fs : Fs.t) : M unit :=
  fun w => (Ok tt, {| files := fs; config_ := config_ w; log := log w |}).

Definition get_files : M Fs.t := fun w => (Ok (files w), w).

(** [config_.Read()]. *)
Definition Read_config : M CacheConfigStatic := fun w => (Ok (config_ w), w).

(** [operator->] of a [std::optional]. *)
Definition deref {A} (o : option A) : M A :=
  match o with
  | Some a => ret a
  | None => throw null_optional_access
  end.

(** A loop over [l] whose body updates the local variables [s].  When the
    body throws, the loop is left with the locals as they were before the
    failing round (both loops of the dumper write their locals in the
    last statement of the body) together with the exception. *)
Fixpoint for_each {A S} (l : list A) (body : A -> S -> M S) (s : S)
  : World -> (S * option exception) * World :=
  match l with
  | [] => fun w => ((s, None), w)
  | a :: l' =>
      fun w =>
        match body a s w with
        | (Ok s', w') => for_each l' body s' w'
        | (Throw e, w') => ((s, Some e), w')
        end
  end.

(* ================================================================= *)
(** * The dumper *)

Section Dumper.

Variable env : Env.

(** ** Filesystem calls

    None of the blocking filesystem calls is among the files covered here.  By
    the spec each either returns a value or raises an error. *)

(** Modelled from the spec: [fs::FileExists], the spec's [exists(path)];
    raises a [filesystem_error] when the path cannot be examined. *)
Definition FileExists (path : string) : M bool :=
  match exists_fault env path with
  | Some what => throw (filesystem_error what)
  | None =>
      fs <- get_files ;;
      ret (match Fs.lookup path fs with Some _ => true | None => false end)
  end.

(** Modelled from the spec: [fs::RewriteFileContentsAtomically], the
    spec's [write_atomic(path, bytes, perms)]: it writes to [path.tmp],
    then renames that file onto [path]; for the caller it is all or
    nothing.  A success therefore leaves the new file at [path] and
    nothing at [path.tmp], whatever was there before; a failure leaves the
    files as they were. *)
Definition RewriteFileContentsAtomically (path contents : string) (perms : Z)
  : M unit :=
  match write_fault env path with
  | Some what => throw (std_exception what)
  | None =>
      let tmp_path := (path ++ ".tmp")%string in
      let written := {| Fs.status := Fs.regular_file;
                        Fs.data := contents;
                        Fs.perms := perms |} in
      fs <- get_files ;;
      set_files (Fs.put path written
                   (Fs.erase tmp_path (Fs.put tmp_path written fs)))
  end.

(** Modelled from the spec: [fs::ReadFileContents], the spec's
    [read_all(path)]; fails on a missing or unreadable file. *)
Definition ReadFileContents (path : string) : M string :=
  match read_fault env path with
  | Some what => throw (std_exception what)
  | None =>
      fs <- get_files ;;
      match Fs.lookup path fs with
      | Some f =>
          if Fs.is_regular_file (Fs.status f) then ret (Fs.data f)
          else throw (std_exception "read: not a regular file")
      | None => throw (std_exception "read: no such file")
      end
  end.

(** Modelled from the spec: [fs::Rename], the spec's [rename(old, new)];
    fails when [source] names nothing, replaces what [destination] named,
    and leaves the file at its path when both are the same. *)
Definition Rename (source destination : string) : M unit :=
  match rename_fault env source destination with
  | Some what => throw (filesystem_error what)
  | None =>
      fs <- get_files ;;
      match Fs.lookup source fs with
      | Some f => set_files (Fs.put destination f (Fs.erase source fs))
      | None => throw (filesystem_error "rename: no such file")
      end
  end.

(** Modelled from the spec: [boost::filesystem::remove], the spec's
    [remove(path)]; tells whether there was something to remove and
    raises a [filesystem_error] when the removal fails. *)
Definition remove (path : string) : M bool :=
  match remove_fault env path with
  | Some what => throw (filesystem_error what)
  | None =>
      fs <- get_files ;;
      set_files (Fs.erase path fs) ;;;
      ret (match Fs.lookup path fs with Some _ => true | None => false end)
  end.

(** Modelled from the spec: a range-for over
    [boost::filesystem::directory_iterator{dir}], the spec's listing of
    the directory: the entries of [dir] as they are when the walk starts,
    each with its status; the walk itself may raise a
    [filesystem_error]. *)
Definition for_directory {S} (dir : string)
  (body : Fs.directory_entry -> S -> M S) (s : S)
  : World -> (S * option exception) * World :=
  fun w =>
    let all := Fs.entries dir (files w) in
    match iterate_fault env dir with
    | None => for_each all body s w
    | Some (n, what) =>
        match for_each (firstn n all) body s w with
        | ((s', None), w') => ((s', Some (filesystem_error what)), w')
        | r => r
        end
    end.

(** ** Private members *)

Definition MinAcceptableUpdateTime (config : CacheConfigStatic) : TimePoint :=
  match max_dump_age config with
  | Some age => minus_ms (Round (Now env)) (Z.pos age)
  | None => TimePoint_min
  end.

Definition ParseDumpName (filename : string) : M (option ParsedDumpName.t) :=
  match regex_match filename filename_regex_ with
  | Some (cap1, cap2) =>
      match decode_dump_name filename cap1 cap2 with
      | Ok p => ret (Some p)
      | Throw _ =>
          LOG kWarning "A filename looks like a cache dump, but it is not" ;;;
          ret None
      end
  | None => ret None
  end.

Definition latest_round (config : CacheConfigStatic)
  (min_update_time : TimePoint) (file : Fs.directory_entry)
  (best_dump : option ParsedDumpName.t) : M (option ParsedDumpName.t) :=
  if negb (Fs.is_regular_file (Fs.entry_status file)) then ret best_dump
  else
    curr_dump <- ParseDumpName (Fs.filename file) ;;
    match curr_dump with
    | None => ret best_dump
    | Some curr =>
        if negb (ParsedDumpName.format_version curr
                 =? dump_format_version config) then
          LOG kDebug "Ignoring cache dump: format version != current version" ;;;
          ret best_dump
        else if (ParsedDumpName.update_time curr <? min_update_time)
                && (match max_dump_age config with
                    | Some _ => true | None => false end) then
          LOG kDebug "Ignoring cache dump: its age is greater than the maximum" ;;;
          ret best_dump
        else
          match best_dump with
          | None => ret (Some curr)
          | Some best =>
              if ParsedDumpName.update_time best
                 <? ParsedDumpName.update_time curr
              then ret (Some curr) else ret best_dump
          end
    end.

Definition GetLatestDumpNameBlocking (config : CacheConfigStatic)
  : M (option string) :=
  fun w =>
    let min_update_time := MinAcceptableUpdateTime config in
    match for_directory (dump_directory config)
            (latest_round config min_update_time) None w with
    | ((best_dump, None), w') =>
        (Ok (option_map ParsedDumpName.filename best_dump), w')
    | ((best_dump, Some ex), w') =>
        if is_std_exception ex then
          (LOG kError "Error while trying to fetch cache dumps" ;;;
           ret (option_map ParsedDumpName.filename best_dump)) w'
        else (Throw ex, w')
    end.

(** Runs the blocking body on the filesystem task processor and waits. *)
Definition GetLatestDumpName (config : CacheConfigStatic) : M (option string) :=
  GetLatestDumpNameBlocking config.

Definition cleanup_round (config : CacheConfigStatic)
  (min_update_time : TimePoint) (file : Fs.directory_entry)
  (dumps : list ParsedDumpName.t) : M (list ParsedDumpName.t) :=
  if negb (Fs.is_regular_file (Fs.entry_status file)) then ret dumps
  else
    match regex_match (Fs.filename file) tmp_filename_regex_ with
    | Some _ =>
        LOG kDebug "Removing a leftover tmp file" ;;;
        remove (Fs.path file) ;;;
        ret dumps
    | None =>
        dump <- ParseDumpName (Fs.filename file) ;;
        match dump with
        | None => ret dumps
        | Some dump =>
            if (ParsedDumpName.format_version dump <? dump_format_version config)
               || (ParsedDumpName.update_time dump <? min_update_time) then
              LOG kDebug "Removing an expired dump" ;;;
              remove (Fs.path file) ;;;
              ret dumps
            else if ParsedDumpName.format_version dump
                    =? dump_format_version config then
              ret (dumps ++ [dump])
            else ret dumps
        end
    end.

(** [std::sort] with the comparison [a.update_time > b.update_time].  The
    order it leaves between dumps of equal time is not specified; the
    insertion sort below leaves them in the order of the walk, which is
    one admissible outcome.  No statement below depends on that order. *)
Definition newer (a b : ParsedDumpName.t) : bool :=
  ParsedDumpName.update_time b <? ParsedDumpName.update_time a.

Fixpoint insert_newer (a : ParsedDumpName.t) (l : list ParsedDumpName.t)
  : list ParsedDumpName.t :=
  match l with
  | [] => [a]
  | b :: l' => if newer b a then b :: insert_newer a l' else a :: l
  end.

Fixpoint sort_newer (l : list ParsedDumpName.t) : list ParsedDumpName.t :=
  match l with
  | [] => []
  | a :: l' => insert_newer a (sort_newer l')
  end.

Definition remove_excess (config : CacheConfigStatic)
  (dump : ParsedDumpName.t) (_ : unit) : M unit :=
  let dump_path := FilenameToPath (ParsedDumpName.filename dump) config in
  LOG kDebug "Removing an excessive dump" ;;;
  remove dump_path ;;;
  ret tt.

Definition cleanup_handler (ex : exception) : M unit :=
  if is_std_exception ex then LOG kError "Error while cleaning up old dumps"
  else throw ex.

Definition CleanupBlocking (config : CacheConfigStatic) : M unit :=
  fun w =>
    let min_update_time := MinAcceptableUpdateTime config in
    match for_directory (dump_directory config)
            (cleanup_round config min_update_time) [] w with
    | ((dumps, None), w1) =>
        let dumps := sort_newer dumps in
        match for_each (skipn (max_dump_count config) dumps)
                (remove_excess config) tt w1 with
        | ((_, None), w2) => (Ok tt, w2)
        | ((_, Some ex), w2) => cleanup_handler ex w2
        end
    | ((_, Some ex), w1) => cleanup_handler ex w1
    end.

(** ** Public members *)

Definition WriteNewDump (dump : DumpContents.t) : M bool :=
  config <- Read_config ;;
  let dump_path := GenerateDumpPath (DumpContents.update_time dump) config in
  exists_ <- FileExists dump_path ;;
  if (exists_ : bool) then
    LOG kError "Could not dump cache: file already exists" ;;;
    ret false
  else
    let kPerms := Z.lor Fs.owner_read Fs.owner_write in
    try_catch
      (RewriteFileContentsAtomically dump_path (DumpContents.contents dump)
         kPerms ;;;
       LOG kInfo "Successfully dumped" ;;;
       ret true)
      is_std_exception
      (fun ex => LOG kError "Error while trying to dump cache" ;;; ret false).

Definition ReadLatestDump : M (option DumpContents.t) :=
  config <- Read_config ;;
  try_catch
    (filename <- GetLatestDumpName config ;;
     match filename with
     | None =>
         LOG kInfo "No usable cache dumps found" ;;;
         ret None
     | Some filename =>
         let dump_path := FilenameToPath filename config in
         LOG kDebug "A usable cache dump found" ;;;
         contents <- ReadFileContents dump_path ;;
         parsed <- ParseDumpName filename ;;
         parsed <- deref parsed ;;
         ret (Some (DumpContents.mk contents
                      (ParsedDumpName.update_time parsed)))
     end)
    is_std_exception
    (fun ex =>
       LOG kError "Error while trying to read the contents of cache dump" ;;;
       ret None).

(** [UASSERT(old_update_time <= new_update_time)] is compiled out of
    release builds and has no counterpart here. *)
Definition BumpDumpTime (old_update_time new_update_time : TimePoint)
  : M bool :=
  config <- Read_config ;;
  let old_name := GenerateDumpPath old_update_time config in
  let new_name := GenerateDumpPath new_update_time config in
  try_catch
    (exists_ <- FileExists old_name ;;
     if negb exists_ then
       LOG kWarning "The previous cache dump has suddenly disappeared" ;;;
       ret false
     else
       Rename old_name new_name ;;;
       LOG kInfo "Renamed cache dump" ;;;
       ret true)
    is_filesystem_error
    (fun ex => LOG kError "Error while trying to rename cache dump" ;;;
               ret false).

(** The blocking body runs on the filesystem task processor; afterwards
    [config_.Cleanup()] drops retired configuration snapshots, which the
    single [config_] of the model never has. *)
Definition Cleanup : M unit :=
  config <- Read_config ;;
  CleanupBlocking config.

Definition SetConfig (config : CacheConfigStatic) : M unit :=
  fun w => (Ok tt, {| files := files w; config_ := config; log := log w |}).

End Dumper.

(* ================================================================= *)
(** * Vocabulary of the statements *)

(** Dump times whose UTC year has four digits:
    0000-01-01T00:00:00.000000 up to, not including,
    10000-01-01T00:00:00.000000. *)
Definition kMinDumpTime : TimePoint := -62167219200000000.
Definition kEndDumpTime : TimePoint := 253402300800000000.

(** Dump times whose count of nanoseconds fits the 64 bits of a
    [system_clock::time_point]: 1677-09-21T00:12:43.145225 up to
    2262-04-11T23:47:16.854775 UTC.  Formatting converts an update time to
    that resolution, and an update time outside this range comes out as
    another instant. *)
Definition kFirstClockTime : TimePoint := -9223372036854775.
Definition kLastClockTime : TimePoint := 9223372036854775.

Definition in_clock_range (t : TimePoint) : Prop :=
  kFirstClockTime <= t <= kLastClockTime.

(** Surroundings in which no filesystem call fails. *)
Definition quiet (now : system_time) : Env :=
  {| clock := now;
     exists_fault := fun _ => None;
     write_fault := fun _ => None;
     read_fault := fun _ => None;
     rename_fault := fun _ _ => None;
     remove_fault := fun _ => None;
     iterate_fault := fun _ => None |}.

(** The oldest update time accepted under [config] at instant [now]. *)
Definition min_accept (now : system_time) (config : CacheConfigStatic)
  : option TimePoint :=
  match max_dump_age config with
  | Some age => Some (Round now - ms_to_us (Z.pos age))
  | None => None
  end.

Definition not_expired (now : system_time) (config : CacheConfigStatic)
  (d : ParsedDumpName.t) : Prop :=
  forall bound, min_accept now config = Some bound ->
                bound <= ParsedDumpName.update_time d.

(** The instant [Round(now) - max_dump_age] is itself a [TimePoint]: the
    subtraction of [MinAcceptableUpdateTime] stays within 64 bits.  With
    the clock in 2024 that is so for every age up to some 292000 years. *)
Definition age_limit_fits (now : system_time) (config : CacheConfigStatic)
  : Prop :=
  forall bound, min_accept now config = Some bound -> TimePoint_min <= bound.

(** [e] is a regular file whose name parses to [d]. *)
Definition is_dump (e : Fs.directory_entry) (d : ParsedDumpName.t) : Prop :=
  Fs.is_regular_file (Fs.entry_status e) = true
  /\ parse_dump_name (Fs.filename e) = Some d.

(** A dump that [ReadLatestDump] may return. *)
Definition usable (now : system_time) (config : CacheConfigStatic)
  (e : Fs.directory_entry) (d : ParsedDumpName.t) : Prop :=
  is_dump e d
  /\ ParsedDumpName.format_version d = dump_format_version config
  /\ not_expired now config d.

(** Regular files that parse as dumps of the current format version. *)
Definition is_current (config : CacheConfigStatic) (e : Fs.directory_entry)
  : bool :=
  Fs.is_regular_file (Fs.entry_status e)
  && match parse_dump_name (Fs.filename e) with
     | Some d => ParsedDumpName.format_version d =? dump_format_version config
     | None => false
     end.

(** ** The loops without their log lines *)

(** One round of the selection loop. *)
Definition pick (config : CacheConfigStatic) (min_update_time : TimePoint)
  (best_dump : option ParsedDumpName.t) (file : Fs.directory_entry)
  : option ParsedDumpName.t :=
  if negb (Fs.is_regular_file (Fs.entry_status file)) then best_dump
  else
    match parse_dump_name (Fs.filename file) with
    | None => best_dump
    | Some curr =>
        if negb (ParsedDumpName.format_version curr
                 =? dump_format_version config) then best_dump
        else if (ParsedDumpName.update_time curr <? min_update_time)
                && (match max_dump_age config with
                    | Some _ => true | None => false end) then best_dump
        else
          match best_dump with
          | None => Some curr
          | Some best =>
              if ParsedDumpName.update_time best
                 <? ParsedDumpName.update_time curr
              then Some curr else best_dump
          end
    end.

(** What the retention loop does with one directory entry. *)
Inductive treatment :=
| Removed
| Kept (d : ParsedDumpName.t)
| Skipped.

Definition treat (config : CacheConfigStatic) (min_update_time : TimePoint)
  (file : Fs.directory_entry) : treatment :=
  if negb (Fs.is_regular_file (Fs.entry_status file)) then Skipped
  else
    match regex_match (Fs.filename file) tmp_filename_regex_ with
    | Some _ => Removed
    | None =>
        match parse_dump_name (Fs.filename file) with
        | None => Skipped
        | Some dump =>
            if (ParsedDumpName.format_version dump <? dump_format_version config)
               || (ParsedDumpName.update_time dump <? min_update_time)
            then Removed
            else if ParsedDumpName.format_version dump
                    =? dump_format_version config
            then Kept dump else Skipped
        end
    end.

(** The retention loop over [l] on the files alone: the keep-list, the
    failure that ended the walk if any, and the files left. *)
Fixpoint sweep (env : Env) (config : CacheConfigStatic)
  (min_update_time : TimePoint) (l : list Fs.directory_entry)
  (dumps : list ParsedDumpName.t) (fs : Fs.t)
  : (list ParsedDumpName.t * option exception) * Fs.t :=
  match l with
  | [] => ((dumps, None), fs)
  | file :: l' =>
      match treat config min_update_time file with
      | Removed =>
          match remove_fault env (Fs.path file) with
          | Some what => ((dumps, Some (filesystem_error what)), fs)
          | None =>
              sweep env config min_update_time l' dumps
                (Fs.erase (Fs.path file) fs)
          end
      | Kept d => sweep env config min_update_time l' (dumps ++ [d]) fs
      | Skipped => sweep env config min_update_time l' dumps fs
      end
  end.

(** The removal of the excess dumps on the files alone. *)
Fixpoint trim (env : Env) (config : CacheConfigStatic)
  (l : list ParsedDumpName.t) (fs : Fs.t) : option exception * Fs.t :=
  match l with
  | [] => (None, fs)
  | d :: l' =>
      let dump_path := FilenameToPath (ParsedDumpName.filename d) config in
      match remove_fault env dump_path with
      | Some what => (Some (filesystem_error what), fs)
      | None => trim env config l' (Fs.erase dump_path fs)
      end
  end.

(** The entries a walk of [dir] yields before it fails, if it does. *)
Definition walked (env : Env) (dir : string) (fs : Fs.t)
  : list Fs.directory_entry :=
  match iterate_fault env dir with
  | None => Fs.entries dir fs
  | Some (n, _) => firstn n (Fs.entries dir fs)
  end.

(** The worlds [w] and [w'] differ at most in their log. *)
Definition only_logs (w w' : World) : Prop :=
  files w' = files w /\ config_ w' = config_ w.

Definition erase_all (paths : list string) (fs : Fs.t) : Fs.t :=
  fold_left (fun fs p => Fs.erase p fs) paths fs.

Definition is_removed (t : treatment) : bool :=
  match t with Removed => true | _ => false end.

(** The paths the retention loop removes among [l], and the keep-list it
    builds, when no removal fails. *)
Definition removed_paths (config : CacheConfigStatic)
  (min_update_time : TimePoint) (l : list Fs.directory_entry) : list string :=
  map Fs.path
    (filter (fun e => is_removed (treat config min_update_time e)) l).

Definition kept (config : CacheConfigStatic) (min_update_time : TimePoint)
  (l : list Fs.directory_entry) : list ParsedDumpName.t :=
  flat_map (fun e => match treat config min_update_time e with
                     | Kept d => [d]
                     | _ => []
                     end) l.

Definition dump_path_of (config : CacheConfigStatic) (d : ParsedDumpName.t)
  : string :=
  FilenameToPath (ParsedDumpName.filename d) config.

(** The files [Cleanup] leaves. *)
Definition cleanup_files (env : Env) (config : CacheConfigStatic) (fs : Fs.t)
  : Fs.t :=
  let min_update_time := MinAcceptableUpdateTime env config in
  match sweep env config min_update_time
          (walked env (dump_directory config) fs) [] fs with
  | ((dumps, None), fs1) =>
      match iterate_fault env (dump_directory config) with
      | Some _ => fs1
      | None =>
          snd (trim env config
                 (skipn (max_dump_count config) (sort_newer dumps)) fs1)
      end
  | ((_, Some _), fs1) => fs1
  end.

Definition listed (p : string) (paths : list string) : bool :=
  existsb (String.eqb p) paths.

(** A dump name whose version is written with [zeros] extra leading
    zeros. *)
Fixpoint zeros_then (zeros : nat) (rest : string) : string :=
  match zeros with
  | O => rest
  | S k => String "0" (zeros_then k rest)
  end.

Definition zero_padded_filename (update_time : TimePoint) (zeros : nat)
  (version : Z) : string :=
  format_civil (civil_of_time (to_system_time update_time / 1000))
    (String "-" (String "v" (zeros_then zeros (decimal version "")))).

(* ================================================================= *)
(** * Example worlds *)

Module Examples.

(** 2024-01-02T10:00:00Z in nanoseconds, 2024-01-02T03:04:05Z and
    2024-01-02T03:05:00Z in microseconds. *)
Definition now : system_time := 1704189600000000000.
Definition t_030405 : TimePoint := 1704164645000000.
Definition t_030500 : TimePoint := 1704164700000000.

(** 2286-11-20T17:46:40Z in microseconds, past the last instant of the
    clock. *)
Definition t_2286 : TimePoint := 10000000000000000.

Definition config_v (version : Z) (age : option positive) (count : nat)
  : CacheConfigStatic :=
  {| dump_directory := "/d";
     dump_format_version := version;
     max_dump_age := age;
     max_dump_count := count |}.

Definition dump_file (name data : string) : string * Fs.file :=
  (("/d/" ++ name)%string,
   {| Fs.status := Fs.regular_file; Fs.data := data; Fs.perms := 384 |}).

Definition world (config : CacheConfigStatic) (fs : Fs.t) : World :=
  {| files := fs; config_ := config; log := [] |}.

Definition hello : DumpContents.t := DumpContents.mk "hello" t_030405.

Definition name_v3 : string := "2024-01-02T03:04:05.000000-v3".
Definition name_v4 : string := "2024-01-02T03:04:05.000000-v4".
Definition name_v007 : string := "2024-01-02T03:04:05.000000-v007".
Definition name_tmp_a : string := "2024-01-02T03:04:05.000000-v3.tmp".
Definition name_tmp_b : string := "2024-01-02T03:04:06.000000-v3.tmp".

(** One dump of the current version 3. *)
Definition one_dump : World :=
  world (config_v 3 None 5) [dump_file name_v3 "hello"].

(** A dump of version 4, seven hours old, under version 3 and a maximum
    age of one hour. *)
Definition old_newer_version : World :=
  world (config_v 3 (Some 3600000%positive) 5) [dump_file name_v4 "next"].

(** The same dump without an age limit, and under a maximum age of one
    day. *)
Definition newer_version : World :=
  world (config_v 3 None 5) [dump_file name_v4 "next"].

Definition recent_newer_version : World :=
  world (config_v 3 (Some 86400000%positive) 5) [dump_file name_v4 "next"].

(** Two leftover temporary files. *)
Definition two_leftovers : World :=
  world (config_v 3 None 5)
    [dump_file name_tmp_a "a"; dump_file name_tmp_b "b"].

(** A leftover side file of the dump of 03:04:05, beside an older dump. *)
Definition leftover_side_file : World :=
  world (config_v 3 None 5)
    [dump_file name_tmp_a "a";
     dump_file "2024-01-02T03:04:01.000000-v3" "1"].

(** Surroundings in which exactly one path cannot be removed, or cannot be
    examined. *)
Definition cannot_remove (path : string) : Env :=
  {| clock := now;
     exists_fault := fun _ => None;
     write_fault := fun _ => None;
     read_fault := fun _ => None;
     rename_fault := fun _ _ => None;
     remove_fault := fun p => if String.eqb p path
                              then Some "Permission denied" else None;
     iterate_fault := fun _ => None |}.

Definition cannot_stat (path : string) : Env :=
  {| clock := now;
     exists_fault := fun p => if String.eqb p path
                              then Some "Permission denied" else None;
     write_fault := fun _ => None;
     read_fault := fun _ => None;
     rename_fault := fun _ _ => None;
     remove_fault := fun _ => None;
     iterate_fault := fun _ => None |}.

(** A dump whose version is written with leading zeros. *)
Definition leading_zeros (version : Z) : World :=
  world (config_v version None 5) [dump_file name_v007 "seven"].

(** Four dumps of the current version and room for two. *)
Definition four_dumps : World :=
  world (config_v 3 (Some 86400000%positive) 2)
    [dump_file "2024-01-02T03:04:01.000000-v3" "1";
     dump_file "2024-01-02T03:04:04.000000-v3" "4";
     dump_file "2024-01-02T03:04:02.000000-v3" "2";
     dump_file "2024-01-02T03:04:03.000000-v3" "3";
     dump_file "2024-01-02T03:04:03.000000-v2" "old";
     dump_file "2024-01-01T03:04:03.000000-v3" "stale";
     dump_file "2024-01-02T03:04:03.000000-v3.tmp" "tmp"].

(** The greatest age a [std::chrono::milliseconds] holds, and one dump
    of the current version 3 under that maximum age. *)
Definition greatest_age : positive := 9223372036854775807.

Definition one_dump_greatest_age : World :=
  world (config_v 3 (Some greatest_age) 5) [dump_file name_v3 "hello"].

(** Two dumps of the current version 1, two hours and half an hour old,
    under a maximum age of one hour. *)
Definition aged : World :=
  world (config_v 1 (Some 3600000%positive) 5)
    [dump_file "2024-01-02T08:00:00.000000-v1" "old";
     dump_file "2024-01-02T09:30:00.000000-v1" "fresh"].

End Examples.

(* ================================================================= *)
(** * Orderings of dumps, and the outcome of a read *)

(** The dump of entry [e] is at least as new as [d]. *)
Definition at_least_as_new (d : ParsedDumpName.t) (e : Fs.directory_entry)
  : bool :=
  match parse_dump_name (Fs.filename e) with
  | Some d' => ParsedDumpName.update_time d <=? ParsedDumpName.update_time d'
  | None => false
  end.

(** [d'] is at least as new as [d]. *)
Definition not_older (d d' : ParsedDumpName.t) : bool :=
  ParsedDumpName.update_time d <=? ParsedDumpName.update_time d'.

(** The order of the sorted keep-list. *)
Definition newest_first (a b : ParsedDumpName.t) : Prop :=
  ParsedDumpName.update_time b <= ParsedDumpName.update_time a.

(** The same order without ties: between dumps of different update
    times every sort agrees. *)
Definition strictly_newest_first (a b : ParsedDumpName.t) : Prop :=
  ParsedDumpName.update_time b < ParsedDumpName.update_time a.

(** What a failure-free read returns for the dump chosen. *)
Definition read_best (config : CacheConfigStatic) (fs : Fs.t)
  (best : option ParsedDumpName.t) : option DumpContents.t :=
  match best with
  | None => None
  | Some d =>
      match Fs.lookup (FilenameToPath (ParsedDumpName.filename d) config) fs with
      | Some f =>
          Some (DumpContents.mk (Fs.data f) (ParsedDumpName.update_time d))
      | None => None
      end
  end.

(* ================================================================= *)
(** * Further example worlds *)

Module MoreExamples.

Definition cannot_write (path : string) : Env :=
  {| clock := Examples.now;
     exists_fault := fun _ => None;
     write_fault := fun p => if String.eqb p path
                             then Some "No space left on device" else None;
     read_fault := fun _ => None;
     rename_fault := fun _ _ => None;
     remove_fault := fun _ => None;
     iterate_fault := fun _ => None |}.

(** A later instant: one nanosecond after [Examples.now]. *)
Definition later : system_time := Examples.now + 1.

Definition empty_v3 : World := Examples.world (Examples.config_v 3 None 5) [].

Definition later_dump : DumpContents.t :=
  DumpContents.mk "again" Examples.t_030500.

Definition parsed_v3 : ParsedDumpName.t :=
  ParsedDumpName.mk Examples.name_v3 Examples.t_030405 3.

Definition entry (name : string) : Fs.directory_entry :=
  {| Fs.path := ("/d/" ++ name)%string;
     Fs.filename := name;
     Fs.entry_status := Fs.regular_file |}.

Definition name_04 : string := "2024-01-02T03:04:04.000000-v3".
Definition name_03 : string := "2024-01-02T03:04:03.000000-v3".
Definition name_02 : string := "2024-01-02T03:04:02.000000-v3".
Definition name_01 : string := "2024-01-02T03:04:01.000000-v3".

Definition t_030404 : TimePoint := 1704164644000000.

Definition parsed_04 : ParsedDumpName.t :=
  ParsedDumpName.mk name_04 t_030404 3.
Definition parsed_03 : ParsedDumpName.t :=
  ParsedDumpName.mk name_03 1704164643000000 3.
Definition parsed_02 : ParsedDumpName.t :=
  ParsedDumpName.mk name_02 1704164642000000 3.
Definition parsed_01 : ParsedDumpName.t :=
  ParsedDumpName.mk name_01 1704164641000000 3.

Definition name_stale : string := "2024-01-02T08:00:00.000000-v1".
Definition name_fresh : string := "2024-01-02T09:30:00.000000-v1".

Definition parsed_fresh : ParsedDumpName.t :=
  ParsedDumpName.mk name_fresh 1704187800000000 1.

(** A dump beside a file of another kind and a file of another directory. *)
Definition with_foreign : World :=
  Examples.world (Examples.config_v 3 None 5)
    [Examples.dump_file "README" "notes";
     Examples.dump_file Examples.name_v3 "hello";
     ("/elsewhere/2024-01-02T03:04:05.000000-v2",
      {| Fs.status := Fs.regular_file; Fs.data := "x"; Fs.perms := 420 |})].

(** The world [ReadLatestDump] leaves after reading [Examples.one_dump]. *)
Definition one_dump_read : World :=
  {| files := files Examples.one_dump;
     config_ := config_ Examples.one_dump;
     log := [(kDebug, "A usable cache dump found")] |}.

End MoreExamples.


(* ================================================================= *)
(** * Facts: calendar arithmetic *)

Ltac div_lia := Z.div_mod_to_equations; lia.

Module CivilFacts.

Lemma yoe_bounds (doe : Z) :
  0 <= doe < 146097 ->
  let yoe := (doe - doe / 1460 + doe / 36524 - doe / 146096) / 365 in
  0 <= yoe < 400 /\ 0 <= doe - (365 * yoe + yoe / 4 - yoe / 100) <= 365.
Proof.
  intros H yoe. subst yoe. div_lia.
Qed.

Lemma month_day_bounds (doy : Z) :
  0 <= doy <= 365 ->
  let mp := (5 * doy + 2) / 153 in
  0 <= mp <= 11 /\ 1 <= doy - (153 * mp + 2) / 5 + 1 <= 31.
Proof. intros H mp. subst mp. div_lia. Qed.

Lemma civil_from_days_inverse (z : Z) :
  let '(y, m, d) := civil_from_days z in
  days_from_civil y m d = z /\ 1 <= m <= 12 /\ 1 <= d <= 31.
Proof.
  unfold civil_from_days.
  set (z' := z + 719468).
  set (era := z' / 146097).
  set (doe := z' - era * 146097).
  assert (Hdoe : 0 <= doe < 146097) by (subst doe era; div_lia).
  pose proof (yoe_bounds doe Hdoe) as Hy. cbv zeta in Hy.
  set (yoe := (doe - doe / 1460 + doe / 36524 - doe / 146096) / 365) in *.
  set (doy := doe - (365 * yoe + yoe / 4 - yoe / 100)) in *.
  destruct Hy as [Hyoe Hdoy].
  pose proof (month_day_bounds doy Hdoy) as Hm. cbv zeta in Hm.
  set (mp := (5 * doy + 2) / 153) in *.
  set (d := doy - (153 * mp + 2) / 5 + 1) in *.
  destruct Hm as [Hmp Hd].
  assert (Hera : forall y', y' = yoe + era * 400 -> y' / 400 = era) by (intros; div_lia).
  unfold days_from_civil.
  destruct (mp <? 10) eqn:Emp; [apply Z.ltb_lt in Emp | apply Z.ltb_ge in Emp].
  - replace (mp + 3 <=? 2) with false by (symmetry; apply Z.leb_gt; lia).
    replace (2 <? mp + 3) with true by (symmetry; apply Z.ltb_lt; lia).
    rewrite (Hera _ eq_refl).
    replace (mp + 3 - 3) with mp by lia.
    split; [| lia]. unfold d, doy, doe, z'. div_lia.
  - replace (mp - 9 <=? 2) with true by (symmetry; apply Z.leb_le; lia).
    replace (2 <? mp - 9) with false by (symmetry; apply Z.ltb_ge; lia).
    replace (yoe + era * 400 + 1 - 1) with (yoe + era * 400) by lia.
    rewrite (Hera _ eq_refl).
    replace (mp - 9 + 9) with mp by lia.
    split; [| lia]. unfold d, doy, doe, z'. div_lia.
Qed.

Lemma civil_of_time_fields (t : TimePoint) :
  let c := civil_of_time t in
  time_of_civil c = t /\
  1 <= month c <= 12 /\ 1 <= day c <= 31 /\
  0 <= hour c <= 23 /\ 0 <= minute c <= 59 /\ 0 <= second c <= 59 /\
  0 <= micros c <= 999999 /\
  civil_from_days (days_from_civil (year c) (month c) (day c))
  = (year c, month c, day c).
Proof.
  unfold civil_of_time, time_of_civil.
  pose proof (civil_from_days_inverse (t / us_per_day)) as H.
  destruct (civil_from_days (t / us_per_day)) as [[y m] d] eqn:E.
  destruct H as (Hd & Hm & Hday). cbn [year month day hour minute second micros].
  rewrite Hd. unfold us_per_day, us_per_second in *.
  repeat split; try div_lia. exact E.
Qed.

Lemma year_range (z : Z) :
  -719528 <= z < 2932897 ->
  let '(y, _, _) := civil_from_days z in 0 <= y <= 9999.
Proof.
  intros Hz. unfold civil_from_days.
  set (z' := z + 719468).
  set (era := z' / 146097).
  set (doe := z' - era * 146097).
  assert (Hdoe : 0 <= doe < 146097) by (subst doe era; div_lia).
  assert (Hera : -1 <= era <= 24) by (subst era z'; div_lia).
  assert (Hlo : era = -1 -> 146037 <= doe) by (subst doe era z'; div_lia).
  assert (Hhi : era = 24 -> doe < 146037) by (subst doe era z'; div_lia).
  clearbody doe era. clear z' Hz.
  match goal with |- context [?a <? 10] => destruct (a <? 10) eqn:E end.
  - apply Z.ltb_lt in E. cbv iota.
    match goal with |- context [if ?b then _ else _] => replace b with false by (symmetry; apply Z.leb_gt; div_lia) end.
    div_lia.
  - apply Z.ltb_ge in E. cbv iota.
    match goal with |- context [if ?b then _ else _] => replace b with true by (symmetry; apply Z.leb_le; div_lia) end.
    div_lia.
Qed.

End CivilFacts.

(* ================================================================= *)
(** * Facts: digits and text *)

Module TextFacts.

Lemma digit_char_ok (k : Z) :
  0 <= k <= 9 -> is_digit (digit_char k) = true /\ digit_val (digit_char k) = k.
Proof.
  intros H.
  assert (Hk : k = 0 \/ k = 1 \/ k = 2 \/ k = 3 \/ k = 4 \/ k = 5 \/ k = 6
               \/ k = 7 \/ k = 8 \/ k = 9) by lia.
  repeat (destruct Hk as [-> | Hk]; [split; reflexivity|]).
  subst k. split; reflexivity.
Qed.

Lemma mod10_digit (n : Z) :
  is_digit (digit_char (n mod 10)) = true
  /\ digit_val (digit_char (n mod 10)) = n mod 10.
Proof. apply digit_char_ok. div_lia. Qed.

Lemma is_digit_val_range (c : ascii) : is_digit c = true -> 0 <= digit_val c <= 9.
Proof.
  unfold is_digit, digit_val. intros H.
  apply andb_true_iff in H. destruct H as [H1 H2].
  apply Z.leb_le in H1, H2. lia.
Qed.

Lemma append_assoc (a b c : string) :
  ((a ++ b) ++ c)%string = (a ++ (b ++ c))%string.
Proof. induction a as [|x a IH]; simpl; [reflexivity|]. rewrite IH. reflexivity. Qed.

Lemma append_nil_r (a : string) : (a ++ "")%string = a.
Proof. induction a as [|x a IH]; simpl; [reflexivity|]. rewrite IH. reflexivity. Qed.

Lemma append_inv_head (a b c : string) :
  (a ++ b)%string = (a ++ c)%string -> b = c.
Proof.
  induction a as [|x a IH]; simpl; intros H; [exact H|].
  injection H as H. exact (IH H).
Qed.

(** The side file of an atomic write is not the file itself. *)
Lemma tmp_path_differs (p : string) : (p ++ ".tmp")%string <> p.
Proof.
  induction p as [|x p IH]; simpl; [discriminate|].
  intros H. injection H as H. exact (IH H).
Qed.

Lemma strip_prefix_app (pre s : string) :
  strip_prefix pre (pre ++ s)%string = Some s.
Proof.
  induction pre as [|x pre IH]; simpl; [reflexivity|].
  rewrite Ascii.eqb_refl. exact IH.
Qed.

Lemma strip_prefix_spec (pre : string) : forall s r,
  strip_prefix pre s = Some r -> s = (pre ++ r)%string.
Proof.
  induction pre as [|x pre IH]; simpl; intros s r H.
  - injection H as ->. reflexivity.
  - destruct s as [|c s]; [discriminate|].
    destruct (Ascii.eqb x c) eqn:E; [|discriminate].
    apply Ascii.eqb_eq in E. subst c. rewrite (IH _ _ H). reflexivity.
Qed.

Lemma digits_app (w : nat) : forall n rest,
  digits w n rest = (digits w n "" ++ rest)%string.
Proof.
  induction w as [|w IH]; intros n rest; simpl; [reflexivity|].
  rewrite IH. rewrite (IH _ (String _ "")).
  rewrite append_assoc. reflexivity.
Qed.

Lemma scan_digits_digits (w : nat) : forall w2 n rest acc,
  0 <= n < 10 ^ Z.of_nat w ->
  scan_digits (w + w2) (digits w n rest) acc
  = scan_digits w2 rest (acc * 10 ^ Z.of_nat w + n).
Proof.
  induction w as [|w IH]; intros w2 n rest acc Hn.
  - simpl in *. f_equal. lia.
  - simpl digits. replace (S w + w2)%nat with (w + S w2)%nat by lia.
    rewrite Nat2Z.inj_succ, Z.pow_succ_r in Hn by lia.
    rewrite IH by div_lia.
    cbn [scan_digits]. destruct (mod10_digit n) as [-> ->].
    f_equal. rewrite Nat2Z.inj_succ, Z.pow_succ_r by lia. div_lia.
Qed.

Lemma scan_digits_exact (w : nat) (n : Z) (rest : string) :
  0 <= n < 10 ^ Z.of_nat w ->
  scan_digits w (digits w n rest) 0 = Some (n, rest).
Proof.
  intros Hn. pose proof (scan_digits_digits w 0 n rest 0 Hn) as H.
  rewrite Nat.add_0_r in H. rewrite H. reflexivity.
Qed.

Lemma match_atoms_digits (w : nat) : forall p n rest,
  match_atoms (repeat Digit w ++ p) (digits w n rest)
  = match match_atoms p rest with
    | Some (m, r) => Some (digits w n m, r)
    | None => None
    end.
Proof.
  induction w as [|w IH]; intros p n rest.
  - simpl. destruct (match_atoms p rest) as [[m r]|]; reflexivity.
  - simpl digits.
    change (repeat Digit (S w) ++ p) with ((Digit :: repeat Digit w) ++ p).
    rewrite repeat_cons, <- app_assoc. simpl app.
    rewrite IH. simpl. destruct (mod10_digit n) as [-> _].
    destruct (match_atoms p rest) as [[m r]|]; reflexivity.
Qed.

Lemma scan_digits_nonneg (w : nat) : forall s acc v r,
  0 <= acc -> scan_digits w s acc = Some (v, r) -> 0 <= v.
Proof.
  induction w as [|w IH]; intros s acc v r Hacc H; simpl in H.
  - injection H as <- _. exact Hacc.
  - destruct s as [|c s]; [discriminate|].
    destruct (is_digit c) eqn:Ec; [|discriminate].
    apply IH in H; [exact H|]. apply is_digit_val_range in Ec. lia.
Qed.

Lemma decimal_fuel_shape (fuel : nat) : forall n rest,
  exists c s, decimal_fuel (S fuel) n rest = String c s.
Proof.
  induction fuel as [|fuel IH]; intros n rest.
  - simpl. destruct (n / 10 =? 0); eauto.
  - change (decimal_fuel (S (S fuel)) n rest) with
      (let rest' := String (digit_char (n mod 10)) rest in
       if n / 10 =? 0 then rest' else decimal_fuel (S fuel) (n / 10) rest').
    cbv zeta. destruct (n / 10 =? 0); eauto.
Qed.

Lemma decimal_fuel_all_digits (fuel : nat) : forall n rest,
  all_digits (decimal_fuel fuel n rest) = all_digits rest.
Proof.
  induction fuel as [|fuel IH]; intros n rest; simpl; [reflexivity|].
  destruct (n / 10 =? 0); [|rewrite IH]; simpl;
    destruct (mod10_digit n) as [-> _]; reflexivity.
Qed.

Lemma decimal_fuel_value (fuel : nat) : forall n rest,
  0 <= n < 10 ^ Z.of_nat fuel ->
  digits_value (decimal_fuel fuel n rest) 0 = digits_value rest n.
Proof.
  induction fuel as [|fuel IH]; intros n rest Hn.
  - simpl in *. f_equal. lia.
  - rewrite Nat2Z.inj_succ, Z.pow_succ_r in Hn by lia. simpl.
    destruct (n / 10 =? 0) eqn:E.
    + apply Z.eqb_eq in E. simpl. destruct (mod10_digit n) as [_ ->].
      f_equal. div_lia.
    + rewrite IH by div_lia. simpl. destruct (mod10_digit n) as [_ ->].
      f_equal. div_lia.
Qed.

Lemma nb_digits_enough (n : Z) : 0 <= n -> n < 10 ^ Z.of_nat (nb_digits n).
Proof.
  intros Hn. unfold nb_digits.
  rewrite Nat2Z.inj_succ, Z2Nat.id by apply Z.log2_nonneg.
  destruct (Z.eq_dec n 0) as [->|Hnz]; [reflexivity|].
  pose proof (Z.log2_spec n ltac:(lia)) as [_ H].
  eapply Z.lt_le_trans; [exact H|].
  apply Z.pow_le_mono_l. lia.
Qed.

Lemma decimal_value (n : Z) (rest : string) :
  0 <= n -> digits_value (decimal n rest) 0 = digits_value rest n.
Proof.
  intros Hn. apply decimal_fuel_value. split; [exact Hn|].
  apply nb_digits_enough; exact Hn.
Qed.

Lemma decimal_all_digits (n : Z) : all_digits (decimal n "") = true.
Proof. unfold decimal. rewrite decimal_fuel_all_digits. reflexivity. Qed.

Lemma decimal_shape (n : Z) (rest : string) :
  exists c s, decimal n rest = String c s.
Proof. apply decimal_fuel_shape. Qed.

Lemma decimal_fuel_app (fuel : nat) : forall n rest,
  decimal_fuel fuel n rest = (decimal_fuel fuel n "" ++ rest)%string.
Proof.
  induction fuel as [|fuel IH]; intros n rest; simpl; [reflexivity|].
  destruct (n / 10 =? 0); [reflexivity|].
  rewrite IH, (IH _ (String _ "")), append_assoc. reflexivity.
Qed.

Lemma span_digits_all (s : string) :
  all_digits s = true -> span_digits s = (s, "").
Proof.
  induction s as [|c s IH]; simpl; [reflexivity|].
  intros H. apply andb_true_iff in H. destruct H as [-> H].
  rewrite (IH H). reflexivity.
Qed.

End TextFacts.

(* ================================================================= *)
(** * Facts: 64-bit tick counts *)

Module ChronoFacts.

Lemma wrap64_range (z : Z) : - 2 ^ 63 <= wrap64 z < 2 ^ 63.
Proof. unfold wrap64. div_lia. Qed.

Lemma wrap64_id (z : Z) : - 2 ^ 63 <= z < 2 ^ 63 -> wrap64 z = z.
Proof. intros H. unfold wrap64. div_lia. Qed.

Lemma wrap64_sub_wrap (a b : Z) : wrap64 (a - wrap64 b) = wrap64 (a - b).
Proof.
  unfold wrap64. f_equal.
  change (2 ^ 64) with 18446744073709551616.
  change (2 ^ 63) with 9223372036854775808.
  div_lia.
Qed.

(** A value below [2^63] can only grow when it is reduced to 64 bits. *)
Lemma wrap64_above (z : Z) : z < 2 ^ 63 -> z <= wrap64 z.
Proof. intros H. unfold wrap64. div_lia. Qed.

Lemma Now_range (env : Env) : - 2 ^ 63 <= Now env < 2 ^ 63.
Proof. apply wrap64_range. Qed.

Lemma Round_range (time : system_time) :
  - 2 ^ 63 <= time < 2 ^ 63 ->
  -9223372036854776 <= Round time <= 9223372036854776.
Proof.
  intros H. unfold Round.
  destruct (time mod 1000 <? 500) eqn:E1;
    [|destruct (500 <? time mod 1000) eqn:E2;
      [|destruct (Z.even (time / 1000))]];
    rewrite ?Z.ltb_lt, ?Z.ltb_ge in *; div_lia.
Qed.

Lemma to_system_time_exact (t : TimePoint) :
  in_clock_range t -> to_system_time t = t * 1000.
Proof.
  unfold in_clock_range, kFirstClockTime, kLastClockTime.
  intros H. apply wrap64_id. lia.
Qed.

(** The limit the code computes is never before [time - age], and is
    that instant whenever it is a [TimePoint]. *)
Lemma minus_ms_above (time : TimePoint) (age : positive) :
  time < 2 ^ 63 -> time - ms_to_us (Z.pos age) <= minus_ms time (Z.pos age).
Proof.
  intros H. unfold minus_ms, ms_to_us. rewrite wrap64_sub_wrap.
  apply wrap64_above. lia.
Qed.

Lemma minus_ms_exact (time : TimePoint) (age : positive) :
  time < 2 ^ 63 -> TimePoint_min <= time - ms_to_us (Z.pos age) ->
  minus_ms time (Z.pos age) = time - ms_to_us (Z.pos age).
Proof.
  unfold minus_ms, ms_to_us, TimePoint_min. intros H1 H2.
  rewrite wrap64_sub_wrap. apply wrap64_id. lia.
Qed.

Lemma Round_Now_below (env : Env) : Round (Now env) < 2 ^ 63.
Proof. pose proof (Round_range _ (Now_range env)). lia. Qed.

(** The limit of [MinAcceptableUpdateTime] against [Round(now) - age]. *)
Lemma min_accept_below (env : Env) (config : CacheConfigStatic)
  (bound : TimePoint) :
  min_accept (Now env) config = Some bound ->
  bound <= MinAcceptableUpdateTime env config.
Proof.
  unfold min_accept, MinAcceptableUpdateTime.
  destruct (max_dump_age config) as [age|]; [|discriminate].
  intros H. injection H as <-. apply minus_ms_above. apply Round_Now_below.
Qed.

Lemma min_accept_exact (env : Env) (config : CacheConfigStatic)
  (bound : TimePoint) :
  age_limit_fits (Now env) config ->
  min_accept (Now env) config = Some bound ->
  MinAcceptableUpdateTime env config = bound.
Proof.
  intros Hfit Hb. specialize (Hfit _ Hb). revert Hb Hfit.
  unfold min_accept, MinAcceptableUpdateTime.
  destruct (max_dump_age config) as [age|]; [|discriminate].
  intros H Hfit. injection H as <-.
  apply minus_ms_exact; [apply Round_Now_below|exact Hfit].
Qed.

Lemma clock_range_four_digits (t : TimePoint) :
  in_clock_range t -> kMinDumpTime <= t < kEndDumpTime.
Proof.
  unfold in_clock_range, kFirstClockTime, kLastClockTime, kMinDumpTime,
    kEndDumpTime. lia.
Qed.

End ChronoFacts.

(* ================================================================= *)
(** * Facts: dump names *)

Module NamingFacts.
Import CivilFacts TextFacts ChronoFacts.

Lemma to_system_time_floor (t : TimePoint) :
  in_clock_range t -> to_system_time t / 1000 = t.
Proof.
  intros Ht. rewrite to_system_time_exact by exact Ht. apply Z.div_mul. lia.
Qed.

Lemma Round_to_system_time (t : TimePoint) :
  in_clock_range t -> Round (to_system_time t) = t.
Proof.
  intros Ht. rewrite to_system_time_exact by exact Ht. unfold Round.
  rewrite Z.div_mul, Z.mod_mul by lia. reflexivity.
Qed.

Lemma civil_of_time_year (t : TimePoint) :
  kMinDumpTime <= t < kEndDumpTime -> 0 <= year (civil_of_time t) <= 9999.
Proof.
  intros Ht. unfold civil_of_time.
  assert (Hz : -719528 <= t / us_per_day < 2932897)
    by (unfold kMinDumpTime, kEndDumpTime, us_per_day, us_per_second in *; div_lia).
  pose proof (year_range _ Hz) as Hy.
  destruct (civil_from_days (t / us_per_day)) as [[y m] d]. exact Hy.
Qed.

Lemma decimal_app (n : Z) (rest : string) :
  decimal n rest = (decimal n "" ++ rest)%string.
Proof. apply decimal_fuel_app. Qed.

Lemma format_civil_app (c : civil_time) (rest : string) :
  format_civil c rest = (format_civil c "" ++ rest)%string.
Proof.
  unfold format_civil.
  assert (Hy : forall y r, format_year y r = (format_year y "" ++ r)%string).
  { intros y r. unfold format_year.
    destruct (y <? 0); [destruct (- y <? 10000) | destruct (y <? 10000)];
      cbn [append]; rewrite ?(digits_app 4 _ r), ?(decimal_app _ r);
      reflexivity. }
  rewrite Hy, (Hy _ (String _ _)), append_assoc. f_equal.
Qed.

Lemma match_date_format (c : civil_time) (rest : string) :
  0 <= year c <= 9999 ->
  match_atoms date_atoms (format_civil c rest) = Some (format_civil c "", rest).
Proof.
  intros Hy. unfold format_civil, format_year.
  replace (year c <? 0) with false by (symmetry; apply Z.ltb_ge; lia).
  replace (year c <? 10000) with true by (symmetry; apply Z.ltb_lt; lia).
  change date_atoms with
    (repeat Digit 4 ++ Lit "-" :: repeat Digit 2 ++ Lit "-" :: repeat Digit 2
     ++ Lit "T" :: repeat Digit 2 ++ Lit ":" :: repeat Digit 2
     ++ Lit ":" :: repeat Digit 2 ++ Lit "." :: repeat Digit 6 ++ []).
  repeat (rewrite match_atoms_digits; cbn [match_atoms atom_matches];
          rewrite ?Ascii.eqb_refl).
  reflexivity.
Qed.

Lemma scan_civil_format (c : civil_time) :
  0 <= year c <= 9999 -> 0 <= month c <= 99 -> 0 <= day c <= 99 ->
  0 <= hour c <= 99 -> 0 <= minute c <= 99 -> 0 <= second c <= 99 ->
  0 <= micros c <= 999999 ->
  scan_civil (format_civil c "") = Some c.
Proof.
  intros Hy Hm Hd Hh Hmi Hs Hu. unfold format_civil, format_year, scan_civil.
  replace (year c <? 0) with false by (symmetry; apply Z.ltb_ge; lia).
  replace (year c <? 10000) with true by (symmetry; apply Z.ltb_lt; lia).
  repeat (rewrite scan_digits_exact by (change (10 ^ _) with 10000 || change (10 ^ _) with 100 || change (10 ^ _) with 1000000; lia);
          cbn [scan_lit]; rewrite ?Ascii.eqb_refl).
  destruct c; reflexivity.
Qed.

Lemma Stringtime_Timestring (t : TimePoint) :
  in_clock_range t ->
  Stringtime (Timestring (to_system_time t)) = Ok (to_system_time t).
Proof.
  intros Hr. pose proof (clock_range_four_digits t Hr) as Ht.
  unfold Timestring, Stringtime. rewrite to_system_time_floor by exact Hr.
  pose proof (civil_of_time_year t Ht) as Hy.
  pose proof (civil_of_time_fields t) as H. cbv zeta in H.
  destruct H as (Ht' & Hm & Hd & Hh & Hmi & Hs & Hu & Hc).
  rewrite scan_civil_format by lia.
  unfold valid_civil. rewrite Hc.
  repeat match goal with
  | |- context [?a <=? ?b] => replace (a <=? b) with true by (symmetry; apply Z.leb_le; lia)
  end.
  rewrite !Z.eqb_refl. cbn [andb]. rewrite Ht'. cbv zeta.
  rewrite to_system_time_exact by exact Hr.
  unfold in_clock_range, kFirstClockTime, kLastClockTime in Hr.
  replace (- 2 ^ 63 <=? t * 1000) with true by (symmetry; apply Z.leb_le; lia).
  replace (t * 1000 <? 2 ^ 63) with true by (symmetry; apply Z.ltb_lt; lia).
  reflexivity.
Qed.

Lemma regex_match_dump_filename (t : TimePoint) (v : Z) :
  in_clock_range t ->
  regex_match (dump_filename t v) filename_regex_
  = Some (Timestring (to_system_time t), decimal v "").
Proof.
  intros Hr. pose proof (clock_range_four_digits t Hr) as Ht.
  unfold regex_match, dump_filename, Timestring.
  rewrite to_system_time_floor by exact Hr.
  cbn [filename_regex_ GenerateFilenameRegex re_date re_separator re_suffix].
  rewrite match_date_format by (apply civil_of_time_year; exact Ht).
  cbn [match_atoms atom_matches]. rewrite !Ascii.eqb_refl.
  rewrite span_digits_all by apply decimal_all_digits.
  destruct (decimal_shape v "") as (c & s & ->). reflexivity.
Qed.

Lemma FromString_decimal (v : Z) :
  0 <= v < 2 ^ 64 -> FromString_uint64 (decimal v "") = Ok v.
Proof.
  intros Hv. unfold FromString_uint64.
  rewrite decimal_all_digits, decimal_value by lia. cbn [digits_value].
  destruct (decimal_shape v "") as (c & s & ->).
  replace (v <? 2 ^ 64) with true by (symmetry; apply Z.ltb_lt; lia).
  reflexivity.
Qed.

Theorem parse_format_roundtrip (t : TimePoint) (v : Z) :
  in_clock_range t -> 0 <= v < 2 ^ 64 ->
  parse_dump_name (dump_filename t v)
  = Some (ParsedDumpName.mk (dump_filename t v) t v).
Proof.
  intros Ht Hv. unfold parse_dump_name.
  rewrite regex_match_dump_filename by exact Ht.
  unfold decode_dump_name.
  rewrite Stringtime_Timestring, FromString_decimal, Round_to_system_time by assumption.
  reflexivity.
Qed.

End NamingFacts.

(* ================================================================= *)
(** * Facts: the filesystem model *)

Module FsFacts.
Import TextFacts.

Lemma lookup_app (p : string) (a b : Fs.t) :
  Fs.lookup p (a ++ b)
  = match Fs.lookup p a with Some f => Some f | None => Fs.lookup p b end.
Proof.
  unfold Fs.lookup. induction a as [|e a IH]; simpl; [reflexivity|].
  destruct (String.eqb (fst e) p); [reflexivity|exact IH].
Qed.

Lemma lookup_erase_same (p : string) (fs : Fs.t) :
  Fs.lookup p (Fs.erase p fs) = None.
Proof.
  unfold Fs.lookup, Fs.erase. induction fs as [|e fs IH]; simpl; [reflexivity|].
  destruct (String.eqb (fst e) p) eqn:E; simpl; [exact IH|].
  rewrite E. exact IH.
Qed.

Lemma lookup_erase_other (p q : string) (fs : Fs.t) :
  q <> p -> Fs.lookup q (Fs.erase p fs) = Fs.lookup q fs.
Proof.
  intros Hne. unfold Fs.lookup, Fs.erase.
  induction fs as [|e fs IH]; simpl; [reflexivity|].
  destruct (String.eqb (fst e) p) eqn:E; simpl.
  - apply String.eqb_eq in E.
    replace (String.eqb (fst e) q) with false
      by (symmetry; apply String.eqb_neq; congruence).
    exact IH.
  - destruct (String.eqb (fst e) q); [reflexivity|exact IH].
Qed.

Lemma lookup_put_same (p : string) (f : Fs.file) (fs : Fs.t) :
  Fs.lookup p (Fs.put p f fs) = Some f.
Proof.
  unfold Fs.put. rewrite lookup_app, lookup_erase_same.
  unfold Fs.lookup. simpl. rewrite String.eqb_refl. reflexivity.
Qed.

Lemma lookup_put_other (p q : string) (f : Fs.file) (fs : Fs.t) :
  q <> p -> Fs.lookup q (Fs.put p f fs) = Fs.lookup q fs.
Proof.
  intros Hne. unfold Fs.put. rewrite lookup_app, lookup_erase_other by exact Hne.
  destruct (Fs.lookup q fs); [reflexivity|].
  unfold Fs.lookup. simpl.
  replace (String.eqb p q) with false
    by (symmetry; apply String.eqb_neq; congruence).
  reflexivity.
Qed.

Lemma lookup_In (p : string) (f : Fs.file) (fs : Fs.t) :
  Fs.lookup p fs = Some f -> In (p, f) fs.
Proof.
  unfold Fs.lookup. destruct (find _ fs) as [e|] eqn:E; [|discriminate].
  intros H. injection H as <-. apply find_some in E. destruct E as [Hin He].
  apply String.eqb_eq in He. subst p. destruct e; exact Hin.
Qed.

Lemma lookup_None_not_In (p : string) (fs : Fs.t) :
  Fs.lookup p fs = None -> ~ In p (map fst fs).
Proof.
  unfold Fs.lookup. induction fs as [|e fs IH]; cbn; [tauto|].
  destruct (String.eqb (fst e) p) eqn:E; [discriminate|].
  apply String.eqb_neq in E. intros H [Heq | Hin]; [contradiction|].
  exact (IH H Hin).
Qed.

Lemma NoDup_lookup (p : string) (f : Fs.file) (fs : Fs.t) :
  NoDup (map fst fs) -> In (p, f) fs -> Fs.lookup p fs = Some f.
Proof.
  unfold Fs.lookup. induction fs as [|e fs IH]; simpl; intros Hnd Hin; [contradiction|].
  inversion Hnd as [|? ? Hnotin Hnd']; subst.
  destruct Hin as [-> | Hin].
  - simpl. rewrite String.eqb_refl. reflexivity.
  - destruct (String.eqb (fst e) p) eqn:E.
    + apply String.eqb_eq in E. exfalso. apply Hnotin. rewrite E.
      change p with (fst (p, f)). apply in_map. exact Hin.
    + apply IH; assumption.
Qed.

Lemma In_erase (e : string * Fs.file) (p : string) (fs : Fs.t) :
  In e (Fs.erase p fs) <-> In e fs /\ fst e <> p.
Proof.
  unfold Fs.erase. rewrite filter_In, negb_true_iff, String.eqb_neq. reflexivity.
Qed.

Lemma erase_put_same (p : string) (f : Fs.file) (fs : Fs.t) :
  Fs.erase p (Fs.put p f fs) = Fs.erase p fs.
Proof.
  unfold Fs.put, Fs.erase. rewrite filter_app. simpl.
  rewrite String.eqb_refl. simpl. rewrite app_nil_r.
  induction fs as [|e fs IH]; simpl; [reflexivity|].
  destruct (negb (String.eqb (fst e) p)) eqn:E; simpl; [|exact IH].
  rewrite E, IH. reflexivity.
Qed.

(** The files an atomic write of [f] to [p] leaves: [f] at [p], nothing
    at the side file [p.tmp], and the other files as they were. *)
Lemma In_written (p : string) (f : Fs.file) (fs : Fs.t) (x : string * Fs.file) :
  In x (Fs.put p f (Fs.erase (p ++ ".tmp") (Fs.put (p ++ ".tmp") f fs)))
  <-> x = (p, f)
      \/ (In x fs /\ fst x <> p /\ fst x <> (p ++ ".tmp")%string).
Proof.
  rewrite erase_put_same. unfold Fs.put. rewrite in_app_iff, !In_erase.
  simpl. intuition.
Qed.

Lemma child_name_path (dir p n : string) :
  Fs.child_name dir p = Some n -> p = (dir ++ "/" ++ n)%string.
Proof.
  unfold Fs.child_name.
  destruct (strip_prefix (dir ++ "/") p) as [r|] eqn:E; [|discriminate].
  apply strip_prefix_spec in E. rewrite append_assoc in E.
  destruct r as [|c r]; [discriminate|].
  destruct (has_char "/" (String c r)); [discriminate|].
  intros H. injection H as <-. exact E.
Qed.

Lemma In_entries (dir : string) (fs : Fs.t) (e : Fs.directory_entry) :
  In e (Fs.entries dir fs) <->
  exists f, In (Fs.path e, f) fs
            /\ Fs.child_name dir (Fs.path e) = Some (Fs.filename e)
            /\ Fs.entry_status e = Fs.status f.
Proof.
  induction fs as [|[p f] fs IH]; simpl.
  - split; [contradiction|]. intros (f & [] & _).
  - unfold Fs.entry_of at 1. simpl.
    destruct (Fs.child_name dir p) as [n|] eqn:E; simpl; rewrite IH; split.
    + intros [<- | (f' & Hin & H)]; simpl; [exists f; auto | exists f'; tauto].
    + intros (f' & [Heq | Hin] & Hc & Hs).
      * injection Heq as -> ->. left. destruct e as [ep en es]; simpl in *.
        congruence.
      * right. exists f'. auto.
    + intros (f' & Hin & H). exists f'. tauto.
    + intros (f' & [Heq | Hin] & Hc & Hs).
      * injection Heq as -> ->. congruence.
      * exists f'. auto.
Qed.

Lemma entries_erase (dir p : string) (fs : Fs.t) :
  Fs.entries dir (Fs.erase p fs)
  = filter (fun e => negb (String.eqb (Fs.path e) p)) (Fs.entries dir fs).
Proof.
  induction fs as [|[q f] fs IH]; simpl; [reflexivity|].
  destruct (String.eqb q p) eqn:E; simpl.
  - unfold Fs.entry_of. simpl. destruct (Fs.child_name dir q); simpl.
    + rewrite E. exact IH.
    + exact IH.
  - unfold Fs.entry_of. simpl. destruct (Fs.child_name dir q); simpl.
    + rewrite E. simpl. rewrite IH. reflexivity.
    + exact IH.
Qed.

Lemma entry_path (config : CacheConfigStatic) (fs : Fs.t)
  (e : Fs.directory_entry) :
  In e (Fs.entries (dump_directory config) fs) ->
  Fs.path e = FilenameToPath (Fs.filename e) config.
Proof.
  intros H. apply In_entries in H. destruct H as (f & _ & Hc & _).
  apply child_name_path in Hc. exact Hc.
Qed.

End FsFacts.

(* ================================================================= *)
(** * Facts: dump paths *)

Module PathFacts.
Import TextFacts NamingFacts.

Lemma GenerateDumpPath_filename (t : TimePoint) (config : CacheConfigStatic) :
  GenerateDumpPath t config
  = FilenameToPath (dump_filename t (dump_format_version config)) config.
Proof.
  unfold GenerateDumpPath, FilenameToPath, dump_filename, Timestring.
  rewrite (format_civil_app _ (String _ _)). reflexivity.
Qed.

Lemma FilenameToPath_inj (config : CacheConfigStatic) (a b : string) :
  FilenameToPath a config = FilenameToPath b config -> a = b.
Proof.
  unfold FilenameToPath. intros H.
  apply append_inv_head in H. injection H as H. exact H.
Qed.

Lemma GenerateDumpPath_inj (config : CacheConfigStatic) (t1 t2 : TimePoint) :
  in_clock_range t1 -> in_clock_range t2 ->
  GenerateDumpPath t1 config = GenerateDumpPath t2 config -> t1 = t2.
Proof.
  intros H1 H2 H. rewrite !GenerateDumpPath_filename in H.
  apply FilenameToPath_inj in H.
  pose proof (regex_match_dump_filename t1 (dump_format_version config) H1) as R1.
  pose proof (regex_match_dump_filename t2 (dump_format_version config) H2) as R2.
  rewrite H in R1. rewrite R1 in R2. injection R2 as R2.
  pose proof (Stringtime_Timestring t1 H1) as S1.
  pose proof (Stringtime_Timestring t2 H2) as S2.
  rewrite R2 in S1. rewrite S1 in S2. injection S2 as S2.
  rewrite !ChronoFacts.to_system_time_exact in S2 by assumption. lia.
Qed.

End PathFacts.

(* ================================================================= *)
(** * Facts: running the selection loop *)

Module RunFacts.
Import FsFacts ChronoFacts.

Lemma only_logs_refl (w : World) : only_logs w w.
Proof. split; reflexivity. Qed.

Lemma only_logs_trans (w1 w2 w3 : World) :
  only_logs w1 w2 -> only_logs w2 w3 -> only_logs w1 w3.
Proof. unfold only_logs. intros [] []. split; congruence. Qed.

Lemma LOG_run (level : LogLevel) (text : string) (w : World) :
  exists w', LOG level text w = (Ok tt, w') /\ only_logs w w'
             /\ log w' = log w ++ [(level, text)].
Proof. eexists. split; [reflexivity|]. split; [split|]; reflexivity. Qed.

Lemma ParseDumpName_run (filename : string) (w : World) :
  exists w', ParseDumpName filename w = (Ok (parse_dump_name filename), w')
             /\ only_logs w w'.
Proof.
  unfold ParseDumpName, parse_dump_name.
  destruct (regex_match filename filename_regex_) as [[cap1 cap2]|].
  - destruct (decode_dump_name filename cap1 cap2).
    + eexists. split; [reflexivity|apply only_logs_refl].
    + eexists. split; [reflexivity|]. split; reflexivity.
  - eexists. split; [reflexivity|apply only_logs_refl].
Qed.

Lemma ParseDumpName_parsed (filename : string) (p : ParsedDumpName.t)
  (w : World) :
  parse_dump_name filename = Some p ->
  ParseDumpName filename w = (Ok (Some p), w).
Proof.
  unfold ParseDumpName, parse_dump_name.
  destruct (regex_match filename filename_regex_) as [[cap1 cap2]|];
    [|discriminate].
  destruct (decode_dump_name filename cap1 cap2); [|discriminate].
  intros H. injection H as ->. reflexivity.
Qed.

Lemma parse_dump_name_filename (name : string) (d : ParsedDumpName.t) :
  parse_dump_name name = Some d -> ParsedDumpName.filename d = name.
Proof.
  unfold parse_dump_name, decode_dump_name.
  destruct (regex_match name filename_regex_) as [[cap1 cap2]|]; [|discriminate].
  destruct (Stringtime cap1); [|discriminate].
  destruct (FromString_uint64 cap2); [|discriminate].
  intros H. injection H as <-. reflexivity.
Qed.

(** Selection loop *)

Lemma latest_round_run (config : CacheConfigStatic) (min_update_time : TimePoint)
  (file : Fs.directory_entry) (best_dump : option ParsedDumpName.t) (w : World) :
  exists w',
    latest_round config min_update_time file best_dump w
    = (Ok (pick config min_update_time best_dump file), w')
    /\ only_logs w w'.
Proof.
  unfold latest_round, pick.
  destruct (negb (Fs.is_regular_file (Fs.entry_status file))).
  { eexists. split; [reflexivity|apply only_logs_refl]. }
  unfold bind.
  destruct (ParseDumpName_run (Fs.filename file) w) as (w1 & -> & H1).
  destruct (parse_dump_name (Fs.filename file)) as [curr|].
  2:{ eexists. split; [reflexivity|exact H1]. }
  destruct (negb (ParsedDumpName.format_version curr =? dump_format_version config)).
  { eexists. split; [reflexivity|]. destruct H1. split; assumption. }
  destruct ((ParsedDumpName.update_time curr <? min_update_time)
            && match max_dump_age config with Some _ => true | None => false end).
  { eexists. split; [reflexivity|]. destruct H1. split; assumption. }
  destruct best_dump as [best|].
  - destruct (ParsedDumpName.update_time best <? ParsedDumpName.update_time curr);
      eexists; (split; [reflexivity|exact H1]).
  - eexists. split; [reflexivity|exact H1].
Qed.

Lemma for_each_latest (config : CacheConfigStatic) (min_update_time : TimePoint)
  (l : list Fs.directory_entry) :
  forall (best_dump : option ParsedDumpName.t) (w : World),
  exists w',
    for_each l (latest_round config min_update_time) best_dump w
    = ((fold_left (pick config min_update_time) l best_dump, None), w')
    /\ only_logs w w'.
Proof.
  induction l as [|file l IH]; intros best_dump w; simpl.
  - eexists. split; [reflexivity|apply only_logs_refl].
  - destruct (latest_round_run config min_update_time file best_dump w)
      as (w1 & -> & H1).
    destruct (IH (pick config min_update_time best_dump file) w1)
      as (w2 & -> & H2).
    eexists. split; [reflexivity|]. eapply only_logs_trans; eassumption.
Qed.

Lemma GetLatestDumpNameBlocking_run (env : Env) (config : CacheConfigStatic)
  (w : World) :
  exists w',
    GetLatestDumpNameBlocking env config w
    = (Ok (option_map ParsedDumpName.filename
             (fold_left (pick config (MinAcceptableUpdateTime env config))
                (walked env (dump_directory config) (files w)) None)), w')
    /\ only_logs w w'.
Proof.
  unfold GetLatestDumpNameBlocking, for_directory, walked.
  destruct (iterate_fault env (dump_directory config)) as [[n what]|].
  - destruct (for_each_latest config (MinAcceptableUpdateTime env config)
                (firstn n (Fs.entries (dump_directory config) (files w))) None w)
      as (w1 & -> & H1).
    cbn. eexists. split; [reflexivity|]. destruct H1. split; assumption.
  - destruct (for_each_latest config (MinAcceptableUpdateTime env config)
                (Fs.entries (dump_directory config) (files w)) None w)
      as (w1 & -> & H1).
    eexists. split; [reflexivity|exact H1].
Qed.

(** The candidate an entry contributes on its own. *)
Lemma pick_candidate (config : CacheConfigStatic) (min_update_time : TimePoint)
  (best_dump : option ParsedDumpName.t) (file : Fs.directory_entry) :
  pick config min_update_time best_dump file
  = match pick config min_update_time None file with
    | None => best_dump
    | Some curr =>
        match best_dump with
        | None => Some curr
        | Some best =>
            if ParsedDumpName.update_time best <? ParsedDumpName.update_time curr
            then Some curr else best_dump
        end
    end.
Proof.
  unfold pick.
  destruct (negb (Fs.is_regular_file (Fs.entry_status file))); [reflexivity|].
  destruct (parse_dump_name (Fs.filename file)) as [curr|]; [|reflexivity].
  destruct (negb (ParsedDumpName.format_version curr =? dump_format_version config));
    [reflexivity|].
  destruct ((ParsedDumpName.update_time curr <? min_update_time)
            && match max_dump_age config with Some _ => true | None => false end);
    reflexivity.
Qed.

(** A candidate of the selection loop is a usable dump.  The converse
    needs the age limit to be computed without overflow: otherwise the
    limit of the loop is later than [Round(now) - max_dump_age] and the
    loop passes over usable dumps older than its limit. *)
Lemma candidate_usable (env : Env) (config : CacheConfigStatic)
  (file : Fs.directory_entry) (d : ParsedDumpName.t) :
  pick config (MinAcceptableUpdateTime env config) None file = Some d ->
  usable (Now env) config file d.
Proof.
  unfold pick, usable, is_dump, not_expired.
  destruct (Fs.is_regular_file (Fs.entry_status file)); cbn [negb];
    [|discriminate].
  destruct (parse_dump_name (Fs.filename file)) as [curr|]; [|discriminate].
  destruct (ParsedDumpName.format_version curr =? dump_format_version config) eqn:Ev;
    cbn [negb]; [|discriminate].
  apply Z.eqb_eq in Ev.
  destruct (max_dump_age config) as [age|] eqn:Ea.
  - rewrite andb_true_r.
    destruct (ParsedDumpName.update_time curr
              <? MinAcceptableUpdateTime env config) eqn:Et; [discriminate|].
    apply Z.ltb_ge in Et. intros H. injection H as <-. repeat split; auto.
    intros bound Hb. pose proof (min_accept_below env config bound Hb). lia.
  - rewrite andb_false_r. intros H. injection H as <-. repeat split; auto.
    unfold min_accept. rewrite Ea. discriminate.
Qed.

Lemma usable_candidate_or_older (env : Env) (config : CacheConfigStatic)
  (file : Fs.directory_entry) (d : ParsedDumpName.t) :
  usable (Now env) config file d ->
  pick config (MinAcceptableUpdateTime env config) None file = Some d
  \/ (max_dump_age config <> None
      /\ ParsedDumpName.update_time d < MinAcceptableUpdateTime env config).
Proof.
  unfold pick, usable, is_dump. intros [[Hreg Hp] [Hv _]].
  rewrite Hreg, Hp. cbn [negb].
  replace (ParsedDumpName.format_version d =? dump_format_version config)
    with true by (symmetry; apply Z.eqb_eq; exact Hv).
  cbn [negb].
  destruct (max_dump_age config) as [age|].
  - rewrite andb_true_r.
    destruct (ParsedDumpName.update_time d
              <? MinAcceptableUpdateTime env config) eqn:Et.
    + right. apply Z.ltb_lt in Et. split; [discriminate|exact Et].
    + left. reflexivity.
  - rewrite andb_false_r. left. reflexivity.
Qed.

Lemma usable_candidate (env : Env) (config : CacheConfigStatic)
  (file : Fs.directory_entry) (d : ParsedDumpName.t) :
  age_limit_fits (Now env) config ->
  usable (Now env) config file d ->
  pick config (MinAcceptableUpdateTime env config) None file = Some d.
Proof.
  intros Hfit Hu.
  destruct (usable_candidate_or_older env config file d Hu) as [H | [Ha Hlt]];
    [exact H|].
  exfalso. destruct Hu as (_ & _ & Hn).
  destruct (min_accept (Now env) config) as [bound|] eqn:Eb.
  - rewrite (min_accept_exact env config bound Hfit Eb) in Hlt.
    specialize (Hn _ Eb). lia.
  - unfold min_accept in Eb. destruct (max_dump_age config); congruence.
Qed.

Lemma candidate_not_before_limit (env : Env) (config : CacheConfigStatic)
  (file : Fs.directory_entry) (d : ParsedDumpName.t) :
  pick config (MinAcceptableUpdateTime env config) None file = Some d ->
  max_dump_age config <> None ->
  MinAcceptableUpdateTime env config <= ParsedDumpName.update_time d.
Proof.
  unfold pick.
  destruct (negb (Fs.is_regular_file (Fs.entry_status file))); [discriminate|].
  destruct (parse_dump_name (Fs.filename file)) as [curr|]; [|discriminate].
  destruct (negb (ParsedDumpName.format_version curr
                  =? dump_format_version config)); [discriminate|].
  destruct (max_dump_age config) as [age|]; [|congruence].
  rewrite andb_true_r.
  destruct (ParsedDumpName.update_time curr
            <? MinAcceptableUpdateTime env config) eqn:Et; [discriminate|].
  apply Z.ltb_ge in Et. intros H _. injection H as <-. exact Et.
Qed.

Lemma fold_pick_spec (config : CacheConfigStatic) (min_update_time : TimePoint)
  (l : list Fs.directory_entry) :
  forall best_dump : option ParsedDumpName.t,
  match fold_left (pick config min_update_time) l best_dump with
  | None =>
      best_dump = None
      /\ forall e, In e l -> pick config min_update_time None e = None
  | Some d =>
      (best_dump = Some d
       \/ exists e, In e l /\ pick config min_update_time None e = Some d)
      /\ (forall b, best_dump = Some b ->
                    ParsedDumpName.update_time b <= ParsedDumpName.update_time d)
      /\ (forall e d', In e l -> pick config min_update_time None e = Some d' ->
                       ParsedDumpName.update_time d' <= ParsedDumpName.update_time d)
  end.
Proof.
  induction l as [|file l IH]; intros best_dump; simpl.
  - destruct best_dump as [b|].
    + split; [left; reflexivity|]. split.
      * intros b' H. injection H as <-. lia.
      * intros e d' [].
    + split; [reflexivity|]. intros e [].
  - specialize (IH (pick config min_update_time best_dump file)).
    rewrite (pick_candidate config min_update_time best_dump file) in IH |- *.
    destruct (fold_left _ l _) as [d|].
    + destruct IH as (Hsrc & Hbest & Hall).
      destruct (pick config min_update_time None file) as [curr|] eqn:Ec.
      * destruct best_dump as [best|].
        -- destruct (ParsedDumpName.update_time best <? ParsedDumpName.update_time curr) eqn:Et;
             [apply Z.ltb_lt in Et | apply Z.ltb_ge in Et].
           ++ specialize (Hbest _ eq_refl). split; [|split].
              ** destruct Hsrc as [H | (e & He & Hp)].
                 --- injection H as <-. right. exists file. auto.
                 --- right. exists e. auto.
              ** intros b H. injection H as <-. lia.
              ** intros e d' [<- | He] Hp.
                 --- rewrite Ec in Hp. injection Hp as <-. exact Hbest.
                 --- eapply Hall; eassumption.
           ++ specialize (Hbest _ eq_refl). split; [|split].
              ** destruct Hsrc as [H | (e & He & Hp)].
                 --- left. exact H.
                 --- right. exists e. auto.
              ** intros b H. injection H as <-. exact Hbest.
              ** intros e d' [<- | He] Hp.
                 --- rewrite Ec in Hp. injection Hp as <-. lia.
                 --- eapply Hall; eassumption.
        -- specialize (Hbest _ eq_refl). split; [|split].
           ++ destruct Hsrc as [H | (e & He & Hp)].
              ** injection H as <-. right. exists file. auto.
              ** right. exists e. auto.
           ++ discriminate.
           ++ intros e d' [<- | He] Hp.
              ** rewrite Ec in Hp. injection Hp as <-. exact Hbest.
              ** eapply Hall; eassumption.
      * split; [|split].
        -- destruct Hsrc as [H | (e & He & Hp)]; [left; exact H|].
           right. exists e. auto.
        -- exact Hbest.
        -- intros e d' [<- | He] Hp; [congruence|]. eapply Hall; eassumption.
    + destruct IH as (Hnone & Hall).
      destruct (pick config min_update_time None file) as [curr|] eqn:Ec.
      * destruct best_dump as [best|]; [|discriminate].
        destruct (ParsedDumpName.update_time best <? ParsedDumpName.update_time curr);
          discriminate.
      * split; [exact Hnone|]. intros e [<- | He]; [exact Ec|]. apply Hall; exact He.
Qed.

Lemma ReadLatestDump_total (env : Env) (w : World) :
  exists r w', ReadLatestDump env w = (Ok r, w') /\ only_logs w w'.
Proof.
  unfold ReadLatestDump, bind, Read_config, try_catch, GetLatestDumpName.
  destruct (GetLatestDumpNameBlocking_run env (config_ w) w) as (w1 & -> & H1).
  set (best := fold_left _ _ None).
  pose proof (fold_pick_spec (config_ w) (MinAcceptableUpdateTime env (config_ w))
                (walked env (dump_directory (config_ w)) (files w)) None) as Hb.
  fold best in Hb.
  destruct best as [d|]; cbn [option_map].
  2:{ cbn. do 2 eexists. split; [reflexivity|]. destruct H1; split; assumption. }
  destruct Hb as ([Hb | (e & _ & Hp)] & _); [discriminate|].
  assert (Hparse : parse_dump_name (ParsedDumpName.filename d) = Some d).
  { apply candidate_usable in Hp. destruct Hp as [[_ Hp] _].
    rewrite (parse_dump_name_filename _ _ Hp). exact Hp. }
  cbn. unfold ReadFileContents.
  destruct (read_fault env _) as [what|].
  { cbn. do 2 eexists. split; [reflexivity|]. destruct H1; split; assumption. }
  cbn.
  destruct (Fs.lookup _ (files w1)) as [f|].
  2:{ cbn. do 2 eexists. split; [reflexivity|]. destruct H1; split; assumption. }
  destruct (Fs.is_regular_file (Fs.status f)).
  2:{ cbn. do 2 eexists. split; [reflexivity|]. destruct H1; split; assumption. }
  cbn.
  match goal with |- context [ParseDumpName ?n ?w0] =>
    destruct (ParseDumpName_run n w0) as (w2 & -> & H2) end.
  rewrite Hparse. cbn.
  do 2 eexists. split; [reflexivity|].
  destruct H1, H2; split; cbn in *; congruence.
Qed.

End RunFacts.

(* ================================================================= *)
(** * Facts: running the retention loops *)

Module SweepFacts.
Import RunFacts.

Lemma remove_run (env : Env) (path : string) (w : World) :
  match remove_fault env path with
  | Some what => remove env path w = (Throw (filesystem_error what), w)
  | None =>
      exists b w', remove env path w = (Ok b, w')
                   /\ files w' = Fs.erase path (files w)
                   /\ config_ w' = config_ w /\ log w' = log w
  end.
Proof.
  unfold remove. destruct (remove_fault env path) as [what|]; [reflexivity|].
  do 2 eexists. split; [reflexivity|]. repeat split; reflexivity.
Qed.

Lemma cleanup_round_run (env : Env) (config : CacheConfigStatic)
  (min_update_time : TimePoint) (file : Fs.directory_entry)
  (dumps : list ParsedDumpName.t) (w : World) :
  exists r w',
    cleanup_round env config min_update_time file dumps w = (r, w')
    /\ config_ w' = config_ w
    /\ match treat config min_update_time file with
       | Removed =>
           match remove_fault env (Fs.path file) with
           | Some what => r = Throw (filesystem_error what) /\ files w' = files w
           | None => r = Ok dumps
                     /\ files w' = Fs.erase (Fs.path file) (files w)
           end
       | Kept d => r = Ok (dumps ++ [d]) /\ files w' = files w
       | Skipped => r = Ok dumps /\ files w' = files w
       end.
Proof.
  unfold cleanup_round, treat.
  destruct (negb (Fs.is_regular_file (Fs.entry_status file))).
  { do 2 eexists. split; [reflexivity|]. repeat split; reflexivity. }
  destruct (regex_match (Fs.filename file) tmp_filename_regex_) as [caps|].
  { unfold bind at 1. cbn [LOG].
    match goal with |- context [bind (remove env ?p) ?k ?w0] =>
      unfold bind; pose proof (remove_run env p w0) as Hr end.
    destruct (remove_fault env (Fs.path file)) as [what|].
    - rewrite Hr. do 2 eexists. split; [reflexivity|]. repeat split; reflexivity.
    - destruct Hr as (b & w1 & -> & Hf & Hc & _).
      do 2 eexists. split; [reflexivity|]. cbn [files config_ log fst snd] in *. repeat split; assumption. }
  unfold bind at 1.
  destruct (ParseDumpName_run (Fs.filename file) w) as (w1 & -> & [Hf1 Hc1]).
  destruct (parse_dump_name (Fs.filename file)) as [dump|].
  2:{ do 2 eexists. split; [reflexivity|]. repeat split; assumption. }
  destruct ((ParsedDumpName.format_version dump <? dump_format_version config)
            || (ParsedDumpName.update_time dump <? min_update_time)).
  { unfold bind at 1. cbn [LOG].
    match goal with |- context [bind (remove env ?p) ?k ?w0] =>
      unfold bind; pose proof (remove_run env p w0) as Hr end.
    destruct (remove_fault env (Fs.path file)) as [what|].
    - rewrite Hr. do 2 eexists. split; [reflexivity|]. cbn. repeat split; assumption.
    - destruct Hr as (b & w2 & -> & Hf & Hc & _).
      do 2 eexists. split; [reflexivity|]. cbn [files config_ log fst snd] in *. repeat split; congruence. }
  destruct (ParsedDumpName.format_version dump =? dump_format_version config);
    do 2 eexists; (split; [reflexivity|]); repeat split; assumption.
Qed.

Lemma for_each_sweep (env : Env) (config : CacheConfigStatic)
  (min_update_time : TimePoint) (l : list Fs.directory_entry) :
  forall (dumps : list ParsedDumpName.t) (w : World),
  exists w',
    for_each l (cleanup_round env config min_update_time) dumps w
    = (fst (sweep env config min_update_time l dumps (files w)), w')
    /\ files w' = snd (sweep env config min_update_time l dumps (files w))
    /\ config_ w' = config_ w.
Proof.
  induction l as [|file l IH]; intros dumps w; simpl.
  - eexists. split; [reflexivity|]. split; reflexivity.
  - destruct (cleanup_round_run env config min_update_time file dumps w)
      as (r & w1 & -> & Hc & Hr).
    destruct (treat config min_update_time file) as [|d|].
    + destruct (remove_fault env (Fs.path file)) as [what|].
      * destruct Hr as [-> Hf]. eexists. split; [reflexivity|]. split; assumption.
      * destruct Hr as [-> Hf].
        destruct (IH dumps w1) as (w2 & -> & Hf2 & Hc2).
        rewrite Hf in *. eexists. split; [reflexivity|]. split; congruence.
    + destruct Hr as [-> Hf].
      destruct (IH (dumps ++ [d]) w1) as (w2 & -> & Hf2 & Hc2).
      rewrite Hf in *. eexists. split; [reflexivity|]. split; congruence.
    + destruct Hr as [-> Hf].
      destruct (IH dumps w1) as (w2 & -> & Hf2 & Hc2).
      rewrite Hf in *. eexists. split; [reflexivity|]. split; congruence.
Qed.

Lemma for_each_trim (env : Env) (config : CacheConfigStatic)
  (l : list ParsedDumpName.t) :
  forall w : World,
  exists w',
    for_each l (remove_excess env config) tt w
    = ((tt, fst (trim env config l (files w))), w')
    /\ files w' = snd (trim env config l (files w))
    /\ config_ w' = config_ w.
Proof.
  induction l as [|d l IH]; intros w; simpl.
  - eexists. split; [reflexivity|]. split; reflexivity.
  - unfold remove_excess at 1. unfold bind at 1. cbn [LOG].
    match goal with |- context [bind (remove env ?p) ?k ?w0] =>
      unfold bind; pose proof (remove_run env p w0) as Hr end.
    destruct (remove_fault env _) as [what|].
    + rewrite Hr. eexists. split; [reflexivity|]. split; reflexivity.
    + destruct Hr as (b & w1 & -> & Hf & Hc & _). cbn [files config_ log fst snd] in Hf, Hc. cbn [ret].
      destruct (IH w1) as (w2 & -> & Hf2 & Hc2).
      rewrite Hf in *. eexists. split; [reflexivity|]. split; congruence.
Qed.

Lemma sweep_filesystem_error (env : Env) (config : CacheConfigStatic)
  (min_update_time : TimePoint) (l : list Fs.directory_entry) :
  forall dumps fs ex,
  snd (fst (sweep env config min_update_time l dumps fs)) = Some ex ->
  is_std_exception ex = true.
Proof.
  induction l as [|file l IH]; intros dumps fs ex; simpl; [discriminate|].
  destruct (treat config min_update_time file); try apply IH.
  destruct (remove_fault env (Fs.path file)); [|apply IH].
  simpl. intros H. injection H as <-. reflexivity.
Qed.

Lemma trim_filesystem_error (env : Env) (config : CacheConfigStatic)
  (l : list ParsedDumpName.t) :
  forall fs ex,
  fst (trim env config l fs) = Some ex -> is_std_exception ex = true.
Proof.
  induction l as [|d l IH]; intros fs ex; simpl; [discriminate|].
  destruct (remove_fault env _); [|apply IH].
  simpl. intros H. injection H as <-. reflexivity.
Qed.

Lemma CleanupBlocking_run (env : Env) (config : CacheConfigStatic) (w : World) :
  exists w',
    CleanupBlocking env config w = (Ok tt, w')
    /\ files w' = cleanup_files env config (files w)
    /\ config_ w' = config_ w.
Proof.
  unfold CleanupBlocking, cleanup_files, for_directory, walked.
  set (min_update_time := MinAcceptableUpdateTime env config).
  set (all := Fs.entries (dump_directory config) (files w)).
  destruct (iterate_fault env (dump_directory config)) as [[n what]|].
  - destruct (for_each_sweep env config min_update_time (firstn n all) [] w)
      as (w1 & -> & Hf & Hc).
    pose proof (sweep_filesystem_error env config min_update_time (firstn n all) [] (files w)) as Hex.
    destruct (sweep env config min_update_time (firstn n all) [] (files w))
      as [[dumps [ex|]] fs1]; cbn [files config_ log fst snd] in *.
    + unfold cleanup_handler. rewrite (Hex ex eq_refl).
      eexists. split; [reflexivity|]. split; assumption.
    + eexists. split; [reflexivity|]. split; assumption.
  - destruct (for_each_sweep env config min_update_time all [] w)
      as (w1 & -> & Hf & Hc).
    pose proof (sweep_filesystem_error env config min_update_time all [] (files w)) as Hex.
    destruct (sweep env config min_update_time all [] (files w))
      as [[dumps [ex|]] fs1]; cbn [files config_ log fst snd] in *.
    + unfold cleanup_handler. rewrite (Hex ex eq_refl).
      eexists. split; [reflexivity|]. split; assumption.
    + destruct (for_each_trim env config
                  (skipn (max_dump_count config) (sort_newer dumps)) w1)
        as (w2 & -> & Hf2 & Hc2).
      pose proof (trim_filesystem_error env config
                    (skipn (max_dump_count config) (sort_newer dumps)) (files w1)) as Hex2.
      rewrite Hf in *.
      destruct (trim env config _ fs1) as [[ex|] fs2]; cbn [files config_ log fst snd] in *.
      * unfold cleanup_handler. rewrite (Hex2 ex eq_refl).
        eexists. split; [reflexivity|]. split; cbn [files config_ LOG snd]; congruence.
      * eexists. split; [reflexivity|]. split; congruence.
Qed.

Lemma Cleanup_run (env : Env) (w : World) :
  exists w',
    Cleanup env w = (Ok tt, w')
    /\ files w' = cleanup_files env (config_ w) (files w)
    /\ config_ w' = config_ w.
Proof.
  unfold Cleanup, bind, Read_config. apply CleanupBlocking_run.
Qed.

End SweepFacts.

(* ================================================================= *)
(** * Facts: retention on the files alone *)

Module RetentionFacts.
Import CivilFacts TextFacts NamingFacts FsFacts PathFacts RunFacts SweepFacts.

Lemma listed_In (p : string) (paths : list string) :
  listed p paths = true <-> In p paths.
Proof.
  unfold listed. rewrite existsb_exists. split.
  - intros (q & Hq & He). apply String.eqb_eq in He. subst q. exact Hq.
  - intros H. exists p. split; [exact H|apply String.eqb_refl].
Qed.

Lemma In_erase_all (paths : list string) : forall (fs : Fs.t) x,
  In x (erase_all paths fs) <-> In x fs /\ ~ In (fst x) paths.
Proof.
  induction paths as [|p paths IH]; intros fs x; simpl.
  - tauto.
  - unfold erase_all in *. simpl. rewrite IH, In_erase. intuition congruence.
Qed.

Lemma erase_all_app (a b : list string) (fs : Fs.t) :
  erase_all (a ++ b) fs = erase_all b (erase_all a fs).
Proof. unfold erase_all. apply fold_left_app. Qed.

Lemma entries_erase_all (dir : string) (paths : list string) : forall fs,
  Fs.entries dir (erase_all paths fs)
  = filter (fun e => negb (listed (Fs.path e) paths)) (Fs.entries dir fs).
Proof.
  induction paths as [|p paths IH]; intros fs.
  - simpl. symmetry. apply forallb_filter_id. apply forallb_forall. reflexivity.
  - change (erase_all (p :: paths) fs) with (erase_all paths (Fs.erase p fs)).
    rewrite IH, entries_erase.
    induction (Fs.entries dir fs) as [|e l IHl]; simpl; [reflexivity|].
    destruct (String.eqb (Fs.path e) p) eqn:E; simpl.
    + exact IHl.
    + destruct (listed (Fs.path e) paths); simpl; [exact IHl|].
      rewrite IHl. reflexivity.
Qed.

Lemma kept_app (config : CacheConfigStatic) (m : TimePoint)
  (a b : list Fs.directory_entry) :
  kept config m (a ++ b) = kept config m a ++ kept config m b.
Proof. unfold kept. apply flat_map_app. Qed.

Lemma removed_paths_app (config : CacheConfigStatic) (m : TimePoint)
  (a b : list Fs.directory_entry) :
  removed_paths config m (a ++ b)
  = removed_paths config m a ++ removed_paths config m b.
Proof. unfold removed_paths. rewrite filter_app, map_app. reflexivity. Qed.

(** While no removal fails, the loop goes on. *)
Lemma sweep_prefix (env : Env) (config : CacheConfigStatic) (m : TimePoint)
  (pre : list Fs.directory_entry) :
  forall rest dumps fs,
  (forall e, In e pre -> treat config m e = Removed ->
             remove_fault env (Fs.path e) = None) ->
  sweep env config m (pre ++ rest) dumps fs
  = sweep env config m rest (dumps ++ kept config m pre)
      (erase_all (removed_paths config m pre) fs).
Proof.
  induction pre as [|e pre IH]; intros rest dumps fs Hok; simpl.
  - rewrite app_nil_r. reflexivity.
  - unfold removed_paths, kept. simpl.
    destruct (treat config m e) as [|d|] eqn:Et; simpl.
    + rewrite (Hok e (or_introl eq_refl) Et).
      apply IH. intros e' He'. apply Hok. right. exact He'.
    + rewrite IH by (intros e' He'; apply Hok; right; exact He').
      rewrite <- app_assoc. reflexivity.
    + apply IH. intros e' He'. apply Hok. right. exact He'.
Qed.

Lemma sweep_quiet (env : Env) (config : CacheConfigStatic) (m : TimePoint)
  (l : list Fs.directory_entry) (fs : Fs.t) :
  (forall p, remove_fault env p = None) ->
  sweep env config m l [] fs
  = ((kept config m l, None), erase_all (removed_paths config m l) fs).
Proof.
  intros Hq. rewrite <- (app_nil_r l) at 1.
  rewrite sweep_prefix by (intros; apply Hq). reflexivity.
Qed.

Lemma trim_quiet (env : Env) (config : CacheConfigStatic)
  (l : list ParsedDumpName.t) :
  forall fs,
  (forall p, remove_fault env p = None) ->
  trim env config l fs = (None, erase_all (map (dump_path_of config) l) fs).
Proof.
  induction l as [|d l IH]; intros fs Hq; simpl; [reflexivity|].
  rewrite Hq. apply IH. exact Hq.
Qed.

(** Whatever fails, the loops only ever remove. *)
Lemma sweep_outcome (env : Env) (config : CacheConfigStatic) (m : TimePoint)
  (l : list Fs.directory_entry) :
  forall dumps fs,
  exists pre post,
    l = pre ++ post
    /\ fst (fst (sweep env config m l dumps fs)) = dumps ++ kept config m pre
    /\ snd (sweep env config m l dumps fs)
       = erase_all (removed_paths config m pre) fs
    /\ (snd (fst (sweep env config m l dumps fs)) = None -> post = []).
Proof.
  induction l as [|e l IH]; intros dumps fs; simpl.
  - exists [], []. simpl. rewrite app_nil_r. auto.
  - destruct (treat config m e) as [|d|] eqn:Et.
    + destruct (remove_fault env (Fs.path e)) as [what|] eqn:Ef.
      * exists [], (e :: l). simpl. rewrite app_nil_r.
        repeat split; try reflexivity. discriminate.
      * destruct (IH dumps (Fs.erase (Fs.path e) fs)) as (pre & post & -> & Hd & Hf & Hn).
        exists (e :: pre), post. unfold removed_paths, kept in *. simpl.
        rewrite Et. simpl. auto.
    + destruct (IH (dumps ++ [d]) fs) as (pre & post & -> & Hd & Hf & Hn).
      exists (e :: pre), post. unfold removed_paths, kept in *. simpl.
      rewrite Et. simpl. rewrite <- app_assoc in Hd. auto.
    + destruct (IH dumps fs) as (pre & post & -> & Hd & Hf & Hn).
      exists (e :: pre), post. unfold removed_paths, kept in *. simpl.
      rewrite Et. simpl. auto.
Qed.

Lemma trim_outcome (env : Env) (config : CacheConfigStatic)
  (l : list ParsedDumpName.t) :
  forall fs,
  exists pre post,
    l = pre ++ post
    /\ snd (trim env config l fs) = erase_all (map (dump_path_of config) pre) fs.
Proof.
  induction l as [|d l IH]; intros fs; simpl.
  - exists [], []. auto.
  - destruct (remove_fault env _) as [what|].
    + exists [], (d :: l). auto.
    + destruct (IH (Fs.erase (FilenameToPath (ParsedDumpName.filename d) config) fs))
        as (pre & post & -> & Hf).
      exists (d :: pre), post. auto.
Qed.

(** Sorting *)
Lemma insert_newer_perm (a : ParsedDumpName.t) (l : list ParsedDumpName.t) :
  Permutation (a :: l) (insert_newer a l).
Proof.
  induction l as [|b l IH]; simpl; [apply Permutation_refl|].
  destruct (newer b a); [|apply Permutation_refl].
  eapply perm_trans; [apply perm_swap|]. apply perm_skip. exact IH.
Qed.

Lemma sort_newer_perm (l : list ParsedDumpName.t) :
  Permutation l (sort_newer l).
Proof.
  induction l as [|a l IH]; simpl; [apply perm_nil|].
  eapply perm_trans; [apply perm_skip; exact IH|]. apply insert_newer_perm.
Qed.

Lemma filter_length_perm {A} (f : A -> bool) (l l' : list A) :
  Permutation l l' -> List.length (filter f l) = List.length (filter f l').
Proof.
  induction 1; simpl; try congruence.
  - destruct (f x); simpl; congruence.
  - destruct (f x), (f y); reflexivity.
Qed.

Lemma filter_length_mono {A} (f g : A -> bool) (l : list A) :
  (forall x, In x l -> f x = true -> g x = true) ->
  (List.length (filter f l) <= List.length (filter g l))%nat.
Proof.
  induction l as [|x l IH]; intros H; simpl; [lia|].
  assert (IH' := IH (fun y Hy => H y (or_intror Hy))).
  destruct (f x) eqn:Ef.
  - rewrite (H x (or_introl eq_refl) Ef). simpl. lia.
  - destruct (g x); simpl; lia.
Qed.

(** Treatment of an entry *)
Lemma treat_Kept (config : CacheConfigStatic) (m : TimePoint)
  (e : Fs.directory_entry) (d : ParsedDumpName.t) :
  treat config m e = Kept d ->
  is_dump e d /\ ParsedDumpName.format_version d = dump_format_version config
  /\ m <= ParsedDumpName.update_time d.
Proof.
  unfold treat, is_dump.
  destruct (Fs.is_regular_file (Fs.entry_status e)); cbn [negb]; [|discriminate].
  destruct (regex_match _ tmp_filename_regex_); [discriminate|].
  destruct (parse_dump_name (Fs.filename e)) as [dump|]; [|discriminate].
  destruct (ParsedDumpName.format_version dump <? dump_format_version config) eqn:E1;
    cbn [orb]; [discriminate|].
  destruct (ParsedDumpName.update_time dump <? m) eqn:E2; [discriminate|].
  destruct (ParsedDumpName.format_version dump =? dump_format_version config) eqn:E3;
    [|discriminate].
  intros H. injection H as <-. apply Z.ltb_ge in E2. apply Z.eqb_eq in E3. auto.
Qed.

Lemma treat_not_Removed (config : CacheConfigStatic) (m : TimePoint)
  (e : Fs.directory_entry) :
  treat config m e <> Removed ->
  Fs.is_regular_file (Fs.entry_status e) = true ->
  regex_match (Fs.filename e) tmp_filename_regex_ = None
  /\ forall d, parse_dump_name (Fs.filename e) = Some d ->
       dump_format_version config <= ParsedDumpName.format_version d
       /\ m <= ParsedDumpName.update_time d
       /\ (ParsedDumpName.format_version d = dump_format_version config ->
           treat config m e = Kept d).
Proof.
  unfold treat. intros H Hreg. rewrite Hreg in *. cbn [negb] in *.
  destruct (regex_match _ tmp_filename_regex_); [congruence|].
  split; [reflexivity|]. intros d Hd. rewrite Hd in *.
  destruct (ParsedDumpName.format_version d <? dump_format_version config) eqn:E1;
    cbn [orb] in *; [congruence|].
  destruct (ParsedDumpName.update_time d <? m) eqn:E2; [congruence|].
  apply Z.ltb_ge in E1, E2. repeat split; try assumption.
  intros ->. rewrite Z.eqb_refl. reflexivity.
Qed.

Lemma removed_paths_In (config : CacheConfigStatic) (m : TimePoint)
  (l : list Fs.directory_entry) (e : Fs.directory_entry) :
  In e l -> treat config m e = Removed -> In (Fs.path e) (removed_paths config m l).
Proof.
  intros He Ht. unfold removed_paths. apply in_map. apply filter_In.
  split; [exact He|]. rewrite Ht. reflexivity.
Qed.

Lemma kept_In (config : CacheConfigStatic) (m : TimePoint)
  (l : list Fs.directory_entry) (d : ParsedDumpName.t) :
  In d (kept config m l) <-> exists e, In e l /\ treat config m e = Kept d.
Proof.
  unfold kept. rewrite in_flat_map. split.
  - intros (e & He & Hd). exists e. split; [exact He|].
    destruct (treat config m e) as [|d'|]; simpl in Hd; try contradiction.
    destruct Hd as [-> | []]. reflexivity.
  - intros (e & He & Ht). exists e. split; [exact He|]. rewrite Ht. left. reflexivity.
Qed.

Lemma min_accept_bound (env : Env) (config : CacheConfigStatic) (bound : TimePoint) :
  age_limit_fits (Now env) config ->
  min_accept (Now env) config = Some bound ->
  MinAcceptableUpdateTime env config = bound.
Proof. apply ChronoFacts.min_accept_exact. Qed.

Lemma kept_count (config : CacheConfigStatic) (m : TimePoint)
  (all : list Fs.directory_entry) (fs : Fs.t) (paths : list string) :
  all = Fs.entries (dump_directory config) fs ->
  forall l, (forall e, In e l -> In e all) ->
  (List.length
     (filter (fun e => negb (listed (Fs.path e) (removed_paths config m all))
                       && (negb (listed (Fs.path e) paths)
                           && is_current config e)) l)
   <= List.length
        (filter (fun d => negb (listed (dump_path_of config d) paths))
           (kept config m l)))%nat.
Proof.
  intros Hall. induction l as [|e l IH]; intros Hl; [simpl; lia|].
  assert (IH' := IH (fun x Hx => Hl x (or_intror Hx))).
  cbn [filter].
  match goal with |- context [if ?c then _ else _] => destruct c eqn:E end.
  2:{ change (kept config m (e :: l))
        with ((match treat config m e with Kept d => [d] | _ => [] end)
              ++ kept config m l).
      rewrite filter_app, length_app. lia. }
  apply andb_true_iff in E. destruct E as [E1 E].
  apply andb_true_iff in E. destruct E as [E2 Hcur].
  unfold is_current in Hcur. apply andb_true_iff in Hcur. destruct Hcur as [Hreg Hp].
  destruct (parse_dump_name (Fs.filename e)) as [d|] eqn:Hd; [|discriminate].
  apply Z.eqb_eq in Hp.
  assert (He : In e all) by (apply Hl; left; reflexivity).
  assert (Ht : treat config m e = Kept d).
  { assert (Hn : treat config m e <> Removed).
    { intros Ht. apply negb_true_iff in E1.
      pose proof (removed_paths_In config m all e He Ht) as Hin.
      apply listed_In in Hin. congruence. }
    destruct (treat_not_Removed config m e Hn Hreg) as [_ Hk].
    destruct (Hk d Hd) as (_ & _ & Hkept). apply Hkept. exact Hp. }
  change (kept config m (e :: l))
    with ((match treat config m e with Kept d => [d] | _ => [] end)
          ++ kept config m l).
  rewrite Ht. cbn [app filter].
  unfold dump_path_of at 1.
  rewrite (parse_dump_name_filename _ _ Hd).
  rewrite Hall in He. rewrite <- (entry_path config fs e He).
  rewrite E2. cbn [List.length]. lia.
Qed.

Lemma trimmed_count (config : CacheConfigStatic) (dumps : list ParsedDumpName.t) :
  (List.length
     (filter (fun d => negb (listed (dump_path_of config d)
                               (map (dump_path_of config)
                                  (skipn (max_dump_count config) (sort_newer dumps)))))
        dumps)
   <= max_dump_count config)%nat.
Proof.
  set (n := max_dump_count config).
  set (sorted := sort_newer dumps).
  set (keep := fun d => negb (listed (dump_path_of config d)
                                (map (dump_path_of config) (skipn n sorted)))).
  rewrite (filter_length_perm keep dumps sorted (sort_newer_perm dumps)).
  rewrite <- (firstn_skipn n sorted) at 1.
  rewrite filter_app, length_app.
  assert (H1 : (List.length (filter keep (firstn n sorted)) <= n)%nat).
  { eapply Nat.le_trans; [apply List.filter_length_le|]. rewrite length_firstn. lia. }
  assert (H2 : filter keep (skipn n sorted) = []).
  { rewrite <- (filter_false (skipn n sorted)). apply filter_ext_in.
    intros d Hd. unfold keep. apply negb_false_iff.
    apply listed_In. apply in_map. exact Hd. }
  rewrite H2. simpl. lia.
Qed.

Lemma filter_filter_and {A} (f g : A -> bool) (l : list A) :
  filter f (filter g l) = filter (fun x => g x && f x) l.
Proof.
  induction l as [|x l IH]; simpl; [reflexivity|].
  destruct (g x); simpl; [destruct (f x)|]; rewrite IH; reflexivity.
Qed.

Lemma scan_civil_nonneg (s : string) (c : civil_time) :
  scan_civil s = Some c ->
  0 <= year c /\ 0 <= month c /\ 0 <= day c /\ 0 <= hour c /\ 0 <= minute c
  /\ 0 <= second c /\ 0 <= micros c.
Proof.
  unfold scan_civil. intros H.
  repeat match type of H with
  | match scan_digits ?w ?s0 0 with _ => _ end = _ =>
      let E := fresh "E" in
      destruct (scan_digits w s0 0) as [[? ?]|] eqn:E; [|discriminate];
      apply scan_digits_nonneg in E; [|lia]
  | match scan_lit ?a ?s0 with _ => _ end = _ =>
      destruct (scan_lit a s0); [|discriminate]
  | match ?s0 with EmptyString => _ | String _ _ => _ end = _ =>
      destruct s0; [|discriminate]
  end.
  injection H as <-. cbn. auto 10.
Qed.

Lemma days_from_civil_lower (y m d : Z) :
  0 <= y -> 1 <= m <= 12 -> 1 <= d -> -1000000 <= days_from_civil y m d.
Proof.
  intros Hy Hm Hd. unfold days_from_civil.
  destruct (m <=? 2), (2 <? m); div_lia.
Qed.

(** What [Stringtime] returns is a whole number of microseconds within
    the range of the clock. *)
Lemma Stringtime_in_clock_range (s : string) (date : system_time) :
  Stringtime s = Ok date ->
  in_clock_range (Round date) /\ date = Round date * 1000.
Proof.
  unfold Stringtime. destruct (scan_civil s) as [c|]; [|discriminate].
  destruct (valid_civil c); [|discriminate]. cbv zeta.
  destruct ((- 2 ^ 63 <=? time_of_civil c * 1000)
            && (time_of_civil c * 1000 <? 2 ^ 63)) eqn:E; [|discriminate].
  apply andb_true_iff in E. destruct E as [E1 E2].
  apply Z.leb_le in E1. apply Z.ltb_lt in E2.
  intros H. injection H as <-.
  assert (Hr : in_clock_range (time_of_civil c))
    by (unfold in_clock_range, kFirstClockTime, kLastClockTime; lia).
  assert (HR : Round (time_of_civil c * 1000) = time_of_civil c).
  { unfold Round. rewrite Z.div_mul, Z.mod_mul by lia. reflexivity. }
  rewrite HR. split; [exact Hr|reflexivity].
Qed.

Lemma Stringtime_lower (s : string) (date : system_time) :
  Stringtime s = Ok date -> TimePoint_min <= Round date.
Proof.
  intros H. apply Stringtime_in_clock_range in H. destruct H as [H _].
  unfold in_clock_range, kFirstClockTime, TimePoint_min in *. lia.
Qed.

Lemma parse_dump_name_in_clock_range (name : string) (d : ParsedDumpName.t) :
  parse_dump_name name = Some d -> in_clock_range (ParsedDumpName.update_time d).
Proof.
  unfold parse_dump_name, decode_dump_name.
  destruct (regex_match name filename_regex_) as [[cap1 cap2]|]; [|discriminate].
  destruct (Stringtime cap1) as [date|] eqn:Es; [|discriminate].
  destruct (FromString_uint64 cap2); [|discriminate].
  intros H. injection H as <-. cbn.
  apply (Stringtime_in_clock_range _ _ Es).
Qed.

Lemma parse_dump_name_lower (name : string) (d : ParsedDumpName.t) :
  parse_dump_name name = Some d -> TimePoint_min <= ParsedDumpName.update_time d.
Proof.
  intros H. apply parse_dump_name_in_clock_range in H.
  unfold in_clock_range, kFirstClockTime, TimePoint_min in *. lia.
Qed.

Lemma normal_not_tmp (name : string) (caps : string * string) :
  regex_match name filename_regex_ = Some caps ->
  regex_match name tmp_filename_regex_ = None.
Proof.
  unfold regex_match. cbn [filename_regex_ tmp_filename_regex_ GenerateFilenameRegex
                           re_date re_separator re_suffix].
  destruct (match_atoms date_atoms name) as [[date r]|]; [|discriminate].
  destruct (match_atoms [Lit "-"; Lit "v"] r) as [[sep r']|]; [|discriminate].
  destruct (span_digits r') as [version tail].
  destruct version; [discriminate|].
  destruct (String.eqb tail "") eqn:E; [|discriminate].
  apply String.eqb_eq in E. subst tail. reflexivity.
Qed.

Lemma parse_not_tmp (name : string) (d : ParsedDumpName.t) :
  parse_dump_name name = Some d ->
  regex_match name tmp_filename_regex_ = None.
Proof.
  unfold parse_dump_name.
  destruct (regex_match name filename_regex_) as [caps|] eqn:E; [|discriminate].
  intros _. eapply normal_not_tmp. exact E.
Qed.

Lemma not_expired_min (env : Env) (config : CacheConfigStatic)
  (name : string) (d : ParsedDumpName.t) :
  age_limit_fits (Now env) config ->
  parse_dump_name name = Some d ->
  not_expired (Now env) config d ->
  MinAcceptableUpdateTime env config <= ParsedDumpName.update_time d.
Proof.
  intros Hfit Hp Hn.
  destruct (min_accept (Now env) config) as [bound|] eqn:Eb.
  - rewrite (min_accept_bound env config bound Hfit Eb). apply Hn. exact Eb.
  - unfold min_accept in Eb. unfold MinAcceptableUpdateTime.
    destruct (max_dump_age config); [discriminate|].
    eapply parse_dump_name_lower. exact Hp.
Qed.

(** Entries of one path are treated alike; a newer, unexpired dump is
    skipped. *)
Lemma treat_newer_Skipped (env : Env) (config : CacheConfigStatic)
  (e e' : Fs.directory_entry) (d : ParsedDumpName.t) :
  age_limit_fits (Now env) config ->
  parse_dump_name (Fs.filename e) = Some d ->
  dump_format_version config < ParsedDumpName.format_version d ->
  not_expired (Now env) config d ->
  Fs.filename e' = Fs.filename e ->
  treat config (MinAcceptableUpdateTime env config) e' = Skipped.
Proof.
  intros Hfit Hp Hv Hn Hname. unfold treat. rewrite Hname.
  destruct (negb (Fs.is_regular_file (Fs.entry_status e'))); [reflexivity|].
  rewrite (parse_not_tmp _ _ Hp), Hp.
  pose proof (not_expired_min env config _ d Hfit Hp Hn) as Hm.
  replace (ParsedDumpName.format_version d <? dump_format_version config)
    with false by (symmetry; apply Z.ltb_ge; lia).
  replace (ParsedDumpName.update_time d <? MinAcceptableUpdateTime env config)
    with false by (symmetry; apply Z.ltb_ge; lia).
  replace (ParsedDumpName.format_version d =? dump_format_version config)
    with false by (symmetry; apply Z.eqb_neq; lia).
  reflexivity.
Qed.

Lemma same_path_same_name (dir : string) (fs : Fs.t) (e e' : Fs.directory_entry) :
  In e (Fs.entries dir fs) -> In e' (Fs.entries dir fs) ->
  Fs.path e' = Fs.path e -> Fs.filename e' = Fs.filename e.
Proof.
  intros He He' Hp. apply In_entries in He, He'.
  destruct He as (_ & _ & Hc & _). destruct He' as (_ & _ & Hc' & _).
  rewrite Hp in Hc'. congruence.
Qed.

Lemma walked_incl (env : Env) (dir : string) (fs : Fs.t) (e : Fs.directory_entry) :
  In e (walked env dir fs) -> In e (Fs.entries dir fs).
Proof.
  unfold walked. destruct (iterate_fault env dir) as [[n what]|]; [|auto].
  intros H. rewrite <- (firstn_skipn n (Fs.entries dir fs)).
  apply in_or_app. left. exact H.
Qed.

Lemma removed_paths_inv (config : CacheConfigStatic) (m : TimePoint)
  (l : list Fs.directory_entry) (p : string) :
  In p (removed_paths config m l) ->
  exists e, In e l /\ Fs.path e = p /\ treat config m e = Removed.
Proof.
  unfold removed_paths. rewrite in_map_iff. intros (e & Hp & He).
  apply filter_In in He. destruct He as [He Ht]. exists e. repeat split; auto.
  destruct (treat config m e); try discriminate. reflexivity.
Qed.

(** What [Cleanup] leaves, whatever failed on the way. *)
Lemma cleanup_files_outcome (env : Env) (config : CacheConfigStatic) (fs : Fs.t) :
  let m := MinAcceptableUpdateTime env config in
  exists (pre : list Fs.directory_entry) (gone : list ParsedDumpName.t),
    (forall e, In e pre -> In e (Fs.entries (dump_directory config) fs))
    /\ (forall d, In d gone -> In d (kept config m pre))
    /\ cleanup_files env config fs
       = erase_all (map (dump_path_of config) gone)
           (erase_all (removed_paths config m pre) fs).
Proof.
  intros m. unfold cleanup_files. fold m.
  destruct (sweep_outcome env config m (walked env (dump_directory config) fs) [] fs)
    as (pre & post & Hl & Hd & Hf & _).
  assert (Hpre : forall e, In e pre -> In e (Fs.entries (dump_directory config) fs)).
  { intros e He. apply (walked_incl env). rewrite Hl. apply in_or_app. left. exact He. }
  destruct (sweep env config m (walked env (dump_directory config) fs) [] fs)
    as [[dumps ex] fs1]. cbn [fst snd] in Hd, Hf. subst dumps fs1. cbn [app].
  destruct ex as [ex|].
  { exists pre, []. repeat split; [exact Hpre|intros d []]. }
  destruct (iterate_fault env (dump_directory config)).
  { exists pre, []. repeat split; [exact Hpre|intros d []]. }
  destruct (trim_outcome env config
              (skipn (max_dump_count config) (sort_newer (kept config m pre)))
              (erase_all (removed_paths config m pre) fs))
    as (gone & rest & Hsplit & ->).
  exists pre, gone. repeat split; [exact Hpre|].
  intros d Hd.
  apply (Permutation_in d (Permutation_sym (sort_newer_perm (kept config m pre)))).
  rewrite <- (firstn_skipn (max_dump_count config) (sort_newer (kept config m pre))).
  apply in_or_app. right. rewrite Hsplit. apply in_or_app. left. exact Hd.
Qed.

Lemma entries_paths_incl (dir : string) (fs : Fs.t) (p : string) :
  In p (map Fs.path (Fs.entries dir fs)) -> In p (map fst fs).
Proof.
  rewrite !in_map_iff. intros (e & <- & He). apply In_entries in He.
  destruct He as (f & Hin & _). exists (Fs.path e, f). auto.
Qed.

Lemma entries_paths_NoDup (dir : string) (fs : Fs.t) :
  NoDup (map fst fs) -> NoDup (map Fs.path (Fs.entries dir fs)).
Proof.
  induction fs as [|[p f] fs IH]; simpl; intros Hnd; [constructor|].
  inversion Hnd as [|? ? Hnotin Hnd']; subst.
  unfold Fs.entry_of. simpl. destruct (Fs.child_name dir p); [|auto].
  simpl. constructor; [|auto].
  intros Hin. apply Hnotin. eapply entries_paths_incl. exact Hin.
Qed.

Lemma NoDup_app_disjoint {A} (a b : list A) (x : A) :
  NoDup (a ++ b) -> In x a -> In x b -> False.
Proof.
  induction a as [|y a IH]; simpl; intros Hnd Ha Hb; [contradiction|].
  inversion Hnd as [|? ? Hnotin Hnd']; subst.
  destruct Ha as [-> | Ha]; [|eauto].
  apply Hnotin. apply in_or_app. right. exact Hb.
Qed.

Lemma removed_paths_incl (config : CacheConfigStatic) (m : TimePoint)
  (l : list Fs.directory_entry) (p : string) :
  In p (removed_paths config m l) -> In p (map Fs.path l).
Proof.
  intros H. apply removed_paths_inv in H. destruct H as (e & He & <- & _).
  apply in_map. exact He.
Qed.

Lemma BumpDumpTime_total (env : Env) (old_update_time new_update_time : TimePoint)
  (w : World) :
  exists b w', BumpDumpTime env old_update_time new_update_time w = (Ok b, w').
Proof.
  unfold BumpDumpTime, bind, Read_config, try_catch, FileExists, Rename,
    get_files, set_files, LOG, ret, throw.
  destruct (exists_fault env _); cbn; [eauto|].
  destruct (Fs.lookup _ (files w)) eqn:El; cbn; [|eauto].
  destruct (rename_fault env _ _); cbn; [eauto|].
  rewrite El. cbn. eauto.
Qed.

End RetentionFacts.

(* ================================================================= *)
(** * Facts: versions written with leading zeros *)

Module ZeroPaddingFacts.
Import CivilFacts TextFacts NamingFacts.

Lemma digit_char_nonzero (k : Z) :
  1 <= k <= 9 -> digit_char k <> "0"%char.
Proof.
  intros H.
  assert (Hk : k = 1 \/ k = 2 \/ k = 3 \/ k = 4 \/ k = 5 \/ k = 6
               \/ k = 7 \/ k = 8 \/ k = 9) by lia.
  repeat (destruct Hk as [-> | Hk]; [discriminate|]).
  subst k. discriminate.
Qed.

Lemma decimal_fuel_no_leading_zero (fuel : nat) : forall n rest,
  0 < n < 10 ^ Z.of_nat fuel ->
  exists c s, decimal_fuel fuel n rest = String c s /\ c <> "0"%char.
Proof.
  induction fuel as [|fuel IH]; intros n rest Hn.
  - simpl in Hn. lia.
  - rewrite Nat2Z.inj_succ, Z.pow_succ_r in Hn by lia. simpl.
    destruct (n / 10 =? 0) eqn:E.
    + apply Z.eqb_eq in E. do 2 eexists. split; [reflexivity|].
      apply digit_char_nonzero. div_lia.
    + apply Z.eqb_neq in E. apply IH. div_lia.
Qed.

Lemma decimal_no_leading_zero (n : Z) :
  0 < n -> exists c s, decimal n "" = String c s /\ c <> "0"%char.
Proof.
  intros Hn. apply decimal_fuel_no_leading_zero. split; [exact Hn|].
  apply nb_digits_enough. lia.
Qed.

Lemma zeros_then_all_digits (zeros : nat) (s : string) :
  all_digits (zeros_then zeros s) = all_digits s.
Proof. induction zeros as [|k IH]; simpl; [reflexivity|exact IH]. Qed.

Lemma zeros_then_value (zeros : nat) (s : string) :
  digits_value (zeros_then zeros s) 0 = digits_value s 0.
Proof. induction zeros as [|k IH]; simpl; [reflexivity|exact IH]. Qed.

Lemma zeros_then_shape (zeros : nat) (s : string) :
  (exists c r, s = String c r) -> exists c r, zeros_then zeros s = String c r.
Proof. destruct zeros; simpl; eauto. Qed.

Lemma parse_zero_padded (t : TimePoint) (zeros : nat) (v : Z) :
  in_clock_range t -> 0 <= v < 2 ^ 64 ->
  parse_dump_name (zero_padded_filename t zeros v)
  = Some (ParsedDumpName.mk (zero_padded_filename t zeros v) t v).
Proof.
  intros Hr Hv. pose proof (ChronoFacts.clock_range_four_digits t Hr) as Ht.
  unfold parse_dump_name, regex_match, zero_padded_filename.
  rewrite to_system_time_floor by exact Hr.
  cbn [filename_regex_ GenerateFilenameRegex re_date re_separator re_suffix].
  rewrite match_date_format by (apply civil_of_time_year; exact Ht).
  cbn [match_atoms atom_matches]. rewrite !Ascii.eqb_refl.
  rewrite span_digits_all
    by (rewrite zeros_then_all_digits; apply decimal_all_digits).
  destruct (zeros_then_shape zeros (decimal v "") (decimal_shape v "")) as (c & r & E).
  rewrite E. cbn [String.eqb]. rewrite <- E. clear E c r.
  unfold decode_dump_name.
  pose proof (Stringtime_Timestring t Hr) as Hs. unfold Timestring in Hs.
  rewrite to_system_time_floor in Hs by exact Hr.
  rewrite Hs, Round_to_system_time by exact Hr.
  unfold FromString_uint64.
  rewrite zeros_then_all_digits, decimal_all_digits, zeros_then_value, decimal_value by lia.
  cbn [digits_value].
  destruct (zeros_then_shape zeros (decimal v "") (decimal_shape v "")) as (c & r & ->).
  replace (v <? 2 ^ 64) with true by (symmetry; apply Z.ltb_lt; lia).
  reflexivity.
Qed.

End ZeroPaddingFacts.

(* ================================================================= *)
(** * The claims *)

Import CivilFacts TextFacts NamingFacts FsFacts PathFacts RunFacts SweepFacts RetentionFacts ZeroPaddingFacts.

(** ** Reading the latest dump *)

(** Claim C1 as stated fails when [Round(now) - max_dump_age] is not a
    [TimePoint]: the subtraction of [MinAcceptableUpdateTime] is made in
    64 bits and wraps.  Under the greatest age a count of milliseconds can
    hold, the limit comes out one millisecond after the clock reading; the
    dump of seven hours ago, which is not older than
    [Round(now) - max_dump_age], is passed over and nothing is returned. *)
Lemma ReadLatestDump_passes_over_dump_when_limit_wraps :
  let env := quiet Examples.now in
  let w := Examples.one_dump_greatest_age in
  let config := config_ w in
  let e := {| Fs.path := "/d/2024-01-02T03:04:05.000000-v3";
              Fs.filename := Examples.name_v3;
              Fs.entry_status := Fs.regular_file |} in
  let d := ParsedDumpName.mk Examples.name_v3 Examples.t_030405 3 in
  In e (Fs.entries (dump_directory config) (files w))
  /\ usable (Now env) config e d
  /\ MinAcceptableUpdateTime env config = Round (Now env) + 1000
  /\ fst (ReadLatestDump env w) = Ok None.
Proof.
  cbv zeta. split; [vm_compute; left; reflexivity|].
  split; [|split; vm_compute; reflexivity].
  split; [split; vm_compute; reflexivity|]. split; [reflexivity|].
  intros bound Hb. vm_compute in Hb. injection Hb as <-.
  vm_compute. discriminate.
Qed.

(** Claim C1, amended.  In a directory whose paths are distinct, when
    neither the walk of the dump directory nor a read fails and
    [Round(now) - max_dump_age] is a [TimePoint] (the 64-bit subtraction
    does not wrap), [ReadLatestDump] returns the contents and the update
    time of a regular file of the dump directory whose name parses to
    exactly the configured format version and, when [max_dump_age] is
    set, to an update time not older than [Round(now) - max_dump_age] (no
    age filter when it is absent); no other such file has a greater
    update time.  It returns nothing exactly when no file qualifies.  The
    files are left as they were. *)
Theorem ReadLatestDump_latest_usable (env : Env) (w : World) :
  let config := config_ w in
  let all := Fs.entries (dump_directory config) (files w) in
  NoDup (map fst (files w)) ->
  iterate_fault env (dump_directory config) = None ->
  (forall p, read_fault env p = None) ->
  age_limit_fits (Now env) config ->
  exists w', only_logs w w' /\
    ((exists dump e d f,
        ReadLatestDump env w = (Ok (Some dump), w')
        /\ In e all /\ usable (Now env) config e d
        /\ In (Fs.path e, f) (files w)
        /\ DumpContents.contents dump = Fs.data f
        /\ DumpContents.update_time dump = ParsedDumpName.update_time d
        /\ forall e' d', In e' all -> usable (Now env) config e' d' ->
             ParsedDumpName.update_time d' <= ParsedDumpName.update_time d)
     \/ (ReadLatestDump env w = (Ok None, w')
         /\ forall e d, In e all -> ~ usable (Now env) config e d)).
Proof.
  intros config all Hnd Hit Hread Hfit. subst all config.
  unfold ReadLatestDump, bind, Read_config, try_catch, GetLatestDumpName.
  destruct (GetLatestDumpNameBlocking_run env (config_ w) w) as (w1 & -> & H1).
  unfold walked. rewrite Hit.
  set (config := config_ w) in *.
  set (all := Fs.entries (dump_directory config) (files w)) in *.
  set (best := fold_left _ _ None).
  pose proof (fold_pick_spec config (MinAcceptableUpdateTime env config) all None) as Hb.
  fold best in Hb.
  destruct best as [d|]; cbn [option_map].
  - destruct Hb as ([Hb | (e & He & Hp)] & _ & Hmax); [discriminate|].
    apply candidate_usable in Hp.
    pose proof Hp as [[Hreg Hparse] _].
    pose proof (parse_dump_name_filename _ _ Hparse) as Hname.
    pose proof He as He'. apply In_entries in He'.
    destruct He' as (f & Hin & Hchild & Hst).
    cbn. unfold ReadFileContents. rewrite Hread. cbn.
    rewrite Hname, <- (entry_path config (files w) e He).
    destruct H1 as [Hf1 Hc1]. rewrite Hf1.
    rewrite (NoDup_lookup _ _ _ Hnd Hin). rewrite <- Hst, Hreg. cbn.
    match goal with |- context [ParseDumpName ?n ?w0] =>
      destruct (ParseDumpName_run n w0) as (w2 & -> & H2) end.
    rewrite Hparse. cbn.
    eexists. split; [|left; exists (DumpContents.mk (Fs.data f) (ParsedDumpName.update_time d)), e, d, f;
                      split; [reflexivity|]].
    + destruct H2; split; cbn in *; congruence.
    + repeat split; try assumption; try apply Hp.
      intros e' d' He1 Hu. apply (usable_candidate _ _ _ _ Hfit) in Hu.
      eapply Hmax; eassumption.
  - destruct Hb as [_ Hnone]. cbn.
    eexists. split; [|right; split; [reflexivity|]].
    + destruct H1; split; cbn; assumption.
    + intros e d He Hu. apply (usable_candidate _ _ _ _ Hfit) in Hu.
      rewrite (Hnone e He) in Hu. discriminate.
Qed.

Lemma ReadLatestDump_latest_usable_witness :
  let env := quiet Examples.now in
  let w := Examples.four_dumps in
  let config := config_ w in
  let all := Fs.entries (dump_directory config) (files w) in
  NoDup (map fst (files w))
  /\ iterate_fault env (dump_directory config) = None
  /\ (forall p, read_fault env p = None)
  /\ age_limit_fits (Now env) config
  /\ exists w', only_logs w w' /\
       ((exists dump e d f,
           ReadLatestDump env w = (Ok (Some dump), w')
           /\ In e all /\ usable (Now env) config e d
           /\ In (Fs.path e, f) (files w)
           /\ DumpContents.contents dump = Fs.data f
           /\ DumpContents.update_time dump = ParsedDumpName.update_time d
           /\ forall e' d', In e' all -> usable (Now env) config e' d' ->
                ParsedDumpName.update_time d' <= ParsedDumpName.update_time d)
        \/ (ReadLatestDump env w = (Ok None, w')
            /\ forall e d, In e all -> ~ usable (Now env) config e d)).
Proof.
  cbv zeta.
  assert (Hnd : NoDup (map fst (files Examples.four_dumps))).
  { vm_compute. repeat constructor; simpl; intuition discriminate. }
  assert (Hit : iterate_fault (quiet Examples.now)
                  (dump_directory (config_ Examples.four_dumps)) = None)
    by reflexivity.
  assert (Hread : forall p, read_fault (quiet Examples.now) p = None)
    by reflexivity.
  assert (Hfit : age_limit_fits (Now (quiet Examples.now))
                   (config_ Examples.four_dumps)).
  { intros bound Hb. vm_compute in Hb. injection Hb as <-.
    vm_compute. discriminate. }
  repeat (split; [assumption|]).
  exact (ReadLatestDump_latest_usable (quiet Examples.now) Examples.four_dumps
           Hnd Hit Hread Hfit).
Defined.

(** ** Writing a new dump *)

(** Claim C2.  When the target path [dir/format(update_time, version)]
    names nothing yet and neither the existence check nor the atomic write
    fails, [WriteNewDump] returns true and leaves at that path a regular
    file holding exactly the given bytes with mode 0600 (384: owner read
    and owner write).  The atomic write goes through the side file
    [path.tmp], of which nothing is left; every path other than these two
    is as before. *)
Theorem WriteNewDump_creates (env : Env) (w : World) (dump : DumpContents.t) :
  let dump_path := GenerateDumpPath (DumpContents.update_time dump) (config_ w) in
  exists_fault env dump_path = None ->
  write_fault env dump_path = None ->
  Fs.lookup dump_path (files w) = None ->
  exists w',
    WriteNewDump env dump w = (Ok true, w')
    /\ Fs.lookup dump_path (files w')
       = Some {| Fs.status := Fs.regular_file;
                 Fs.data := DumpContents.contents dump;
                 Fs.perms := 384 |}
    /\ Fs.lookup (dump_path ++ ".tmp")%string (files w') = None
    /\ (forall p, p <> dump_path -> p <> (dump_path ++ ".tmp")%string ->
                  Fs.lookup p (files w') = Fs.lookup p (files w))
    /\ config_ w' = config_ w.
Proof.
  intros dump_path He Hw Hl.
  unfold WriteNewDump, bind, Read_config, FileExists, try_catch,
    RewriteFileContentsAtomically, get_files, set_files, LOG, ret.
  fold dump_path. rewrite He. cbn. rewrite Hl. cbn. rewrite Hw. cbn.
  eexists. split; [reflexivity|]. cbn.
  split; [apply lookup_put_same|]. split; [|split; [|reflexivity]].
  - rewrite lookup_put_other by apply tmp_path_differs.
    apply lookup_erase_same.
  - intros p Hp Hq.
    rewrite lookup_put_other, lookup_erase_other, lookup_put_other
      by assumption.
    reflexivity.
Qed.

Lemma WriteNewDump_creates_witness :
  let env := quiet Examples.now in
  let w := Examples.leftover_side_file in
  let dump := Examples.hello in
  let dump_path := GenerateDumpPath (DumpContents.update_time dump) (config_ w) in
  dump_path = "/d/2024-01-02T03:04:05.000000-v3"
  /\ exists_fault env dump_path = None
  /\ write_fault env dump_path = None
  /\ Fs.lookup dump_path (files w) = None
  /\ Fs.lookup (dump_path ++ ".tmp")%string (files w) <> None
  /\ exists w',
       WriteNewDump env dump w = (Ok true, w')
       /\ Fs.lookup dump_path (files w')
          = Some {| Fs.status := Fs.regular_file;
                    Fs.data := DumpContents.contents dump;
                    Fs.perms := 384 |}
       /\ Fs.lookup (dump_path ++ ".tmp")%string (files w') = None
       /\ (forall p, p <> dump_path -> p <> (dump_path ++ ".tmp")%string ->
                     Fs.lookup p (files w') = Fs.lookup p (files w))
       /\ config_ w' = config_ w.
Proof.
  cbv zeta. split; [vm_compute; reflexivity|].
  split; [reflexivity|]. split; [reflexivity|].
  assert (Hl : Fs.lookup
                 (GenerateDumpPath (DumpContents.update_time Examples.hello)
                    (config_ Examples.leftover_side_file))
                 (files Examples.leftover_side_file) = None)
    by (vm_compute; reflexivity).
  split; [exact Hl|]. split; [vm_compute; discriminate|].
  exact (WriteNewDump_creates (quiet Examples.now)
           Examples.leftover_side_file Examples.hello eq_refl eq_refl Hl).
Defined.

(** Claim C6.  When the target path already names something (and the
    existence check itself does not fail), [WriteNewDump] returns false
    and the files are exactly those it found. *)
Theorem WriteNewDump_existing (env : Env) (w : World) (dump : DumpContents.t)
  (f : Fs.file) :
  let dump_path := GenerateDumpPath (DumpContents.update_time dump) (config_ w) in
  exists_fault env dump_path = None ->
  Fs.lookup dump_path (files w) = Some f ->
  exists w',
    WriteNewDump env dump w = (Ok false, w')
    /\ files w' = files w /\ config_ w' = config_ w.
Proof.
  intros dump_path He Hl.
  unfold WriteNewDump, bind, Read_config, FileExists, get_files, LOG, ret.
  fold dump_path. rewrite He. cbn. rewrite Hl. cbn.
  eexists. split; [reflexivity|]. split; reflexivity.
Qed.

Lemma WriteNewDump_existing_witness :
  let env := quiet Examples.now in
  let w := Examples.one_dump in
  let dump := Examples.hello in
  let f := snd (Examples.dump_file Examples.name_v3 "hello") in
  let dump_path := GenerateDumpPath (DumpContents.update_time dump) (config_ w) in
  exists_fault env dump_path = None
  /\ Fs.lookup dump_path (files w) = Some f
  /\ exists w',
       WriteNewDump env dump w = (Ok false, w')
       /\ files w' = files w /\ config_ w' = config_ w.
Proof.
  cbv zeta.
  assert (Hl : Fs.lookup
                 (GenerateDumpPath (DumpContents.update_time Examples.hello)
                    (config_ Examples.one_dump))
                 (files Examples.one_dump)
               = Some (snd (Examples.dump_file Examples.name_v3 "hello")))
    by (vm_compute; reflexivity).
  split; [reflexivity|]. split; [exact Hl|].
  exact (WriteNewDump_existing (quiet Examples.now) Examples.one_dump
           Examples.hello _ eq_refl Hl).
Defined.

(** Claim C8 does not hold for [WriteNewDump]: its existence check is
    made before the [try] block, so a failure of that check leaves the
    function as an exception.  [BumpDumpTime] makes the same check inside
    its [try] block. *)
Lemma WriteNewDump_exists_error (env : Env) (w : World) (dump : DumpContents.t)
  (what : string) :
  exists_fault env (GenerateDumpPath (DumpContents.update_time dump) (config_ w))
  = Some what ->
  WriteNewDump env dump w = (Throw (filesystem_error what), w).
Proof.
  intros He. unfold WriteNewDump, bind, Read_config, FileExists, throw.
  rewrite He. reflexivity.
Qed.

(** Claim C8, at the failing input: the dump directory cannot be examined
    ("Permission denied" from the existence check); [WriteNewDump] throws
    the filesystem error instead of returning false. *)
Theorem WriteNewDump_propagates_exists_failure :
  WriteNewDump (Examples.cannot_stat "/d/2024-01-02T03:04:05.000000-v3")
    Examples.hello (Examples.world (Examples.config_v 3 None 5) [])
  = (Throw (filesystem_error "Permission denied"),
     Examples.world (Examples.config_v 3 None 5) []).
Proof. vm_compute. reflexivity. Qed.

(** In the same surroundings [BumpDumpTime] returns false. *)
Example BumpDumpTime_contains_exists_failure :
  fst (BumpDumpTime (Examples.cannot_stat "/d/2024-01-02T03:04:05.000000-v3")
         Examples.t_030405 Examples.t_030500
         (Examples.world (Examples.config_v 3 None 5) []))
  = Ok false.
Proof. vm_compute. reflexivity. Qed.

(** ** Bumping the time of a dump *)

(** Claim C5 as stated fails when both times are equal: the rename of a
    path onto itself succeeds and the old path, being the new one, is
    still there. *)
Lemma BumpDumpTime_same_time_keeps_old_path :
  let w := Examples.one_dump in
  let t := Examples.t_030405 in
  let old_name := GenerateDumpPath t (config_ w) in
  let after := BumpDumpTime (quiet Examples.now) t t w in
  t <= t
  /\ Fs.lookup old_name (files w) <> None
  /\ fst after = Ok true
  /\ Fs.lookup old_name (files (snd after)) <> None.
Proof.
  cbv zeta. split; [apply Z.le_refl|].
  split; [vm_compute; discriminate|].
  split; [vm_compute; reflexivity|vm_compute; discriminate].
Qed.

(** Claim C5, amended.  For [old_update_time <= new_update_time]: when
    nothing is at the path derived from the old time, [BumpDumpTime]
    returns false and the files are unchanged.  When a file is there and
    neither the check nor the rename fails, it returns true, the path
    derived from the new time holds that very file (contents included),
    the old path is gone whenever the two paths differ, and every other
    path is untouched.  The two paths differ whenever the old time is
    strictly before the new one and both are within the range of the
    clock, 1677-09-21T00:12:43.145225 to 2262-04-11T23:47:16.854775:
    formatting an update time outside it wraps in 64 bits, and two
    different times can then share a path. *)
Theorem BumpDumpTime_renames (env : Env) (w : World) (old_update_time new_update_time : TimePoint) :
  old_update_time <= new_update_time ->
  let old_name := GenerateDumpPath old_update_time (config_ w) in
  let new_name := GenerateDumpPath new_update_time (config_ w) in
  (Fs.lookup old_name (files w) = None ->
   exists w', BumpDumpTime env old_update_time new_update_time w = (Ok false, w')
              /\ files w' = files w)
  /\
  (forall f, Fs.lookup old_name (files w) = Some f ->
     exists_fault env old_name = None ->
     rename_fault env old_name new_name = None ->
     exists w', BumpDumpTime env old_update_time new_update_time w = (Ok true, w')
       /\ Fs.lookup new_name (files w') = Some f
       /\ (old_name <> new_name -> Fs.lookup old_name (files w') = None)
       /\ (forall p, p <> old_name -> p <> new_name ->
                     Fs.lookup p (files w') = Fs.lookup p (files w)))
  /\
  (kFirstClockTime <= old_update_time -> new_update_time <= kLastClockTime ->
   old_update_time < new_update_time -> old_name <> new_name).
Proof.
  intros Hle old_name new_name. split; [|split].
  - intros Hl.
    unfold BumpDumpTime, bind, Read_config, try_catch, FileExists, get_files,
      LOG, ret, throw.
    fold old_name.
    destruct (exists_fault env old_name) as [what|]; cbn.
    + eexists. split; reflexivity.
    + rewrite Hl. cbn. eexists. split; reflexivity.
  - intros f Hl He Hr.
    unfold BumpDumpTime, bind, Read_config, try_catch, FileExists, Rename,
      get_files, set_files, LOG, ret, throw.
    fold old_name new_name. rewrite He. cbn. rewrite Hl. cbn. rewrite Hr. cbn.
    rewrite Hl. cbn.
    eexists. split; [reflexivity|]. cbn.
    split; [apply lookup_put_same|]. split.
    + intros Hne. rewrite lookup_put_other by exact Hne.
      apply lookup_erase_same.
    + intros p Hp1 Hp2. rewrite lookup_put_other by exact Hp2.
      apply lookup_erase_other. exact Hp1.
  - intros Hlo Hhi Hlt Heq.
    apply GenerateDumpPath_inj in Heq; unfold in_clock_range; lia.
Qed.

(** Outside the range of the clock two different update times can share a
    path: 18446744073709552 microseconds, in the year 2554, come out as
    the epoch. *)
Example GenerateDumpPath_shared_beyond_clock_range :
  GenerateDumpPath 18446744073709552 (Examples.config_v 3 None 5)
  = GenerateDumpPath 0 (Examples.config_v 3 None 5)
  /\ GenerateDumpPath 0 (Examples.config_v 3 None 5)
     = "/d/1970-01-01T00:00:00.000000-v3".
Proof. vm_compute. split; reflexivity. Qed.

Lemma BumpDumpTime_renames_witness :
  let env := quiet Examples.now in
  let w := Examples.one_dump in
  let old_name := GenerateDumpPath Examples.t_030405 (config_ w) in
  let new_name := GenerateDumpPath Examples.t_030500 (config_ w) in
  Examples.t_030405 <= Examples.t_030500
  /\ exists w',
       BumpDumpTime env Examples.t_030405 Examples.t_030500 w = (Ok true, w')
       /\ Fs.lookup new_name (files w')
          = Some (snd (Examples.dump_file Examples.name_v3 "hello"))
       /\ Fs.lookup old_name (files w') = None.
Proof.
  cbv zeta.
  assert (Hle : Examples.t_030405 <= Examples.t_030500) by discriminate.
  split; [exact Hle|].
  destruct (BumpDumpTime_renames (quiet Examples.now) Examples.one_dump
              Examples.t_030405 Examples.t_030500 Hle) as (_ & Hmove & Hneq).
  assert (Hl : Fs.lookup (GenerateDumpPath Examples.t_030405
                            (config_ Examples.one_dump))
                 (files Examples.one_dump)
               = Some (snd (Examples.dump_file Examples.name_v3 "hello")))
    by (vm_compute; reflexivity).
  destruct (Hmove _ Hl eq_refl eq_refl) as (w' & Hrun & Hnew & Hold & _).
  exists w'. split; [exact Hrun|]. split; [exact Hnew|].
  apply Hold. apply Hneq; [discriminate|discriminate|reflexivity].
Defined.

(** ** Retention *)

(** Claim C3.  When neither the walk of the dump directory nor a removal
    fails, [Cleanup] returns normally and, among the regular files left in
    the dump directory: at most [max_dump_count] parse to the current
    format version; each of those has an update time of at least
    [Round(now) - max_dump_age] when that age is set; none matches the
    pattern of temporary files; and none parses to a format version below
    the current one. *)
Theorem Cleanup_retention (env : Env) (w : World) :
  let config := config_ w in
  iterate_fault env (dump_directory config) = None ->
  (forall p, remove_fault env p = None) ->
  exists w',
    Cleanup env w = (Ok tt, w')
    /\ let remaining := Fs.entries (dump_directory config) (files w') in
       (List.length (filter (is_current config) remaining)
        <= max_dump_count config)%nat
       /\ (forall e d, In e remaining -> is_dump e d ->
             ParsedDumpName.format_version d = dump_format_version config ->
             not_expired (Now env) config d)
       /\ (forall e, In e remaining ->
             Fs.is_regular_file (Fs.entry_status e) = true ->
             regex_match (Fs.filename e) tmp_filename_regex_ = None)
       /\ (forall e d, In e remaining -> is_dump e d ->
             ~ ParsedDumpName.format_version d < dump_format_version config).
Proof.
  intros config Hit Hq. subst config.
  destruct (Cleanup_run env w) as (w' & Hrun & Hf & _).
  exists w'. split; [exact Hrun|]. cbv zeta. rewrite Hf.
  unfold cleanup_files, walked. rewrite Hit.
  set (config := config_ w).
  set (m := MinAcceptableUpdateTime env config).
  set (all := Fs.entries (dump_directory config) (files w)).
  rewrite sweep_quiet by exact Hq. rewrite trim_quiet by exact Hq. cbn [snd].
  set (excess := map (dump_path_of config)
                   (skipn (max_dump_count config) (sort_newer (kept config m all)))).
  rewrite !entries_erase_all. fold all.
  assert (Hleft : forall e,
            In e (filter (fun e => negb (listed (Fs.path e) excess))
                    (filter (fun e => negb (listed (Fs.path e)
                                              (removed_paths config m all))) all)) ->
            In e all /\ treat config m e <> Removed).
  { intros e He. apply filter_In in He. destruct He as [He _].
    apply filter_In in He. destruct He as [He Hn]. split; [exact He|].
    intros Ht. apply negb_true_iff in Hn.
    pose proof (removed_paths_In config m all e He Ht) as Hin.
    apply listed_In in Hin. congruence. }
  split; [|split; [|split]].
  - rewrite !filter_filter_and.
    eapply Nat.le_trans; [|apply (trimmed_count config (kept config m all))].
    apply (kept_count config m all (files w) excess eq_refl all). auto.
  - intros e d He [Hreg Hd] Hv bound Hb.
    destruct (Hleft e He) as [_ Hn].
    destruct (treat_not_Removed config m e Hn Hreg) as [_ Hk].
    destruct (Hk d Hd) as (_ & Hm & _).
    unfold m in Hm.
    pose proof (ChronoFacts.min_accept_below env config bound Hb). lia.
  - intros e He Hreg. destruct (Hleft e He) as [_ Hn].
    apply (treat_not_Removed config m e Hn Hreg).
  - intros e d He [Hreg Hd]. destruct (Hleft e He) as [_ Hn].
    destruct (treat_not_Removed config m e Hn Hreg) as [_ Hk].
    destruct (Hk d Hd) as (Hv & _). lia.
Qed.

Lemma Cleanup_retention_witness :
  let env := quiet Examples.now in
  let w := Examples.four_dumps in
  let config := config_ w in
  iterate_fault env (dump_directory config) = None
  /\ (forall p, remove_fault env p = None)
  /\ exists w',
       Cleanup env w = (Ok tt, w')
       /\ let remaining := Fs.entries (dump_directory config) (files w') in
          (List.length (filter (is_current config) remaining)
           <= max_dump_count config)%nat
          /\ (forall e d, In e remaining -> is_dump e d ->
                ParsedDumpName.format_version d = dump_format_version config ->
                not_expired (Now env) config d)
          /\ (forall e, In e remaining ->
                Fs.is_regular_file (Fs.entry_status e) = true ->
                regex_match (Fs.filename e) tmp_filename_regex_ = None)
          /\ (forall e d, In e remaining -> is_dump e d ->
                ~ ParsedDumpName.format_version d < dump_format_version config).
Proof.
  cbv zeta. split; [reflexivity|]. split; [reflexivity|].
  exact (Cleanup_retention (quiet Examples.now) Examples.four_dumps
           eq_refl (fun _ => eq_refl)).
Defined.

(** Four current dumps and room for two: the two newest stay; the older
    format, the day-old dump and the temporary file go as well. *)
Example Cleanup_four_dumps :
  map fst (files (snd (Cleanup (quiet Examples.now) Examples.four_dumps)))
  = ["/d/2024-01-02T03:04:04.000000-v3"; "/d/2024-01-02T03:04:03.000000-v3"].
Proof. vm_compute. reflexivity. Qed.

(** Claim C7 as stated fails: a dump of a newer format version is removed
    all the same once it is older than [max_dump_age].  Here the version
    is 4 under a current version 3, the dump is seven hours old and the
    maximum age is one hour. *)
Lemma Cleanup_removes_expired_newer_version :
  let w := Examples.old_newer_version in
  parse_dump_name Examples.name_v4
  = Some (ParsedDumpName.mk Examples.name_v4 Examples.t_030405 4)
  /\ dump_format_version (config_ w) < 4
  /\ Fs.lookup "/d/2024-01-02T03:04:05.000000-v4" (files w) <> None
  /\ Cleanup (quiet Examples.now) w
     = (Ok tt, {| files := []; config_ := config_ w;
                  log := [(kDebug, "Removing an expired dump")] |}).
Proof.
  cbv zeta. split; [vm_compute; reflexivity|]. split; [reflexivity|].
  split; [vm_compute; discriminate|vm_compute; reflexivity].
Qed.

(** Claim C7, amended.  Whatever fails on the way, [Cleanup] leaves in
    place every regular file of the dump directory whose name parses to a
    format version strictly greater than the current one, unless the dump
    is expired, that is, older than [Round(now) - max_dump_age] with
    [max_dump_age] set.  This is for a limit [Round(now) - max_dump_age]
    that is a [TimePoint]: when the 64-bit subtraction wraps, the limit
    [Cleanup] uses is a later instant and younger dumps are removed as
    well. *)
Theorem Cleanup_keeps_newer_unexpired (env : Env) (w : World)
  (e : Fs.directory_entry) (d : ParsedDumpName.t) (f : Fs.file) :
  let config := config_ w in
  In e (Fs.entries (dump_directory config) (files w)) ->
  In (Fs.path e, f) (files w) ->
  is_dump e d ->
  dump_format_version config < ParsedDumpName.format_version d ->
  age_limit_fits (Now env) config ->
  not_expired (Now env) config d ->
  exists w', Cleanup env w = (Ok tt, w') /\ In (Fs.path e, f) (files w').
Proof.
  intros config He Hin [Hreg Hp] Hv Hfit Hn. subst config.
  destruct (Cleanup_run env w) as (w' & Hrun & Hf & _).
  exists w'. split; [exact Hrun|]. rewrite Hf.
  destruct (cleanup_files_outcome env (config_ w) (files w))
    as (pre & gone & Hpre & Hgone & ->).
  set (config := config_ w) in *.
  set (m := MinAcceptableUpdateTime env config) in *.
  assert (Hskip : forall e', In e' pre -> Fs.path e' = Fs.path e ->
                             treat config m e' = Skipped).
  { intros e' He' Hpath.
    apply (treat_newer_Skipped env config e e' d Hfit Hp Hv Hn).
    eapply same_path_same_name; eauto. }
  apply In_erase_all. split; [apply In_erase_all; split; [exact Hin|]|]; cbn [fst].
  - intros Hr. apply removed_paths_inv in Hr. destruct Hr as (e' & He' & Hpath & Ht).
    rewrite (Hskip e' He' Hpath) in Ht. discriminate.
  - intros Hr. apply in_map_iff in Hr. destruct Hr as (d' & Hpath & Hd').
    apply Hgone, kept_In in Hd'. destruct Hd' as (e' & He' & Ht).
    pose proof (treat_Kept config m e' d' Ht) as [[_ Hp'] _].
    assert (Hpath' : Fs.path e' = Fs.path e).
    { rewrite (entry_path config (files w) e' (Hpre e' He')).
      rewrite <- (parse_dump_name_filename _ _ Hp'). exact Hpath. }
    rewrite (Hskip e' He' Hpath') in Ht. discriminate.
Qed.

Lemma Cleanup_keeps_newer_unexpired_witness :
  let env := quiet Examples.now in
  let w := Examples.recent_newer_version in
  let config := config_ w in
  let e := {| Fs.path := "/d/2024-01-02T03:04:05.000000-v4";
              Fs.filename := Examples.name_v4;
              Fs.entry_status := Fs.regular_file |} in
  let d := ParsedDumpName.mk Examples.name_v4 Examples.t_030405 4 in
  let f := snd (Examples.dump_file Examples.name_v4 "next") in
  In e (Fs.entries (dump_directory config) (files w))
  /\ In (Fs.path e, f) (files w)
  /\ is_dump e d
  /\ dump_format_version config < ParsedDumpName.format_version d
  /\ age_limit_fits (Now env) config
  /\ not_expired (Now env) config d
  /\ exists w', Cleanup env w = (Ok tt, w') /\ In (Fs.path e, f) (files w').
Proof.
  cbv zeta.
  assert (H1 : In {| Fs.path := "/d/2024-01-02T03:04:05.000000-v4";
                     Fs.filename := Examples.name_v4;
                     Fs.entry_status := Fs.regular_file |}
                 (Fs.entries (dump_directory (config_ Examples.recent_newer_version))
                    (files Examples.recent_newer_version)))
    by (vm_compute; left; reflexivity).
  assert (H2 : In ("/d/2024-01-02T03:04:05.000000-v4",
                   snd (Examples.dump_file Examples.name_v4 "next"))
                 (files Examples.recent_newer_version))
    by (vm_compute; left; reflexivity).
  assert (H3 : is_dump {| Fs.path := "/d/2024-01-02T03:04:05.000000-v4";
                          Fs.filename := Examples.name_v4;
                          Fs.entry_status := Fs.regular_file |}
                 (ParsedDumpName.mk Examples.name_v4 Examples.t_030405 4))
    by (split; vm_compute; reflexivity).
  assert (H4 : dump_format_version (config_ Examples.recent_newer_version) < 4)
    by reflexivity.
  assert (H5 : age_limit_fits (Now (quiet Examples.now))
                 (config_ Examples.recent_newer_version))
    by (intros bound Hb; vm_compute in Hb; injection Hb as <-;
        vm_compute; discriminate).
  assert (H6 : not_expired (Now (quiet Examples.now))
                 (config_ Examples.recent_newer_version)
                 (ParsedDumpName.mk Examples.name_v4 Examples.t_030405 4))
    by (intros bound Hb; vm_compute in Hb; injection Hb as <-;
        vm_compute; discriminate).
  repeat (split; [assumption|]).
  exact (Cleanup_keeps_newer_unexpired (quiet Examples.now)
           Examples.recent_newer_version _ _ _ H1 H2 H3 H4 H5 H6).
Defined.

(** Claim C9 as stated fails: the whole retention pass sits in one [try]
    block, so the first removal that fails ends it.  With two leftover
    temporary files of which the first cannot be removed, the second one,
    which could be, is still there afterwards. *)
Lemma Cleanup_failure_skips_later_files :
  let a := "/d/2024-01-02T03:04:05.000000-v3.tmp" in
  let b := "/d/2024-01-02T03:04:06.000000-v3.tmp" in
  let env := Examples.cannot_remove a in
  let w := Examples.two_leftovers in
  regex_match Examples.name_tmp_b tmp_filename_regex_ <> None
  /\ remove_fault env b = None
  /\ fst (Cleanup env w) = Ok tt
  /\ Fs.lookup b (files (snd (Cleanup env w))) <> None.
Proof.
  cbv zeta. split; [vm_compute; discriminate|]. split; [reflexivity|].
  split; [vm_compute; reflexivity|vm_compute; discriminate].
Qed.

(** Claim C9, amended.  The first failing removal of the retention loop
    ends the pass: when the entries before [file] are handled without
    failure and removing [file] fails, [Cleanup] logs one error and returns
    normally; the files are those left by the entries handled before
    [file]; [file] and every later entry stay in place, and no excess dump
    is removed. *)
Theorem Cleanup_stops_at_first_failure (env : Env) (w : World)
  (pre post : list Fs.directory_entry) (file : Fs.directory_entry)
  (what : string) :
  let config := config_ w in
  let min_update_time := MinAcceptableUpdateTime env config in
  iterate_fault env (dump_directory config) = None ->
  Fs.entries (dump_directory config) (files w) = pre ++ file :: post ->
  (forall e, In e pre -> treat config min_update_time e = Removed ->
             remove_fault env (Fs.path e) = None) ->
  treat config min_update_time file = Removed ->
  remove_fault env (Fs.path file) = Some what ->
  exists w',
    Cleanup env w = (Ok tt, w')
    /\ files w' = erase_all (removed_paths config min_update_time pre) (files w)
    /\ In (kError, "Error while cleaning up old dumps") (log w')
    /\ (NoDup (map fst (files w)) ->
        forall e f, In e (file :: post) -> In (Fs.path e, f) (files w) ->
                    In (Fs.path e, f) (files w')).
Proof.
  intros config m Hit Hall Hpre Ht Hfail. subst config.
  assert (Hsweep : sweep env (config_ w) m
                     (Fs.entries (dump_directory (config_ w)) (files w)) [] (files w)
                   = ((kept (config_ w) m pre, Some (filesystem_error what)),
                      erase_all (removed_paths (config_ w) m pre) (files w))).
  { rewrite Hall, sweep_prefix by exact Hpre. simpl. rewrite Ht, Hfail. reflexivity. }
  unfold Cleanup, bind, Read_config, CleanupBlocking, for_directory.
  rewrite Hit. fold m.
  destruct (for_each_sweep env (config_ w) m
              (Fs.entries (dump_directory (config_ w)) (files w)) [] w)
    as (w1 & -> & Hf & Hc).
  rewrite Hsweep in *. cbn [fst snd] in *.
  unfold cleanup_handler. cbn [is_std_exception].
  destruct (LOG_run kError "Error while cleaning up old dumps" w1)
    as (w2 & -> & [Hf2 Hc2] & Hlog).
  exists w2. split; [reflexivity|]. split; [congruence|]. split.
  - rewrite Hlog. apply in_or_app. right. left. reflexivity.
  - intros Hnd e f He Hin. rewrite Hf2, Hf. apply In_erase_all. split; [exact Hin|].
    cbn [fst]. intros Hr. apply removed_paths_incl in Hr.
    pose proof (entries_paths_NoDup (dump_directory (config_ w)) (files w) Hnd) as Hnd'.
    rewrite Hall, map_app in Hnd'.
    apply (NoDup_app_disjoint _ _ (Fs.path e) Hnd' Hr).
    apply in_map. exact He.
Qed.

Lemma Cleanup_stops_at_first_failure_witness :
  let a := {| Fs.path := "/d/2024-01-02T03:04:05.000000-v3.tmp";
              Fs.filename := Examples.name_tmp_a;
              Fs.entry_status := Fs.regular_file |} in
  let b := {| Fs.path := "/d/2024-01-02T03:04:06.000000-v3.tmp";
              Fs.filename := Examples.name_tmp_b;
              Fs.entry_status := Fs.regular_file |} in
  let env := Examples.cannot_remove (Fs.path a) in
  let w := Examples.two_leftovers in
  let config := config_ w in
  let min_update_time := MinAcceptableUpdateTime env config in
  iterate_fault env (dump_directory config) = None
  /\ Fs.entries (dump_directory config) (files w) = [] ++ a :: [b]
  /\ (forall e, In e [] -> treat config min_update_time e = Removed ->
                remove_fault env (Fs.path e) = None)
  /\ treat config min_update_time a = Removed
  /\ remove_fault env (Fs.path a) = Some "Permission denied"
  /\ exists w',
       Cleanup env w = (Ok tt, w')
       /\ files w' = files w
       /\ In (kError, "Error while cleaning up old dumps") (log w').
Proof.
  cbv zeta.
  assert (Hall : Fs.entries (dump_directory (config_ Examples.two_leftovers))
                   (files Examples.two_leftovers)
                 = [] ++ {| Fs.path := "/d/2024-01-02T03:04:05.000000-v3.tmp";
                            Fs.filename := Examples.name_tmp_a;
                            Fs.entry_status := Fs.regular_file |}
                   :: [{| Fs.path := "/d/2024-01-02T03:04:06.000000-v3.tmp";
                          Fs.filename := Examples.name_tmp_b;
                          Fs.entry_status := Fs.regular_file |}])
    by (vm_compute; reflexivity).
  assert (Ht : treat (config_ Examples.two_leftovers)
                 (MinAcceptableUpdateTime
                    (Examples.cannot_remove "/d/2024-01-02T03:04:05.000000-v3.tmp")
                    (config_ Examples.two_leftovers))
                 {| Fs.path := "/d/2024-01-02T03:04:05.000000-v3.tmp";
                    Fs.filename := Examples.name_tmp_a;
                    Fs.entry_status := Fs.regular_file |} = Removed)
    by (vm_compute; reflexivity).
  split; [reflexivity|]. split; [exact Hall|].
  split; [intros e []|]. split; [exact Ht|]. split; [reflexivity|].
  destruct (Cleanup_stops_at_first_failure
              (Examples.cannot_remove "/d/2024-01-02T03:04:05.000000-v3.tmp")
              Examples.two_leftovers []
              [{| Fs.path := "/d/2024-01-02T03:04:06.000000-v3.tmp";
                  Fs.filename := Examples.name_tmp_b;
                  Fs.entry_status := Fs.regular_file |}]
              {| Fs.path := "/d/2024-01-02T03:04:05.000000-v3.tmp";
                 Fs.filename := Examples.name_tmp_a;
                 Fs.entry_status := Fs.regular_file |}
              "Permission denied"
              eq_refl Hall (fun e (H : In e []) => match H with end)
              Ht eq_refl)
    as (w' & Hrun & Hfiles & Hlog & _).
  exists w'. split; [exact Hrun|]. split; [exact Hfiles|exact Hlog].
Defined.

(** ** Dump names *)

(** Claim C4 as stated fails for update times past the range of the
    clock: formatting converts the update time to nanoseconds in 64 bits.
    For 2286-11-20T17:46:40.000000 UTC the count wraps, the name written
    is that of an instant in 1702, and parsing the name yields that
    instant, not the update time. *)
Lemma dump_name_roundtrip_fails_in_year_2286 :
  let t := Examples.t_2286 in
  let name := "1702-05-02T18:12:06.290448-v3" in
  dump_filename t 3 = name
  /\ ParseDumpName (dump_filename t 3) Examples.one_dump
     = (Ok (Some (ParsedDumpName.mk name (-8446744073709552) 3)),
        Examples.one_dump)
  /\ -8446744073709552 <> t.
Proof.
  cbv zeta. split; [vm_compute; reflexivity|].
  split; [vm_compute; reflexivity|discriminate].
Qed.

(** Claim C4, amended.  For every update time within the range of the
    clock, 1677-09-21T00:12:43.145225 to 2262-04-11T23:47:16.854775 UTC
    (the microsecond counts whose thousandfold fits 64 bits), and every
    format version that fits 64 bits, the name part of [GenerateDumpPath]
    parses back to exactly that time and version. *)
Theorem dump_name_roundtrip (t : TimePoint) (config : CacheConfigStatic)
  (w : World) :
  in_clock_range t ->
  0 <= dump_format_version config < 2 ^ 64 ->
  let name := dump_filename t (dump_format_version config) in
  GenerateDumpPath t config = FilenameToPath name config
  /\ ParseDumpName name w
     = (Ok (Some (ParsedDumpName.mk name t (dump_format_version config))), w).
Proof.
  intros Ht Hv name. split; [apply GenerateDumpPath_filename|].
  apply ParseDumpName_parsed.
  exact (parse_format_roundtrip t (dump_format_version config) Ht Hv).
Qed.

Lemma dump_name_roundtrip_witness :
  let t := Examples.t_030405 in
  let config := Examples.config_v 3 None 5 in
  let name := dump_filename t (dump_format_version config) in
  in_clock_range t
  /\ 0 <= dump_format_version config < 2 ^ 64
  /\ name = "2024-01-02T03:04:05.000000-v3"
  /\ GenerateDumpPath t config = FilenameToPath name config
  /\ ParseDumpName name Examples.one_dump
     = (Ok (Some (ParsedDumpName.mk name t 3)), Examples.one_dump).
Proof.
  cbv zeta.
  assert (Ht : in_clock_range Examples.t_030405)
    by (split; discriminate).
  assert (Hv : 0 <= dump_format_version (Examples.config_v 3 None 5) < 2 ^ 64)
    by (vm_compute; split; [discriminate|reflexivity]).
  split; [exact Ht|]. split; [exact Hv|]. split; [vm_compute; reflexivity|].
  exact (dump_name_roundtrip Examples.t_030405 (Examples.config_v 3 None 5)
           Examples.one_dump Ht Hv).
Defined.

(** Claim C10.  A name whose version is written with leading zeros is
    accepted by [ParseDumpName] and decodes to the numeric value (the
    pattern asks for [\d+]; the text of the version is decoded as an
    unsigned integer); this for every update time within the range of the
    clock.  Hence such a file is a dump of that version for
    [ReadLatestDump] and [Cleanup]: it is returned when the version is
    current and removed when the current version is greater.  Formatting
    writes a version without leading zeros. *)
Theorem ParseDumpName_leading_zeros (t : TimePoint) (zeros : nat) (v : Z)
  (w : World) :
  in_clock_range t ->
  0 <= v < 2 ^ 64 ->
  let name := zero_padded_filename t zeros v in
  ParseDumpName name w = (Ok (Some (ParsedDumpName.mk name t v)), w)
  /\ (forall e, Fs.is_regular_file (Fs.entry_status e) = true ->
                Fs.filename e = name ->
                is_dump e (ParsedDumpName.mk name t v))
  /\ fst (ReadLatestDump (quiet Examples.now) (Examples.leading_zeros 7))
     = Ok (Some (DumpContents.mk "seven" Examples.t_030405))
  /\ files (snd (Cleanup (quiet Examples.now) (Examples.leading_zeros 8))) = []
  /\ (decimal v "" = "0"
      \/ exists c s, decimal v "" = String c s /\ c <> "0"%char).
Proof.
  intros Ht Hv name.
  pose proof (parse_zero_padded t zeros v Ht Hv) as Hp. fold name in Hp.
  split; [|split; [|split; [|split]]].
  - apply ParseDumpName_parsed. exact Hp.
  - intros e Hreg Hname. split; [exact Hreg|]. rewrite Hname. exact Hp.
  - vm_compute. reflexivity.
  - vm_compute. reflexivity.
  - destruct (Z.eq_dec v 0) as [-> | Hnz]; [left; reflexivity|].
    right. apply decimal_no_leading_zero. lia.
Qed.

Lemma ParseDumpName_leading_zeros_witness :
  let name := zero_padded_filename Examples.t_030405 2 7 in
  in_clock_range Examples.t_030405
  /\ 0 <= 7 < 2 ^ 64
  /\ name = Examples.name_v007
  /\ ParseDumpName name Examples.one_dump
     = (Ok (Some (ParsedDumpName.mk name Examples.t_030405 7)),
        Examples.one_dump).
Proof.
  assert (Ht : in_clock_range Examples.t_030405)
    by (split; discriminate).
  assert (Hv : 0 <= 7 < 2 ^ 64) by (vm_compute; split; [discriminate|reflexivity]).
  cbv zeta. split; [exact Ht|]. split; [exact Hv|].
  split; [vm_compute; reflexivity|].
  exact (proj1 (ParseDumpName_leading_zeros Examples.t_030405 2 7
                  Examples.one_dump Ht Hv)).
Defined.

(** ** The scenarios of the specification *)

(** Write, then read: the dump comes back with its update time. *)
Example write_then_read :
  let env := quiet Examples.now in
  let w := Examples.world (Examples.config_v 3 None 5) [] in
  fst (ReadLatestDump env (snd (WriteNewDump env Examples.hello w)))
  = Ok (Some Examples.hello).
Proof. vm_compute. reflexivity. Qed.

(** Age filter: the dump of 09:30 is read, the dump of 08:00 is removed. *)
Example age_filter :
  let env := quiet Examples.now in
  fst (ReadLatestDump env Examples.aged)
  = Ok (Some (DumpContents.mk "fresh" 1704187800000000))
  /\ map fst (files (snd (Cleanup env Examples.aged)))
     = ["/d/2024-01-02T09:30:00.000000-v1"].
Proof. vm_compute. split; reflexivity. Qed.

(** Bump, then bump again from the same old time: true, then false with
    the directory unchanged. *)
Example bump_twice :
  let env := quiet Examples.now in
  let first := BumpDumpTime env Examples.t_030405 Examples.t_030500
                 Examples.one_dump in
  let second := BumpDumpTime env Examples.t_030405 Examples.t_030500
                  (snd first) in
  fst first = Ok true
  /\ map fst (files (snd first)) = ["/d/2024-01-02T03:05:00.000000-v3"]
  /\ fst second = Ok false
  /\ files (snd second) = files (snd first).
Proof. vm_compute. repeat split; reflexivity. Qed.

(* ================================================================= *)
(** * Further properties: what the operations leave alone *)

Lemma cleanup_files_incl (env : Env) (config : CacheConfigStatic) (fs : Fs.t)
  (x : string * Fs.file) :
  In x (cleanup_files env config fs) -> In x fs.
Proof.
  destruct (cleanup_files_outcome env config fs) as (pre & gone & _ & _ & ->).
  intros H. apply In_erase_all in H. destruct H as [H _].
  apply In_erase_all in H. apply H.
Qed.

(** Property X1.  Whatever fails around it (the walk of the dump directory, the
    read of the file), [ReadLatestDump] returns normally, every exception
    being caught by its handler, and it changes neither a file nor the
    configuration: a read only adds log lines. *)
Theorem ReadLatestDump_contained (env : Env) (w : World) :
  exists r w',
    ReadLatestDump env w = (Ok r, w')
    /\ files w' = files w /\ config_ w' = config_ w.
Proof.
  destruct (ReadLatestDump_total env w) as (r & w' & H & Hf & Hc).
  exists r, w'. auto.
Qed.

(** Property X2.  Whatever fails around it, [Cleanup] returns normally, leaves
    the configuration as it was, and every file present afterwards was
    present before under the same path with the same status, contents and
    permissions: [Cleanup] creates, renames and rewrites nothing. *)
Theorem Cleanup_only_removes (env : Env) (w : World) :
  exists w',
    Cleanup env w = (Ok tt, w')
    /\ config_ w' = config_ w
    /\ forall x, In x (files w') -> In x (files w).
Proof.
  destruct (Cleanup_run env w) as (w' & Hrun & Hf & Hc).
  exists w'. split; [exact Hrun|]. split; [exact Hc|].
  intros x. rewrite Hf. apply cleanup_files_incl.
Qed.

(** Property X3.  Whatever the existence check or the rename answers,
    [BumpDumpTime] returns normally with the configuration unchanged, and
    whenever it returns [false] no file has changed. *)
Theorem BumpDumpTime_contained (env : Env)
  (old_update_time new_update_time : TimePoint) (w : World) :
  exists b w',
    BumpDumpTime env old_update_time new_update_time w = (Ok b, w')
    /\ config_ w' = config_ w
    /\ (b = false -> files w' = files w).
Proof.
  unfold BumpDumpTime, bind, Read_config, try_catch, FileExists, Rename,
    get_files, set_files, LOG, ret, throw.
  destruct (exists_fault env _); cbn.
  { do 2 eexists. split; [reflexivity|]. split; reflexivity. }
  destruct (Fs.lookup _ (files w)) eqn:El; cbn.
  2:{ do 2 eexists. split; [reflexivity|]. split; reflexivity. }
  destruct (rename_fault env _ _); cbn.
  { do 2 eexists. split; [reflexivity|]. split; reflexivity. }
  rewrite El. cbn. do 2 eexists. split; [reflexivity|].
  split; [reflexivity|discriminate].
Qed.

(** Property X4.  When the existence check of the target path does not fail,
    [WriteNewDump] returns normally with the configuration unchanged and
    is all or nothing: on [false] no file has changed; on [true] the
    target path named nothing before and now names a regular file with the
    given contents and permissions owner-read|owner-write (0600 = 384);
    and a failing write always gives [false]. *)
Theorem WriteNewDump_all_or_nothing (env : Env) (dump : DumpContents.t)
  (w : World) :
  let dump_path := GenerateDumpPath (DumpContents.update_time dump) (config_ w) in
  exists_fault env dump_path = None ->
  exists b w',
    WriteNewDump env dump w = (Ok b, w')
    /\ config_ w' = config_ w
    /\ (b = false -> files w' = files w)
    /\ (b = true ->
        Fs.lookup dump_path (files w) = None
        /\ Fs.lookup dump_path (files w')
           = Some {| Fs.status := Fs.regular_file;
                     Fs.data := DumpContents.contents dump;
                     Fs.perms := 384 |})
    /\ (write_fault env dump_path <> None -> b = false).
Proof.
  intros dump_path He.
  unfold WriteNewDump, bind, Read_config, FileExists, try_catch,
    RewriteFileContentsAtomically, get_files, set_files, LOG, ret, throw.
  fold dump_path. rewrite He. cbn.
  destruct (Fs.lookup dump_path (files w)) eqn:El; cbn.
  { do 2 eexists. split; [reflexivity|]. split; [reflexivity|].
    split; [reflexivity|]. split; [discriminate|reflexivity]. }
  destruct (write_fault env dump_path) eqn:Ew; cbn.
  { do 2 eexists. split; [reflexivity|]. split; [reflexivity|].
    split; [reflexivity|]. split; [discriminate|reflexivity]. }
  do 2 eexists. split; [reflexivity|]. cbn. split; [reflexivity|].
  split; [discriminate|]. split; [|congruence].
  intros _. split; [reflexivity|apply lookup_put_same].
Qed.

Lemma WriteNewDump_all_or_nothing_witness :
  let env := MoreExamples.cannot_write "/d/2024-01-02T03:04:05.000000-v3" in
  let w := MoreExamples.empty_v3 in
  let dump := Examples.hello in
  let dump_path := GenerateDumpPath (DumpContents.update_time dump) (config_ w) in
  exists_fault env dump_path = None
  /\ write_fault env dump_path <> None
  /\ exists b w',
       WriteNewDump env dump w = (Ok b, w')
       /\ config_ w' = config_ w
       /\ (b = false -> files w' = files w)
       /\ (b = true ->
           Fs.lookup dump_path (files w) = None
           /\ Fs.lookup dump_path (files w')
              = Some {| Fs.status := Fs.regular_file;
                        Fs.data := DumpContents.contents dump;
                        Fs.perms := 384 |})
       /\ (write_fault env dump_path <> None -> b = false).
Proof.
  cbv zeta. split; [reflexivity|]. split; [vm_compute; discriminate|].
  exact (WriteNewDump_all_or_nothing
           (MoreExamples.cannot_write "/d/2024-01-02T03:04:05.000000-v3")
           Examples.hello MoreExamples.empty_v3 eq_refl).
Defined.

Lemma dump_filename_inj (t1 t2 : TimePoint) (v1 v2 : Z) :
  in_clock_range t1 -> in_clock_range t2 ->
  0 <= v1 < 2 ^ 64 -> 0 <= v2 < 2 ^ 64 ->
  dump_filename t1 v1 = dump_filename t2 v2 -> t1 = t2 /\ v1 = v2.
Proof.
  intros Ht1 Ht2 Hv1 Hv2 H.
  pose proof (parse_format_roundtrip t1 v1 Ht1 Hv1) as P1.
  pose proof (parse_format_roundtrip t2 v2 Ht2 Hv2) as P2.
  rewrite H in P1. rewrite P1 in P2. injection P2 as -> ->. auto.
Qed.

(** Property X5.  Within one dump directory, two dumps that differ in
    update time or in format version get different paths from
    [GenerateDumpPath], for update times within the range of the clock
    (1677-09-21T00:12:43.145225 to 2262-04-11T23:47:16.854775) and format
    versions below [2^64].  (The date formatting,
    [utils::datetime::Timestring], is modelled; outside that range the
    64-bit conversion wraps and paths do collide.) *)
Theorem GenerateDumpPath_injective (config1 config2 : CacheConfigStatic)
  (t1 t2 : TimePoint) :
  in_clock_range t1 -> in_clock_range t2 ->
  0 <= dump_format_version config1 < 2 ^ 64 ->
  0 <= dump_format_version config2 < 2 ^ 64 ->
  dump_directory config1 = dump_directory config2 ->
  t1 <> t2 \/ dump_format_version config1 <> dump_format_version config2 ->
  GenerateDumpPath t1 config1 <> GenerateDumpPath t2 config2.
Proof.
  intros Ht1 Ht2 Hv1 Hv2 Hdir Hne H.
  rewrite !GenerateDumpPath_filename in H. unfold FilenameToPath in H.
  rewrite Hdir in H. apply append_inv_head in H. injection H as H.
  apply dump_filename_inj in H; try assumption.
  destruct H as [Ht Hv]. destruct Hne as [Hne | Hne]; contradiction.
Qed.

Lemma GenerateDumpPath_injective_witness :
  let config := Examples.config_v 3 None 5 in
  in_clock_range Examples.t_030405
  /\ in_clock_range Examples.t_030500
  /\ 0 <= dump_format_version config < 2 ^ 64
  /\ Examples.t_030405 <> Examples.t_030500
  /\ GenerateDumpPath Examples.t_030405 config
     <> GenerateDumpPath Examples.t_030500 config.
Proof.
  cbv zeta.
  assert (Ht1 : in_clock_range Examples.t_030405) by (split; discriminate).
  assert (Ht2 : in_clock_range Examples.t_030500) by (split; discriminate).
  assert (Hv : 0 <= dump_format_version (Examples.config_v 3 None 5) < 2 ^ 64)
    by (vm_compute; split; [discriminate|reflexivity]).
  assert (Hne : Examples.t_030405 <> Examples.t_030500) by discriminate.
  split; [exact Ht1|]. split; [exact Ht2|]. split; [exact Hv|].
  split; [exact Hne|].
  exact (GenerateDumpPath_injective (Examples.config_v 3 None 5)
           (Examples.config_v 3 None 5) Examples.t_030405 Examples.t_030500
           Ht1 Ht2 Hv Hv eq_refl (or_introl Hne)).
Defined.

(** [BumpDumpTime] of a dump that is not there changes no file. *)
Lemma BumpDumpTime_absent (env : Env)
  (old_update_time new_update_time : TimePoint) (w : World) :
  Fs.lookup (GenerateDumpPath old_update_time (config_ w)) (files w) = None ->
  exists w',
    BumpDumpTime env old_update_time new_update_time w = (Ok false, w')
    /\ files w' = files w.
Proof.
  intros Hgone.
  unfold BumpDumpTime, bind, Read_config, try_catch, FileExists, Rename,
    get_files, set_files, LOG, ret, throw.
  destruct (exists_fault env _); cbn.
  { eexists. split; reflexivity. }
  rewrite Hgone. cbn. eexists. split; reflexivity.
Qed.

(** Property X6.  When [BumpDumpTime] has renamed the dump of [old_update_time]
    to a different path, a second [BumpDumpTime] from the same
    [old_update_time], to whatever new time and whatever fails around it,
    returns [false] and changes no file. *)
Theorem BumpDumpTime_twice (env env' : Env) (w : World)
  (old_update_time new_update_time new_update_time' : TimePoint) (f : Fs.file) :
  let old_name := GenerateDumpPath old_update_time (config_ w) in
  let new_name := GenerateDumpPath new_update_time (config_ w) in
  Fs.lookup old_name (files w) = Some f ->
  exists_fault env old_name = None ->
  rename_fault env old_name new_name = None ->
  old_name <> new_name ->
  exists w1 w2,
    BumpDumpTime env old_update_time new_update_time w = (Ok true, w1)
    /\ BumpDumpTime env' old_update_time new_update_time' w1 = (Ok false, w2)
    /\ files w2 = files w1.
Proof.
  intros old_name new_name Hl He Hr Hne.
  unfold BumpDumpTime at 1.
  unfold bind, Read_config, try_catch, FileExists, Rename,
    get_files, set_files, LOG, ret, throw.
  fold old_name new_name. rewrite He. cbn. rewrite Hl. cbn. rewrite Hr. cbn.
  rewrite Hl. cbn.
  eexists.
  match goal with |- exists w2, (_, ?w1) = _ /\ _ =>
    destruct (BumpDumpTime_absent env' old_update_time new_update_time' w1)
      as (w2 & Hrun & Hsame)
  end.
  { cbn. fold old_name new_name.
    rewrite lookup_put_other by exact Hne. apply lookup_erase_same. }
  exists w2. split; [reflexivity|]. split; [exact Hrun|exact Hsame].
Qed.

Lemma BumpDumpTime_twice_witness :
  let env := quiet Examples.now in
  let w := Examples.one_dump in
  let f := snd (Examples.dump_file Examples.name_v3 "hello") in
  let old_name := GenerateDumpPath Examples.t_030405 (config_ w) in
  let new_name := GenerateDumpPath Examples.t_030500 (config_ w) in
  Fs.lookup old_name (files w) = Some f
  /\ exists_fault env old_name = None
  /\ rename_fault env old_name new_name = None
  /\ old_name <> new_name
  /\ exists w1 w2,
       BumpDumpTime env Examples.t_030405 Examples.t_030500 w = (Ok true, w1)
       /\ BumpDumpTime env Examples.t_030405 Examples.t_030500 w1 = (Ok false, w2)
       /\ files w2 = files w1.
Proof.
  cbv zeta.
  assert (H1 : Fs.lookup (GenerateDumpPath Examples.t_030405 (config_ Examples.one_dump))
                 (files Examples.one_dump)
               = Some (snd (Examples.dump_file Examples.name_v3 "hello")))
    by (vm_compute; reflexivity).
  assert (H4 : GenerateDumpPath Examples.t_030405 (config_ Examples.one_dump)
               <> GenerateDumpPath Examples.t_030500 (config_ Examples.one_dump))
    by (vm_compute; discriminate).
  split; [exact H1|]. split; [reflexivity|]. split; [reflexivity|].
  split; [exact H4|].
  exact (BumpDumpTime_twice (quiet Examples.now) (quiet Examples.now)
           Examples.one_dump Examples.t_030405 Examples.t_030500
           Examples.t_030500 _ H1 eq_refl eq_refl H4).
Defined.

(* ================================================================= *)
(** * Further properties: the names that parse *)

Module DecodeFacts.

Lemma digit_char_val (c : ascii) :
  is_digit c = true -> digit_char (digit_val c) = c.
Proof.
  unfold is_digit, digit_char, digit_val. intros H.
  apply andb_true_iff in H. destruct H as [H1 H2]. apply Z.leb_le in H1, H2.
  replace (48 + (Z.of_nat (nat_of_ascii c) - 48)) with (Z.of_nat (nat_of_ascii c)) by lia.
  rewrite Nat2Z.id. apply ascii_nat_embedding.
Qed.

Lemma digits_head (w : nat) : forall n rest,
  0 <= n ->
  digits (S w) n rest
  = String (digit_char ((n / 10 ^ Z.of_nat w) mod 10))
      (digits w (n mod 10 ^ Z.of_nat w) rest).
Proof.
  induction w as [|w IH]; intros n rest Hn.
  - cbn [digits]. change (10 ^ Z.of_nat 0) with 1.
    rewrite Z.div_1_r. reflexivity.
  - change (digits (S (S w)) n rest)
      with (digits (S w) (n / 10) (String (digit_char (n mod 10)) rest)).
    rewrite IH by div_lia.
    assert (Hp : 0 < 10 ^ Z.of_nat w) by (apply Z.pow_pos_nonneg; lia).
    rewrite Nat2Z.inj_succ, Z.pow_succ_r by lia.
    rewrite Z.div_div by lia.
    rewrite (Z.rem_mul_r n 10 (10 ^ Z.of_nat w)) by lia.
    set (q := (n / 10) mod 10 ^ Z.of_nat w).
    cbn [digits]. f_equal. f_equal; [div_lia|].
    f_equal. f_equal. div_lia.
Qed.

Lemma scan_digits_inv (w : nat) : forall s acc v r,
  scan_digits w s acc = Some (v, r) ->
  exists n, 0 <= n < 10 ^ Z.of_nat w
            /\ v = acc * 10 ^ Z.of_nat w + n /\ s = digits w n r.
Proof.
  induction w as [|w IH]; intros s acc v r H.
  - cbn in H. injection H as <- <-. exists 0. cbn. repeat split; lia.
  - cbn [scan_digits] in H. destruct s as [|c s]; [discriminate|].
    destruct (is_digit c) eqn:Ec; [|discriminate].
    apply IH in H. destruct H as (n' & Hn' & -> & ->).
    pose proof (is_digit_val_range c Ec) as Hd.
    assert (Hp : 0 < 10 ^ Z.of_nat w) by (apply Z.pow_pos_nonneg; lia).
    exists (digit_val c * 10 ^ Z.of_nat w + n').
    rewrite Nat2Z.inj_succ, Z.pow_succ_r by lia.
    split; [nia|]. split; [ring|].
    rewrite digits_head by nia.
    rewrite Z.div_add_l, Z.div_small, Z.add_0_r by lia.
    rewrite Z.mod_small by lia.
    rewrite digit_char_val by exact Ec.
    rewrite Z.add_comm, Z.mod_add, Z.mod_small by lia. reflexivity.
Qed.

Lemma scan_digits_whole (s : string) : forall acc,
  all_digits s = true ->
  scan_digits (String.length s) s acc = Some (digits_value s acc, EmptyString).
Proof.
  induction s as [|c s IH]; intros acc H; cbn in *; [reflexivity|].
  apply andb_true_iff in H. destruct H as [-> H]. apply IH. exact H.
Qed.

Lemma digits_zero (w : nat) : forall rest, digits w 0 rest = zeros_then w rest.
Proof.
  induction w as [|w IH]; intros rest; [reflexivity|].
  cbn [digits]. change (0 / 10) with 0. change (0 mod 10) with 0.
  rewrite IH. clear IH. induction w as [|w IHw]; cbn; [reflexivity|].
  f_equal. exact IHw.
Qed.

Lemma zeros_then_add (a b : nat) (s : string) :
  zeros_then a (zeros_then b s) = zeros_then (a + b) s.
Proof. induction a as [|a IH]; cbn; [reflexivity|]. f_equal. exact IH. Qed.

Lemma decimal_fuel_enough (f1 : nat) : forall f2 n rest,
  0 < n < 10 ^ Z.of_nat f1 -> n < 10 ^ Z.of_nat f2 ->
  decimal_fuel f1 n rest = decimal_fuel f2 n rest.
Proof.
  induction f1 as [|f1 IH]; intros f2 n rest H1 H2.
  - cbn in H1. lia.
  - destruct f2 as [|f2].
    + cbn in H2. lia.
    + rewrite Nat2Z.inj_succ, Z.pow_succ_r in H1, H2 by lia. cbn [decimal_fuel].
      destruct (n / 10 =? 0) eqn:E; [reflexivity|].
      apply Z.eqb_neq in E. apply IH; div_lia.
Qed.

Lemma decimal_fuel_S (f1 f2 : nat) (n : Z) (rest : string) :
  0 <= n < 10 ^ Z.of_nat (S f1) -> n < 10 ^ Z.of_nat (S f2) ->
  decimal_fuel (S f1) n rest = decimal_fuel (S f2) n rest.
Proof.
  intros H1 H2. destruct (Z.eq_dec n 0) as [-> | Hn]; [reflexivity|].
  apply decimal_fuel_enough; lia.
Qed.

Lemma digits_decimal (w : nat) : forall n rest,
  0 <= n < 10 ^ Z.of_nat (S w) ->
  exists zeros, digits (S w) n rest = zeros_then zeros (decimal n rest).
Proof.
  assert (Hfuel : forall w n rest, 0 <= n < 10 ^ Z.of_nat (S w) ->
            exists zeros, digits (S w) n rest
                          = zeros_then zeros (decimal_fuel (S w) n rest)).
  { clear. induction w as [|w IH]; intros n rest Hn.
    - exists O. cbn. change (10 ^ Z.of_nat 1) with 10 in Hn.
      replace (n / 10 =? 0) with true by (symmetry; apply Z.eqb_eq; div_lia).
      reflexivity.
    - rewrite Nat2Z.inj_succ, Z.pow_succ_r in Hn by lia.
      change (digits (S (S w)) n rest)
        with (digits (S w) (n / 10) (String (digit_char (n mod 10)) rest)).
      cbn [decimal_fuel]. destruct (n / 10 =? 0) eqn:E.
      + apply Z.eqb_eq in E. rewrite E, digits_zero. eauto.
      + apply IH. div_lia. }
  intros n rest Hn. destruct (Hfuel w n rest Hn) as (zeros & H).
  exists zeros. rewrite H. unfold decimal, nb_digits. f_equal.
  apply decimal_fuel_S; [exact Hn|].
  apply (nb_digits_enough n). lia.
Qed.

(** A run of digits is its value written in decimal after some zeros. *)
Lemma digits_text_decimal (s : string) :
  all_digits s = true -> s <> EmptyString ->
  exists zeros, s = zeros_then zeros (decimal (digits_value s 0) "").
Proof.
  intros Hall Hne.
  pose proof (scan_digits_whole s 0 Hall) as Hscan.
  destruct (String.length s) as [|w] eqn:El.
  { destruct s; [contradiction|discriminate]. }
  apply scan_digits_inv in Hscan. destruct Hscan as (n & Hn & Hv & Hs).
  replace (digits_value s 0) with n by lia.
  destruct (digits_decimal w n "" Hn) as (zeros & Hz).
  exists zeros. rewrite <- Hz. exact Hs.
Qed.

Lemma match_atoms_split (p : list atom) : forall s m r,
  match_atoms p s = Some (m, r) ->
  s = (m ++ r)%string
  /\ forall r', match_atoms p (m ++ r')%string = Some (m, r').
Proof.
  induction p as [|a p IH]; intros s m r H; cbn in H.
  - injection H as <- <-. split; reflexivity.
  - destruct s as [|c s]; [discriminate|].
    destruct (atom_matches a c) eqn:Ea; [|discriminate].
    destruct (match_atoms p s) as [[m' r0]|] eqn:Em; [|discriminate].
    injection H as <- <-. destruct (IH _ _ _ Em) as [-> Hr].
    split; [reflexivity|]. intros r'. cbn. rewrite Ea, Hr. reflexivity.
Qed.

Lemma span_digits_split (s : string) : forall ds tail,
  span_digits s = (ds, tail) ->
  s = (ds ++ tail)%string /\ all_digits ds = true.
Proof.
  induction s as [|c s IH]; intros ds tail H; cbn in H.
  - injection H as <- <-. split; reflexivity.
  - destruct (is_digit c) eqn:Ec.
    + destruct (span_digits s) as [m r] eqn:Es. injection H as <- <-.
      destruct (IH _ _ eq_refl) as [-> Hall]. split; [reflexivity|].
      cbn. rewrite Ec. exact Hall.
    + injection H as <- <-. split; reflexivity.
Qed.

Lemma span_digits_app (ds tail : string) :
  all_digits ds = true ->
  (tail = EmptyString \/ exists c r, tail = String c r /\ is_digit c = false) ->
  span_digits (ds ++ tail)%string = (ds, tail).
Proof.
  intros Hall Htail. induction ds as [|c ds IH]; cbn in *.
  - destruct Htail as [-> | (c & r & -> & Hc)]; [reflexivity|].
    cbn. rewrite Hc. reflexivity.
  - apply andb_true_iff in Hall. destruct Hall as [-> Hall].
    rewrite (IH Hall). reflexivity.
Qed.

Lemma scan_lit_inv (a : ascii) (s s' : string) :
  scan_lit a s = Some s' -> s = String a s'.
Proof.
  destruct s as [|c s]; cbn; [discriminate|].
  destruct (Ascii.eqb a c) eqn:E; [|discriminate].
  apply Ascii.eqb_eq in E. subst c. intros H. injection H as ->. reflexivity.
Qed.

Lemma scan_civil_inv (s : string) (c : civil_time) :
  scan_civil s = Some c ->
  s = format_civil c ""
  /\ 0 <= year c <= 9999 /\ 0 <= month c <= 99 /\ 0 <= day c <= 99
  /\ 0 <= hour c <= 99 /\ 0 <= minute c <= 99 /\ 0 <= second c <= 99
  /\ 0 <= micros c <= 999999.
Proof.
  unfold scan_civil. intros H.
  repeat match type of H with
  | match scan_digits ?w ?s0 0 with _ => _ end = _ =>
      let E := fresh "E" in
      destruct (scan_digits w s0 0) as [[? ?]|] eqn:E; [|discriminate];
      apply scan_digits_inv in E; destruct E as (? & ? & ? & ?)
  | match scan_lit ?a ?s0 with _ => _ end = _ =>
      let E := fresh "E" in
      destruct (scan_lit a s0) eqn:E; [|discriminate];
      apply scan_lit_inv in E
  | match ?s0 with EmptyString => _ | String _ _ => _ end = _ =>
      destruct s0; [|discriminate]
  end.
  injection H as <-. subst. cbn [year month day hour minute second micros].
  change (10 ^ Z.of_nat 4) with 10000 in *.
  change (10 ^ Z.of_nat 2) with 100 in *.
  change (10 ^ Z.of_nat 6) with 1000000 in *.
  split; [|lia].
  unfold format_civil, format_year. cbn [year month day hour minute second micros].
  rewrite !Z.mul_0_l, !Z.add_0_l.
  match goal with |- context [?y <? 0] =>
    replace (y <? 0) with false by (symmetry; apply Z.ltb_ge; lia) end.
  match goal with |- context [?y <? 10000] =>
    replace (y <? 10000) with true by (symmetry; apply Z.ltb_lt; lia) end.
  reflexivity.
Qed.

Lemma valid_civil_fields (c : civil_time) :
  valid_civil c = true ->
  1 <= month c <= 12 /\ 1 <= day c <= 31 /\ hour c <= 23 /\ minute c <= 59
  /\ second c <= 59
  /\ civil_from_days (days_from_civil (year c) (month c) (day c))
     = (year c, month c, day c).
Proof.
  unfold valid_civil. intros Ev.
  repeat (apply andb_true_iff in Ev; destruct Ev as [Ev ?]).
  repeat match goal with H : (_ <=? _) = true |- _ => apply Z.leb_le in H end.
  destruct (civil_from_days _) as [[y m] d].
  repeat match goal with H : (_ && _) = true |- _ =>
    apply andb_true_iff in H; destruct H end.
  repeat match goal with H : (_ =? _) = true |- _ => apply Z.eqb_eq in H end.
  subst. repeat split; lia.
Qed.


Lemma days_from_civil_range (y m d : Z) :
  0 <= y <= 9999 -> 1 <= m <= 12 -> 1 <= d <= 31 ->
  -719528 <= days_from_civil y m d < 2932897.
Proof.
  intros Hy Hm Hd. unfold days_from_civil.
  destruct (m <=? 2) eqn:E1; destruct (2 <? m) eqn:E2;
    try apply Z.leb_le in E1; try apply Z.leb_gt in E1;
    try apply Z.ltb_lt in E2; try apply Z.ltb_ge in E2; div_lia.
Qed.

(** What a name accepted by [parse_dump_name] is made of. *)
Lemma parse_dump_name_inv (name : string) (d : ParsedDumpName.t) :
  parse_dump_name name = Some d ->
  exists (c : civil_time) (version : string),
    name = format_civil c (String "-" (String "v" version))
    /\ valid_civil c = true
    /\ 0 <= year c <= 9999 /\ 0 <= hour c /\ 0 <= minute c /\ 0 <= second c
    /\ 0 <= micros c <= 999999
    /\ all_digits version = true /\ version <> EmptyString
    /\ d = ParsedDumpName.mk name (time_of_civil c) (digits_value version 0)
    /\ 0 <= digits_value version 0 < 2 ^ 64
    /\ in_clock_range (time_of_civil c).
Proof.
  unfold parse_dump_name, regex_match.
  cbn [filename_regex_ GenerateFilenameRegex re_date re_separator re_suffix].
  destruct (match_atoms date_atoms name) as [[date r]|] eqn:Ed; [|discriminate].
  destruct (match_atoms [Lit "-"; Lit "v"] r) as [[sep r']|] eqn:Es; [|discriminate].
  destruct (span_digits r') as [version tail] eqn:Ev.
  destruct version as [|v0 version]; [discriminate|].
  destruct (String.eqb tail "") eqn:Et; [|discriminate].
  apply String.eqb_eq in Et. subst tail.
  unfold decode_dump_name, Stringtime.
  destruct (scan_civil date) as [c|] eqn:Ec; [|discriminate].
  destruct (valid_civil c) eqn:Evalid; [|discriminate].
  cbv zeta.
  destruct ((- 2 ^ 63 <=? time_of_civil c * 1000)
            && (time_of_civil c * 1000 <? 2 ^ 63)) eqn:Efit; [|discriminate].
  assert (Hfit : in_clock_range (time_of_civil c)).
  { apply andb_true_iff in Efit. destruct Efit as [E1 E2].
    apply Z.leb_le in E1. apply Z.ltb_lt in E2.
    unfold in_clock_range, kFirstClockTime, kLastClockTime. lia. }
  unfold FromString_uint64.
  destruct (all_digits (String v0 version)) eqn:Eall; [|discriminate].
  destruct (digits_value (String v0 version) 0 <? 2 ^ 64) eqn:Elt; [|discriminate].
  intros H. injection H as <-.
  rewrite <- (ChronoFacts.to_system_time_exact (time_of_civil c) Hfit).
  rewrite Round_to_system_time by exact Hfit.
  apply match_atoms_split in Ed. destruct Ed as [-> _].
  apply span_digits_split in Ev. destruct Ev as [-> _].
  assert (Hr : r = String "-" (String "v" (String v0 version ++ ""))).
  { revert Es. clear. destruct r as [|a r]; [discriminate|].
    cbn [match_atoms atom_matches].
    destruct (Ascii.eqb "-" a) eqn:Ea; [|discriminate].
    destruct r as [|b r]; [discriminate|].
    destruct (Ascii.eqb "v" b) eqn:Eb; [|discriminate].
    apply Ascii.eqb_eq in Ea, Eb. subst. intros H. injection H as _ ->. reflexivity. }
  rewrite append_nil_r in Hr. subst r.
  apply scan_civil_inv in Ec.
  destruct Ec as (-> & Hy & _ & _ & Hh & Hmi & Hs & Hu).
  exists c, (String v0 version). rewrite <- format_civil_app.
  split; [reflexivity|]. split; [exact Evalid|].
  repeat (split; [lia|]). split; [exact Eall|]. split; [discriminate|].
  split; [reflexivity|]. split; [|exact Hfit].
  apply Z.ltb_lt in Elt. split; [|exact Elt].
  clear -Eall.
  assert (G : forall s acc, 0 <= acc -> all_digits s = true -> 0 <= digits_value s acc).
  { induction s as [|x s IH]; intros acc Ha H; cbn in *; [exact Ha|].
    apply andb_true_iff in H. destruct H as [Hx H].
    apply IH; [|exact H]. apply is_digit_val_range in Hx. lia. }
  apply G; [lia|exact Eall].
Qed.

End DecodeFacts.
Import DecodeFacts.

(** Property X7.  A name that [ParseDumpName] accepts comes back as the
    [filename] of the result, with an update time within the years 0000 to
    9999 (in microseconds since the epoch) and a format version in
    [0, 2^64); and parsing changes nothing, not even the log.  (The
    conversions [utils::datetime::Stringtime] and
    [utils::FromString<uint64_t>] are modelled.) *)
Theorem ParseDumpName_bounds (filename : string) (w w' : World)
  (d : ParsedDumpName.t) :
  ParseDumpName filename w = (Ok (Some d), w') ->
  ParsedDumpName.filename d = filename
  /\ kMinDumpTime <= ParsedDumpName.update_time d < kEndDumpTime
  /\ 0 <= ParsedDumpName.format_version d < 2 ^ 64
  /\ w' = w.
Proof.
  intros H.
  assert (Hp : parse_dump_name filename = Some d).
  { destruct (ParseDumpName_run filename w) as (w1 & Hrun & _).
    rewrite Hrun in H. injection H as H _. exact H. }
  rewrite (ParseDumpName_parsed filename d w Hp) in H.
  assert (Hw : w' = w) by congruence. subst w'. clear H.
  destruct (parse_dump_name_inv filename d Hp)
    as (c & version & _ & Hvalid & Hy & Hh & Hmi & Hs & Hu & _ & _ & -> & Hv & _).
  cbn [ParsedDumpName.filename ParsedDumpName.update_time
       ParsedDumpName.format_version].
  split; [reflexivity|]. split; [|split; [exact Hv|reflexivity]].
  destruct (valid_civil_fields c Hvalid) as (Hm & Hd & Hh' & Hmi' & Hs' & _).
  pose proof (days_from_civil_range (year c) (month c) (day c) Hy Hm Hd) as Hz.
  unfold time_of_civil, kMinDumpTime, kEndDumpTime, us_per_day, us_per_second.
  nia.
Qed.

Lemma ParseDumpName_bounds_witness :
  let d := MoreExamples.parsed_v3 in
  ParseDumpName Examples.name_v3 Examples.one_dump
  = (Ok (Some d), Examples.one_dump)
  /\ ParsedDumpName.filename d = Examples.name_v3
  /\ kMinDumpTime <= ParsedDumpName.update_time d < kEndDumpTime
  /\ 0 <= ParsedDumpName.format_version d < 2 ^ 64
  /\ Examples.one_dump = Examples.one_dump.
Proof.
  cbv zeta.
  assert (H : ParseDumpName Examples.name_v3 Examples.one_dump
              = (Ok (Some MoreExamples.parsed_v3), Examples.one_dump))
    by (vm_compute; reflexivity).
  split; [exact H|].
  exact (ParseDumpName_bounds Examples.name_v3 Examples.one_dump
           Examples.one_dump MoreExamples.parsed_v3 H).
Defined.



(* ================================================================= *)
(** * Further properties: selection, and files of other kinds *)

Module SelectionFacts.

Lemma regex_match_inv (s : string) (re : filename_regex) (date version : string) :
  regex_match s re = Some (date, version) ->
  re_separator re = [Lit "-"; Lit "v"] ->
  s = (date ++ String "-" (String "v" (version ++ re_suffix re)))%string
  /\ all_digits version = true /\ version <> EmptyString
  /\ forall r', match_atoms (re_date re) (date ++ r')%string = Some (date, r').
Proof.
  unfold regex_match. intros H Hsep. rewrite Hsep in H.
  destruct (match_atoms (re_date re) s) as [[m r]|] eqn:Ed; [|discriminate].
  destruct (match_atoms [Lit "-"; Lit "v"] r) as [[sep r']|] eqn:Es; [|discriminate].
  destruct (span_digits r') as [ds tail] eqn:Ev.
  destruct ds as [|v0 ds]; [discriminate|].
  destruct (String.eqb tail (re_suffix re)) eqn:Et; [|discriminate].
  injection H as <- <-. apply String.eqb_eq in Et. subst tail.
  apply match_atoms_split in Ed. destruct Ed as [-> Hd].
  apply span_digits_split in Ev. destruct Ev as [-> Hall].
  assert (Hr : r = String "-" (String "v" (String v0 ds ++ re_suffix re))).
  { revert Es. clear. destruct r as [|a r]; [discriminate|].
    cbn [match_atoms atom_matches].
    destruct (Ascii.eqb "-" a) eqn:Ea; [|discriminate].
    destruct r as [|b r]; [discriminate|].
    destruct (Ascii.eqb "v" b) eqn:Eb; [|discriminate].
    apply Ascii.eqb_eq in Ea, Eb. subst. intros H. injection H as _ ->. reflexivity. }
  subst r. split; [reflexivity|]. split; [exact Hall|]. split; [discriminate|exact Hd].
Qed.

Lemma regex_match_intro (re : filename_regex) (date version : string) :
  re_separator re = [Lit "-"; Lit "v"] ->
  (forall r', match_atoms (re_date re) (date ++ r')%string = Some (date, r')) ->
  all_digits version = true -> version <> EmptyString ->
  (re_suffix re = EmptyString
   \/ exists c r, re_suffix re = String c r /\ is_digit c = false) ->
  regex_match (date ++ String "-" (String "v" (version ++ re_suffix re)))%string re
  = Some (date, version).
Proof.
  intros Hsep Hd Hall Hne Hsuf. unfold regex_match. rewrite Hd, Hsep.
  cbn [match_atoms atom_matches]. rewrite !Ascii.eqb_refl.
  rewrite span_digits_app by assumption.
  destruct version; [contradiction|]. rewrite String.eqb_refl. reflexivity.
Qed.

Lemma pick_Some_stays (config : CacheConfigStatic) (m : TimePoint)
  (d : ParsedDumpName.t) (l : list Fs.directory_entry) :
  (forall e d', In e l -> pick config m None e = Some d' ->
                ParsedDumpName.update_time d' <= ParsedDumpName.update_time d) ->
  fold_left (pick config m) l (Some d) = Some d.
Proof.
  induction l as [|e l IH]; intros H; cbn [fold_left]; [reflexivity|].
  rewrite pick_candidate.
  destruct (pick config m None e) as [c|] eqn:Ec.
  - pose proof (H e c (or_introl eq_refl) Ec) as Hle.
    replace (ParsedDumpName.update_time d <? ParsedDumpName.update_time c)
      with false by (symmetry; apply Z.ltb_ge; exact Hle).
    apply IH. intros e' d' He'. apply H. right. exact He'.
  - apply IH. intros e' d' He'. apply H. right. exact He'.
Qed.

Lemma fold_pick_first_newest (config : CacheConfigStatic) (m : TimePoint)
  (l1 l2 : list Fs.directory_entry) (e : Fs.directory_entry)
  (d : ParsedDumpName.t) :
  pick config m None e = Some d ->
  (forall e' d', In e' l1 -> pick config m None e' = Some d' ->
                 ParsedDumpName.update_time d' < ParsedDumpName.update_time d) ->
  (forall e' d', In e' l2 -> pick config m None e' = Some d' ->
                 ParsedDumpName.update_time d' <= ParsedDumpName.update_time d) ->
  fold_left (pick config m) (l1 ++ e :: l2) None = Some d.
Proof.
  intros He H1 H2. rewrite fold_left_app. cbn [fold_left].
  rewrite pick_candidate, He.
  pose proof (fold_pick_spec config m l1 None) as Hs.
  destruct (fold_left (pick config m) l1 None) as [b|].
  - destruct Hs as ([Hb | (e' & He' & Hp)] & _); [discriminate|].
    pose proof (H1 e' b He' Hp) as Hlt.
    replace (ParsedDumpName.update_time b <? ParsedDumpName.update_time d)
      with true by (symmetry; apply Z.ltb_lt; exact Hlt).
    apply pick_Some_stays. exact H2.
  - apply pick_Some_stays. exact H2.
Qed.

End SelectionFacts.
Import SelectionFacts.

(** Property X9.  The pattern of temporary files accepts exactly the names
    [name ++ ".tmp"] whose [name] the pattern of dumps accepts, with the
    same two captures; and no name is accepted by both patterns, so the
    two branches of the retention loop never compete for a file. *)
Theorem tmp_name_is_dump_name_with_suffix (s : string) (caps : string * string) :
  (regex_match s tmp_filename_regex_ = Some caps
   <-> exists name, s = (name ++ ".tmp")%string
                    /\ regex_match name filename_regex_ = Some caps)
  /\ (regex_match s tmp_filename_regex_ = Some caps ->
      regex_match s filename_regex_ = None).
Proof.
  destruct caps as [date version]. split; [split|].
  - intros H. apply regex_match_inv in H; [|reflexivity].
    destruct H as (-> & Hall & Hne & Hd).
    exists (date ++ String "-" (String "v" version))%string. split.
    + rewrite append_assoc. reflexivity.
    + pose proof (regex_match_intro filename_regex_ date version eq_refl Hd
                    Hall Hne (or_introl eq_refl)) as H.
      cbn [filename_regex_ GenerateFilenameRegex re_suffix] in H.
      rewrite append_nil_r in H. exact H.
  - intros (name & -> & H). apply regex_match_inv in H; [|reflexivity].
    destruct H as (-> & Hall & Hne & Hd).
    cbn [filename_regex_ GenerateFilenameRegex re_suffix] in *.
    rewrite append_nil_r, append_assoc. cbn [append].
    apply (regex_match_intro tmp_filename_regex_ date version eq_refl Hd Hall Hne).
    right. exists "."%char, "tmp". split; reflexivity.
  - intros H. destruct (regex_match s filename_regex_) as [caps|] eqn:E; [|reflexivity].
    rewrite (normal_not_tmp s caps E) in H. discriminate.
Qed.

Lemma tmp_name_is_dump_name_with_suffix_witness :
  regex_match Examples.name_tmp_a tmp_filename_regex_
  = Some ("2024-01-02T03:04:05.000000", "3")
  /\ regex_match Examples.name_tmp_a filename_regex_ = None.
Proof.
  assert (H : regex_match Examples.name_tmp_a tmp_filename_regex_
              = Some ("2024-01-02T03:04:05.000000", "3")).
  { apply (proj1 (tmp_name_is_dump_name_with_suffix Examples.name_tmp_a
                    ("2024-01-02T03:04:05.000000", "3"))).
    exists Examples.name_v3. split; vm_compute; reflexivity. }
  split; [exact H|].
  exact (proj2 (tmp_name_is_dump_name_with_suffix Examples.name_tmp_a
                  ("2024-01-02T03:04:05.000000", "3")) H).
Defined.

(** Property X10.  Over the part of the dump directory that the walk reaches
    before it fails (all of it when it does not fail),
    [GetLatestDumpNameBlocking] returns the name of the first usable dump
    among those of greatest update time: a later dump replaces the best
    one only when strictly newer.  It returns nothing when no usable
    dump was reached.  In both cases it returns normally and only
    adds log lines, so a failing walk still yields the best dump seen so
    far.  This is for an age limit [Round(now) - max_dump_age] that is a
    [TimePoint], so that the 64-bit subtraction of
    [MinAcceptableUpdateTime] does not wrap. *)
Theorem GetLatestDumpNameBlocking_first_among_newest (env : Env)
  (config : CacheConfigStatic) (w : World) :
  let seen := walked env (dump_directory config) (files w) in
  age_limit_fits (Now env) config ->
  (forall l1 e l2 d,
     seen = l1 ++ e :: l2 ->
     usable (Now env) config e d ->
     (forall e' d', In e' l1 -> usable (Now env) config e' d' ->
        ParsedDumpName.update_time d' < ParsedDumpName.update_time d) ->
     (forall e' d', In e' l2 -> usable (Now env) config e' d' ->
        ParsedDumpName.update_time d' <= ParsedDumpName.update_time d) ->
     exists w', GetLatestDumpNameBlocking env config w
                = (Ok (Some (Fs.filename e)), w')
                /\ only_logs w w')
  /\ ((forall e d, In e seen -> ~ usable (Now env) config e d) ->
      exists w', GetLatestDumpNameBlocking env config w = (Ok None, w')
                 /\ only_logs w w').
Proof.
  intros seen Hfit. destruct (GetLatestDumpNameBlocking_run env config w)
    as (w' & Hrun & Hlogs).
  fold seen in Hrun. split.
  - intros l1 e l2 d Hseen Hu H1 H2.
    exists w'. split; [|exact Hlogs]. rewrite Hrun, Hseen.
    rewrite (fold_pick_first_newest config (MinAcceptableUpdateTime env config)
               l1 l2 e d).
    + cbn [option_map]. destruct Hu as [[_ Hp] _].
      rewrite (parse_dump_name_filename _ _ Hp). reflexivity.
    + apply usable_candidate; assumption.
    + intros e' d' He' Hp. apply (H1 e' d' He'). apply candidate_usable. exact Hp.
    + intros e' d' He' Hp. apply (H2 e' d' He'). apply candidate_usable. exact Hp.
  - intros Hnone. exists w'. split; [|exact Hlogs]. rewrite Hrun.
    pose proof (fold_pick_spec config (MinAcceptableUpdateTime env config) seen None) as Hs.
    destruct (fold_left _ seen None) as [d|]; [|reflexivity].
    destruct Hs as ([Hb | (e & He & Hp)] & _); [discriminate|].
    apply candidate_usable in Hp. exfalso. exact (Hnone e d He Hp).
Qed.

Lemma GetLatestDumpNameBlocking_first_among_newest_witness :
  let env := quiet Examples.now in
  let w := Examples.aged in
  age_limit_fits (Now env) (config_ w)
  /\ exists w',
       GetLatestDumpNameBlocking env (config_ w) w
       = (Ok (Some MoreExamples.name_fresh), w')
       /\ only_logs w w'.
Proof.
  cbv zeta.
  assert (Hfit : age_limit_fits (Now (quiet Examples.now))
                   (config_ Examples.aged))
    by (intros bound Hb; vm_compute in Hb; injection Hb as <-;
        vm_compute; discriminate).
  split; [exact Hfit|].
  refine (proj1 (GetLatestDumpNameBlocking_first_among_newest
                   (quiet Examples.now) (config_ Examples.aged) Examples.aged
                   Hfit)
            [MoreExamples.entry MoreExamples.name_stale]
            (MoreExamples.entry MoreExamples.name_fresh) []
            MoreExamples.parsed_fresh _ _ _ _).
  - vm_compute. reflexivity.
  - split; [split; vm_compute; reflexivity|]. split; [reflexivity|].
    intros bound Hb. vm_compute in Hb. injection Hb as <-.
    vm_compute. discriminate.
  - intros e' d' [<- | []] [[_ Hp] _]. vm_compute in Hp.
    injection Hp as <-. vm_compute. reflexivity.
  - intros e' d' [].
Defined.

Lemma treat_foreign (config : CacheConfigStatic) (m : TimePoint)
  (e : Fs.directory_entry) :
  regex_match (Fs.filename e) tmp_filename_regex_ = None ->
  parse_dump_name (Fs.filename e) = None ->
  treat config m e = Skipped.
Proof.
  intros Ht Hp. unfold treat. rewrite Ht, Hp.
  destruct (negb _); reflexivity.
Qed.

(** Property X11.  Whatever fails around it, [Cleanup] leaves every file in
    place that lies outside the dump directory (or deeper inside it), and
    every file of the dump directory whose name neither matches the
    pattern of temporary files nor parses as a dump. *)
Theorem Cleanup_leaves_foreign_files (env : Env) (w : World) (p : string)
  (f : Fs.file) :
  let dir := dump_directory (config_ w) in
  In (p, f) (files w) ->
  (Fs.child_name dir p = None
   \/ exists name, Fs.child_name dir p = Some name
                   /\ regex_match name tmp_filename_regex_ = None
                   /\ parse_dump_name name = None) ->
  exists w', Cleanup env w = (Ok tt, w') /\ In (p, f) (files w').
Proof.
  intros dir Hin Hforeign.
  destruct (Cleanup_run env w) as (w' & Hrun & Hf & _).
  exists w'. split; [exact Hrun|]. rewrite Hf.
  destruct (cleanup_files_outcome env (config_ w) (files w))
    as (pre & gone & Hpre & Hgone & ->).
  set (config := config_ w) in *.
  set (m := MinAcceptableUpdateTime env config) in *.
  assert (Hskip : forall e, In e pre -> Fs.path e = p -> treat config m e = Skipped).
  { intros e He Hp. pose proof (Hpre e He) as He'. apply In_entries in He'.
    destruct He' as (_ & _ & Hc & _). rewrite Hp in Hc. fold dir in Hc.
    destruct Hforeign as [Hn | (name & Hn & Ht & Hparse)]; [congruence|].
    assert (Fs.filename e = name) by congruence. subst name.
    apply treat_foreign; assumption. }
  apply In_erase_all. split; [apply In_erase_all; split; [exact Hin|]|]; cbn [fst].
  - intros Hr. apply removed_paths_inv in Hr. destruct Hr as (e & He & Hp & Ht).
    rewrite (Hskip e He Hp) in Ht. discriminate.
  - intros Hr. apply in_map_iff in Hr. destruct Hr as (d' & Hpath & Hd').
    apply Hgone, kept_In in Hd'. destruct Hd' as (e & He & Ht).
    pose proof (treat_Kept config m e d' Ht) as [[_ Hp'] _].
    assert (Hpath' : Fs.path e = p).
    { rewrite (entry_path config (files w) e (Hpre e He)).
      rewrite <- (parse_dump_name_filename _ _ Hp'). exact Hpath. }
    rewrite (Hskip e He Hpath') in Ht. discriminate.
Qed.

Lemma Cleanup_leaves_foreign_files_witness :
  let env := quiet Examples.now in
  let w := MoreExamples.with_foreign in
  let dir := dump_directory (config_ w) in
  let f := snd (Examples.dump_file "README" "notes") in
  In ("/d/README", f) (files w)
  /\ (Fs.child_name dir "/d/README" = None
      \/ exists name, Fs.child_name dir "/d/README" = Some name
                      /\ regex_match name tmp_filename_regex_ = None
                      /\ parse_dump_name name = None)
  /\ exists w', Cleanup env w = (Ok tt, w') /\ In ("/d/README", f) (files w').
Proof.
  cbv zeta.
  assert (H1 : In ("/d/README", snd (Examples.dump_file "README" "notes"))
                 (files MoreExamples.with_foreign))
    by (vm_compute; left; reflexivity).
  assert (H2 : Fs.child_name (dump_directory (config_ MoreExamples.with_foreign))
                 "/d/README" = None
               \/ exists name,
                    Fs.child_name (dump_directory (config_ MoreExamples.with_foreign))
                      "/d/README" = Some name
                    /\ regex_match name tmp_filename_regex_ = None
                    /\ parse_dump_name name = None)
    by (right; exists "README"; repeat split; vm_compute; reflexivity).
  split; [exact H1|]. split; [exact H2|].
  exact (Cleanup_leaves_foreign_files (quiet Examples.now)
           MoreExamples.with_foreign _ _ H1 H2).
Defined.

Lemma erase_absent (p : string) (fs : Fs.t) :
  Fs.lookup p fs = None -> Fs.erase p fs = fs.
Proof.
  unfold Fs.lookup, Fs.erase. induction fs as [|e fs IH]; cbn; [reflexivity|].
  destruct (String.eqb (fst e) p); [discriminate|].
  intros H. cbn. rewrite (IH H). reflexivity.
Qed.

(** Property X12.  Whatever fails around it, and whether it returns or
    throws, [WriteNewDump] leaves every file that was there as it was,
    under its path and with its contents, except what was at the side
    file [path.tmp] of the target path: the atomic write goes through
    that side file, and a successful write leaves nothing there. *)
Theorem WriteNewDump_keeps_other_files (env : Env) (dump : DumpContents.t)
  (w : World) (x : string * Fs.file) :
  let dump_path := GenerateDumpPath (DumpContents.update_time dump) (config_ w) in
  In x (files w) ->
  fst x <> (dump_path ++ ".tmp")%string ->
  In x (files (snd (WriteNewDump env dump w))).
Proof.
  intros dump_path Hin Hne.
  unfold WriteNewDump, bind, Read_config, FileExists, try_catch,
    RewriteFileContentsAtomically, get_files, set_files, LOG, ret, throw.
  fold dump_path.
  destruct (exists_fault env _); cbn; [exact Hin|].
  destruct (Fs.lookup _ (files w)) eqn:El; cbn; [exact Hin|].
  destruct (write_fault env _); cbn; [exact Hin|].
  apply In_written. right. split; [exact Hin|]. split; [|exact Hne].
  intros Heq. apply (lookup_None_not_In _ _ El). rewrite <- Heq.
  apply in_map. exact Hin.
Qed.

Lemma WriteNewDump_keeps_other_files_witness :
  let env := quiet Examples.now in
  let w := Examples.one_dump in
  let x := Examples.dump_file Examples.name_v3 "hello" in
  let dump_path :=
    GenerateDumpPath (DumpContents.update_time MoreExamples.later_dump)
      (config_ w) in
  In x (files w)
  /\ fst x <> (dump_path ++ ".tmp")%string
  /\ fst (WriteNewDump env MoreExamples.later_dump w) = Ok true
  /\ In x (files (snd (WriteNewDump env MoreExamples.later_dump w))).
Proof.
  cbv zeta.
  assert (H : In (Examples.dump_file Examples.name_v3 "hello")
                (files Examples.one_dump)) by (left; reflexivity).
  assert (Hne : fst (Examples.dump_file Examples.name_v3 "hello")
                <> (GenerateDumpPath
                      (DumpContents.update_time MoreExamples.later_dump)
                      (config_ Examples.one_dump) ++ ".tmp")%string)
    by (vm_compute; discriminate).
  split; [exact H|]. split; [exact Hne|]. split; [vm_compute; reflexivity|].
  exact (WriteNewDump_keeps_other_files (quiet Examples.now)
           MoreExamples.later_dump Examples.one_dump _ H Hne).
Defined.

(** A leftover side file at [path.tmp] does not survive a successful
    write to [path]. *)
Example WriteNewDump_consumes_leftover_side_file :
  let after := WriteNewDump (quiet Examples.now) Examples.hello
                 Examples.leftover_side_file in
  fst after = Ok true
  /\ files (snd after)
     = [Examples.dump_file "2024-01-02T03:04:01.000000-v3" "1";
        Examples.dump_file Examples.name_v3 "hello"].
Proof. vm_compute. split; reflexivity. Qed.

(* ================================================================= *)
(** * Further properties: what retention keeps *)

Module NewestFacts.

Lemma insert_newer_sorted (a : ParsedDumpName.t) (l : list ParsedDumpName.t) :
  StronglySorted newest_first l -> StronglySorted newest_first (insert_newer a l).
Proof.
  induction 1 as [|b l Hs IH Hall]; cbn.
  - constructor; constructor.
  - unfold newer. destruct (ParsedDumpName.update_time a <? ParsedDumpName.update_time b) eqn:E.
    + apply Z.ltb_lt in E. constructor; [exact IH|].
      assert (Hin : forall x, In x (insert_newer a l) -> x = a \/ In x l).
      { intros x Hx.
        apply (Permutation_in x (Permutation_sym (insert_newer_perm a l))) in Hx.
        destruct Hx; auto. }
      apply Forall_forall. intros x Hx. destruct (Hin x Hx) as [-> | Hx'].
      * unfold newest_first. lia.
      * rewrite Forall_forall in Hall. apply Hall. exact Hx'.
    + apply Z.ltb_ge in E. constructor; [constructor; assumption|].
      constructor; [exact E|].
      eapply Forall_impl; [|exact Hall]. unfold newest_first. intros; lia.
Qed.

Lemma sort_newer_sorted (l : list ParsedDumpName.t) :
  StronglySorted newest_first (sort_newer l).
Proof.
  induction l as [|a l IH]; cbn; [constructor|].
  apply insert_newer_sorted. exact IH.
Qed.

Lemma sorted_app_inv (a b : list ParsedDumpName.t) (x y : ParsedDumpName.t) :
  StronglySorted newest_first (a ++ b) -> In x a -> In y b -> newest_first x y.
Proof.
  induction a as [|z a IH]; cbn; intros Hs Hx Hy; [contradiction|].
  inversion Hs as [|? ? Hs' Hall]; subst.
  destruct Hx as [-> | Hx]; [|eauto].
  rewrite Forall_forall in Hall. apply Hall. apply in_or_app. right. exact Hy.
Qed.

Lemma filter_all {A} (f : A -> bool) (l : list A) :
  (forall x, In x l -> f x = true) -> filter f l = l.
Proof.
  intros H. apply forallb_filter_id. apply forallb_forall. exact H.
Qed.

(** A dump in the excess part of the sorted keep-list has more than
    [max_dump_count] dumps at least as new as itself. *)
Lemma excess_has_rivals (n : nat) (l : list ParsedDumpName.t)
  (d : ParsedDumpName.t) :
  In d (skipn n (sort_newer l)) ->
  (n < List.length (filter (not_older d) l))%nat.
Proof.
  intros Hd. set (sorted := sort_newer l) in *.
  rewrite (filter_length_perm (not_older d) l sorted (sort_newer_perm l)).
  pose proof (sort_newer_sorted l) as Hs. fold sorted in Hs.
  rewrite <- (firstn_skipn n sorted) in Hs |- *.
  rewrite filter_app, length_app.
  assert (Hfirst : filter (not_older d) (firstn n sorted) = firstn n sorted).
  { apply filter_all. intros x Hx. unfold not_older. apply Z.leb_le.
    exact (sorted_app_inv _ _ x d Hs Hx Hd). }
  rewrite Hfirst, length_firstn.
  assert (Hlen : (n < List.length sorted)%nat).
  { destruct (Nat.lt_ge_cases n (List.length sorted)) as [H|H]; [exact H|].
    rewrite (skipn_all2 sorted H) in Hd. contradiction. }
  assert (Hd' : In d (filter (not_older d) (skipn n sorted))).
  { apply filter_In. split; [exact Hd|]. unfold not_older. apply Z.leb_refl. }
  destruct (filter (not_older d) (skipn n sorted)); [contradiction|]. cbn. lia.
Qed.

Lemma kept_rivals (config : CacheConfigStatic) (m : TimePoint)
  (d : ParsedDumpName.t) (l : list Fs.directory_entry) :
  (List.length (filter (not_older d) (kept config m l))
   <= List.length (filter (fun e => is_current config e && at_least_as_new d e) l))%nat.
Proof.
  induction l as [|e l IH]; [cbn; lia|].
  change (kept config m (e :: l))
    with ((match treat config m e with Kept d' => [d'] | _ => [] end)
          ++ kept config m l).
  rewrite filter_app, length_app. cbn [filter].
  destruct (treat config m e) as [|d'|] eqn:Et.
  - cbn. destruct (_ && _); cbn; lia.
  - destruct (treat_Kept config m e d' Et) as ([Hreg Hp] & Hv & _).
    unfold is_current, at_least_as_new. rewrite Hreg, Hp, Hv, Z.eqb_refl.
    cbn [andb filter]. unfold not_older at 1.
    destruct (ParsedDumpName.update_time d <=? ParsedDumpName.update_time d');
      cbn; unfold is_current, at_least_as_new in IH; lia.
  - cbn. destruct (_ && _); cbn; lia.
Qed.

Lemma treat_Kept_intro (env : Env) (config : CacheConfigStatic)
  (e : Fs.directory_entry) (d : ParsedDumpName.t) :
  age_limit_fits (Now env) config ->
  is_dump e d ->
  ParsedDumpName.format_version d = dump_format_version config ->
  not_expired (Now env) config d ->
  treat config (MinAcceptableUpdateTime env config) e = Kept d.
Proof.
  intros Hfit [Hreg Hp] Hv Hn. unfold treat. rewrite Hreg. cbn [negb].
  rewrite (parse_not_tmp _ _ Hp), Hp, Hv, Z.ltb_irrefl, Z.eqb_refl. cbn [orb].
  pose proof (not_expired_min env config _ d Hfit Hp Hn) as Hm.
  replace (ParsedDumpName.update_time d <? MinAcceptableUpdateTime env config)
    with false by (symmetry; apply Z.ltb_ge; exact Hm).
  reflexivity.
Qed.

Lemma treat_same_name_not_Removed (config : CacheConfigStatic) (m : TimePoint)
  (e e' : Fs.directory_entry) (d : ParsedDumpName.t) :
  treat config m e = Kept d ->
  Fs.filename e' = Fs.filename e ->
  treat config m e' <> Removed.
Proof.
  unfold treat. intros Ht Hn. rewrite Hn.
  destruct (negb (Fs.is_regular_file (Fs.entry_status e'))); [discriminate|].
  destruct (negb (Fs.is_regular_file (Fs.entry_status e))); [discriminate|].
  rewrite Ht. discriminate.
Qed.

Lemma length_kept_le (config : CacheConfigStatic) (m : TimePoint)
  (l : list Fs.directory_entry) :
  (List.length (kept config m l)
   <= List.length (filter (is_current config) l))%nat.
Proof.
  induction l as [|e l IH]; [cbn; lia|].
  change (kept config m (e :: l))
    with ((match treat config m e with Kept d' => [d'] | _ => [] end)
          ++ kept config m l).
  rewrite length_app. cbn [filter].
  destruct (treat config m e) as [|d'|] eqn:Et.
  - cbn. destruct (is_current config e); cbn; lia.
  - destruct (treat_Kept config m e d' Et) as ([Hreg Hp] & Hv & _).
    unfold is_current at 1. rewrite Hreg, Hp, Hv, Z.eqb_refl. cbn. lia.
  - cbn. destruct (is_current config e); cbn; lia.
Qed.

Lemma removed_paths_nil (config : CacheConfigStatic) (m : TimePoint)
  (l : list Fs.directory_entry) :
  (forall e, In e l -> treat config m e <> Removed) ->
  removed_paths config m l = [].
Proof.
  intros H. unfold removed_paths.
  replace (filter _ l) with (@nil Fs.directory_entry); [reflexivity|].
  symmetry. rewrite <- (filter_false l). apply filter_ext_in.
  intros e He. specialize (H e He). destruct (treat config m e); try reflexivity.
  contradiction.
Qed.

(** The files a failure-free [Cleanup] leaves, and what is known of the
    entries among them. *)
Lemma cleanup_files_quiet (env : Env) (config : CacheConfigStatic) (fs : Fs.t) :
  iterate_fault env (dump_directory config) = None ->
  (forall p, remove_fault env p = None) ->
  let m := MinAcceptableUpdateTime env config in
  let all := Fs.entries (dump_directory config) fs in
  let excess := map (dump_path_of config)
                  (skipn (max_dump_count config) (sort_newer (kept config m all))) in
  cleanup_files env config fs
  = erase_all excess (erase_all (removed_paths config m all) fs)
  /\ (forall e, In e (Fs.entries (dump_directory config)
                        (cleanup_files env config fs)) ->
                In e all /\ treat config m e <> Removed)
  /\ (List.length (filter (is_current config)
                     (Fs.entries (dump_directory config)
                        (cleanup_files env config fs)))
      <= max_dump_count config)%nat.
Proof.
  intros Hit Hq m all excess.
  assert (Heq : cleanup_files env config fs
                = erase_all excess (erase_all (removed_paths config m all) fs)).
  { unfold cleanup_files, walked. rewrite Hit. fold m. fold all.
    rewrite sweep_quiet by exact Hq. rewrite trim_quiet by exact Hq. reflexivity. }
  split; [exact Heq|]. rewrite Heq, !entries_erase_all. fold all. split.
  - intros e He. apply filter_In in He. destruct He as [He _].
    apply filter_In in He. destruct He as [He Hn]. split; [exact He|].
    intros Ht. apply negb_true_iff in Hn.
    pose proof (removed_paths_In config m all e He Ht) as Hin.
    apply listed_In in Hin. congruence.
  - rewrite !filter_filter_and.
    eapply Nat.le_trans; [|apply (trimmed_count config (kept config m all))].
    apply (kept_count config m all fs excess eq_refl all). auto.
Qed.

End NewestFacts.
Import NewestFacts.

(** Property X13.  When neither the walk of the dump directory nor a removal
    fails, a second [Cleanup] right after the first finds nothing to
    remove: the files after the second are the files after the first. *)
Theorem Cleanup_idempotent (env : Env) (w : World) :
  iterate_fault env (dump_directory (config_ w)) = None ->
  (forall p, remove_fault env p = None) ->
  exists w1 w2,
    Cleanup env w = (Ok tt, w1)
    /\ Cleanup env w1 = (Ok tt, w2)
    /\ files w2 = files w1.
Proof.
  intros Hit Hq.
  destruct (Cleanup_run env w) as (w1 & Hrun1 & Hf1 & Hc1).
  destruct (Cleanup_run env w1) as (w2 & Hrun2 & Hf2 & Hc2).
  exists w1, w2. split; [exact Hrun1|]. split; [exact Hrun2|].
  rewrite Hf2, Hc1, Hf1.
  set (config := config_ w) in *.
  set (fs1 := cleanup_files env config (files w)).
  destruct (cleanup_files_quiet env config (files w) Hit Hq) as (_ & Hleft & Hcount).
  fold fs1 in Hleft, Hcount.
  destruct (cleanup_files_quiet env config fs1 Hit Hq) as (-> & _ & _).
  set (m := MinAcceptableUpdateTime env config) in *.
  set (left := Fs.entries (dump_directory config) fs1) in *.
  rewrite (removed_paths_nil config m left) by (intros e He; apply (Hleft e He)).
  rewrite skipn_all2; [reflexivity|].
  rewrite <- (Permutation_length (sort_newer_perm (kept config m left))).
  eapply Nat.le_trans; [apply length_kept_le|exact Hcount].
Qed.

Lemma Cleanup_idempotent_witness :
  let env := quiet Examples.now in
  let w := Examples.four_dumps in
  iterate_fault env (dump_directory (config_ w)) = None
  /\ (forall p, remove_fault env p = None)
  /\ exists w1 w2,
       Cleanup env w = (Ok tt, w1)
       /\ Cleanup env w1 = (Ok tt, w2)
       /\ files w2 = files w1.
Proof.
  cbv zeta. split; [reflexivity|]. split; [reflexivity|].
  exact (Cleanup_idempotent (quiet Examples.now) Examples.four_dumps
           eq_refl (fun _ => eq_refl)).
Defined.

(** Property X14.  When neither the walk nor a removal fails, [Cleanup] keeps
    every dump of the current format version that is not expired and has
    at most [max_dump_count] current-version dumps at least as new as
    itself, itself included: the excess loop removes from the old end of
    the sorted keep-list only.  The dump stays under its path with its
    contents.  This is for an age limit [Round(now) - max_dump_age] that
    is a [TimePoint] (the 64-bit subtraction does not wrap). *)
Theorem Cleanup_keeps_the_newest (env : Env) (w : World)
  (e : Fs.directory_entry) (d : ParsedDumpName.t) (f : Fs.file) :
  let config := config_ w in
  let all := Fs.entries (dump_directory config) (files w) in
  iterate_fault env (dump_directory config) = None ->
  (forall p, remove_fault env p = None) ->
  In e all ->
  In (Fs.path e, f) (files w) ->
  is_dump e d ->
  ParsedDumpName.format_version d = dump_format_version config ->
  age_limit_fits (Now env) config ->
  not_expired (Now env) config d ->
  (List.length (filter (fun e' => is_current config e' && at_least_as_new d e') all)
   <= max_dump_count config)%nat ->
  exists w', Cleanup env w = (Ok tt, w') /\ In (Fs.path e, f) (files w').
Proof.
  intros config all Hit Hq He Hin Hdump Hv Hfit Hn Hrivals.
  destruct (Cleanup_run env w) as (w' & Hrun & Hf & _).
  exists w'. split; [exact Hrun|]. rewrite Hf. fold config.
  destruct (cleanup_files_quiet env config (files w) Hit Hq) as (-> & _ & _).
  fold all. set (m := MinAcceptableUpdateTime env config) in *.
  pose proof (treat_Kept_intro env config e d Hfit Hdump Hv Hn) as Ht.
  fold m in Ht.
  apply In_erase_all. split; [apply In_erase_all; split; [exact Hin|]|]; cbn [fst].
  - intros Hr. apply removed_paths_inv in Hr. destruct Hr as (e' & He' & Hp & Ht').
    apply (treat_same_name_not_Removed config m e e' d Ht); [|exact Ht'].
    eapply same_path_same_name; eauto.
  - intros Hr. apply in_map_iff in Hr. destruct Hr as (d' & Hpath & Hd').
    assert (Hk : In d' (kept config m all)).
    { apply (Permutation_in d' (Permutation_sym (sort_newer_perm (kept config m all)))).
      rewrite <- (firstn_skipn (max_dump_count config) (sort_newer (kept config m all))).
      apply in_or_app. right. exact Hd'. }
    apply kept_In in Hk. destruct Hk as (e' & He' & Ht').
    destruct (treat_Kept config m e' d' Ht') as ([_ Hp'] & _).
    destruct Hdump as [_ Hp].
    assert (Hname : Fs.filename e' = Fs.filename e).
    { rewrite <- (parse_dump_name_filename _ _ Hp').
      unfold dump_path_of in Hpath.
      rewrite (entry_path config (files w) e He) in Hpath.
      apply FilenameToPath_inj in Hpath. exact Hpath. }
    assert (d' = d) by congruence. subst d'.
    pose proof (excess_has_rivals _ _ d Hd') as Hmany.
    pose proof (kept_rivals config m d all) as Hle. lia.
Qed.

Lemma Cleanup_keeps_the_newest_witness :
  let env := quiet Examples.now in
  let w := Examples.four_dumps in
  let config := config_ w in
  let all := Fs.entries (dump_directory config) (files w) in
  let e := MoreExamples.entry MoreExamples.name_04 in
  let d := MoreExamples.parsed_04 in
  let f := snd (Examples.dump_file MoreExamples.name_04 "4") in
  iterate_fault env (dump_directory config) = None
  /\ (forall p, remove_fault env p = None)
  /\ In e all
  /\ In (Fs.path e, f) (files w)
  /\ is_dump e d
  /\ ParsedDumpName.format_version d = dump_format_version config
  /\ age_limit_fits (Now env) config
  /\ not_expired (Now env) config d
  /\ (List.length (filter (fun e' => is_current config e' && at_least_as_new d e') all)
      <= max_dump_count config)%nat
  /\ exists w', Cleanup env w = (Ok tt, w') /\ In (Fs.path e, f) (files w').
Proof.
  cbv zeta.
  assert (H1 : In (MoreExamples.entry MoreExamples.name_04)
                 (Fs.entries (dump_directory (config_ Examples.four_dumps))
                    (files Examples.four_dumps)))
    by (vm_compute; right; left; reflexivity).
  assert (H2 : In (Fs.path (MoreExamples.entry MoreExamples.name_04),
                   snd (Examples.dump_file MoreExamples.name_04 "4"))
                 (files Examples.four_dumps))
    by (vm_compute; right; left; reflexivity).
  assert (H3 : is_dump (MoreExamples.entry MoreExamples.name_04)
                 MoreExamples.parsed_04)
    by (split; vm_compute; reflexivity).
  assert (H4 : ParsedDumpName.format_version MoreExamples.parsed_04
               = dump_format_version (config_ Examples.four_dumps))
    by reflexivity.
  assert (Hfit : age_limit_fits (Now (quiet Examples.now))
                   (config_ Examples.four_dumps))
    by (intros bound Hb; vm_compute in Hb; injection Hb as <-;
        vm_compute; discriminate).
  assert (H5 : not_expired (Now (quiet Examples.now))
                 (config_ Examples.four_dumps) MoreExamples.parsed_04)
    by (intros bound Hb; vm_compute in Hb; injection Hb as <-;
        vm_compute; discriminate).
  assert (H6 : (List.length
                  (filter (fun e' => is_current (config_ Examples.four_dumps) e'
                                     && at_least_as_new MoreExamples.parsed_04 e')
                     (Fs.entries (dump_directory (config_ Examples.four_dumps))
                        (files Examples.four_dumps)))
                <= max_dump_count (config_ Examples.four_dumps))%nat)
    by (vm_compute; repeat constructor).
  split; [reflexivity|]. split; [reflexivity|].
  repeat (split; [assumption|]).
  exact (Cleanup_keeps_the_newest (quiet Examples.now) Examples.four_dumps
           _ _ _ eq_refl (fun _ => eq_refl) H1 H2 H3 H4 Hfit H5 H6).
Defined.

(* ================================================================= *)
(** * Further properties: a failing excess removal; write, then read *)

Module ComposeFacts.

Lemma trim_prefix (env : Env) (config : CacheConfigStatic)
  (pre : list ParsedDumpName.t) :
  forall rest fs,
  (forall d, In d pre -> remove_fault env (dump_path_of config d) = None) ->
  trim env config (pre ++ rest) fs
  = trim env config rest (erase_all (map (dump_path_of config) pre) fs).
Proof.
  induction pre as [|d pre IH]; intros rest fs Hok; [reflexivity|].
  cbn [app trim map]. fold (dump_path_of config d).
  rewrite (Hok d (or_introl eq_refl)).
  apply IH. intros d' Hd'. apply Hok. right. exact Hd'.
Qed.

(** The outcome of [ReadLatestDump] when the walk and the reads succeed. *)
Lemma ReadLatestDump_quiet (env : Env) (w : World) :
  NoDup (map fst (files w)) ->
  iterate_fault env (dump_directory (config_ w)) = None ->
  (forall p, read_fault env p = None) ->
  exists w',
    ReadLatestDump env w
    = (Ok (read_best (config_ w) (files w)
             (fold_left (pick (config_ w) (MinAcceptableUpdateTime env (config_ w)))
                (Fs.entries (dump_directory (config_ w)) (files w)) None)), w')
    /\ only_logs w w'.
Proof.
  intros Hnd Hit Hread.
  unfold ReadLatestDump, bind, Read_config, try_catch, GetLatestDumpName.
  destruct (GetLatestDumpNameBlocking_run env (config_ w) w) as (w1 & -> & H1).
  unfold walked. rewrite Hit.
  set (config := config_ w) in *.
  set (all := Fs.entries (dump_directory config) (files w)) in *.
  pose proof (fold_pick_spec config (MinAcceptableUpdateTime env config) all None) as Hb.
  destruct (fold_left _ all None) as [d|]; cbn [option_map read_best].
  - destruct Hb as ([Hb | (e & He & Hp)] & _); [discriminate|].
    apply candidate_usable in Hp. destruct Hp as [[Hreg Hparse] _].
    pose proof (parse_dump_name_filename _ _ Hparse) as Hname.
    pose proof He as He'. apply In_entries in He'.
    destruct He' as (f & Hin & Hchild & Hst).
    cbn. unfold ReadFileContents. rewrite Hread. cbn.
    rewrite Hname, <- (entry_path config (files w) e He).
    destruct H1 as [Hf1 Hc1]. rewrite Hf1.
    rewrite (NoDup_lookup _ _ _ Hnd Hin). rewrite <- Hst, Hreg. cbn.
    match goal with |- context [ParseDumpName ?n ?w0] =>
      destruct (ParseDumpName_run n w0) as (w2 & -> & H2) end.
    rewrite Hparse. cbn.
    eexists. split; [reflexivity|].
    destruct H2; split; cbn in *; congruence.
  - cbn. eexists. split; [reflexivity|]. destruct H1; split; cbn; assumption.
Qed.

Lemma entries_app (dir : string) (a b : Fs.t) :
  Fs.entries dir (a ++ b) = Fs.entries dir a ++ Fs.entries dir b.
Proof.
  induction a as [|x a IH]; cbn; [reflexivity|].
  destruct (Fs.entry_of dir x); cbn; rewrite IH; reflexivity.
Qed.

Lemma has_char_digits (a : ascii) (w : nat) : forall n rest,
  is_digit a = false ->
  has_char a (digits w n rest) = has_char a rest.
Proof.
  induction w as [|w IH]; intros n rest Ha; [reflexivity|].
  cbn [digits]. rewrite IH by exact Ha. cbn [has_char].
  destruct (Ascii.eqb a (digit_char (n mod 10))) eqn:E; [|reflexivity].
  apply Ascii.eqb_eq in E. subst a.
  destruct (mod10_digit n) as [Hd _]. congruence.
Qed.

Lemma has_char_zeros (a : ascii) (zeros : nat) (rest : string) :
  is_digit a = false ->
  has_char a (zeros_then zeros rest) = has_char a rest.
Proof.
  intros Ha. induction zeros as [|k IH]; [reflexivity|].
  cbn [zeros_then has_char]. rewrite IH.
  destruct (Ascii.eqb a "0") eqn:E; [|reflexivity].
  apply Ascii.eqb_eq in E. subst a. discriminate.
Qed.

Lemma has_char_decimal_fuel (a : ascii) (fuel : nat) : forall n rest,
  is_digit a = false ->
  has_char a (decimal_fuel fuel n rest) = has_char a rest.
Proof.
  induction fuel as [|fuel IH]; intros n rest Ha; [reflexivity|].
  cbn [decimal_fuel].
  assert (Hc : has_char a (String (digit_char (n mod 10)) rest) = has_char a rest).
  { cbn [has_char].
    destruct (Ascii.eqb a (digit_char (n mod 10))) eqn:E; [|reflexivity].
    apply Ascii.eqb_eq in E. subst a.
    destruct (mod10_digit n) as [Hd _]. congruence. }
  destruct (n / 10 =? 0); [exact Hc|]. rewrite IH by exact Ha. exact Hc.
Qed.

(** A name that parses lies directly in its directory. *)
Lemma parsed_name_is_child (dir name : string) (d : ParsedDumpName.t) :
  parse_dump_name name = Some d ->
  Fs.child_name dir (dir ++ "/" ++ name)%string = Some name.
Proof.
  intros Hp. unfold Fs.child_name.
  rewrite <- append_assoc, strip_prefix_app.
  destruct (parse_dump_name_inv name d Hp)
    as (c & version & -> & _ & Hy & _ & _ & _ & _ & Hall & Hne & _).
  assert (Hslash : has_char "/" (format_civil c (String "-" (String "v" version)))
                   = false).
  { unfold format_civil, format_year.
    replace (year c <? 0) with false by (symmetry; apply Z.ltb_ge; lia).
    replace (year c <? 10000) with true by (symmetry; apply Z.ltb_lt; lia).
    repeat (rewrite has_char_digits by reflexivity; cbn [has_char Ascii.eqb Bool.eqb orb]).
    destruct (digits_text_decimal version Hall Hne) as (zeros & ->).
    rewrite has_char_zeros by reflexivity.
    unfold decimal. rewrite has_char_decimal_fuel by reflexivity. reflexivity. }
  rewrite Hslash.
  destruct (format_civil c (String "-" (String "v" version))) eqn:E; [|reflexivity].
  exfalso. revert E. unfold format_civil, format_year.
  replace (year c <? 0) with false by (symmetry; apply Z.ltb_ge; lia).
  replace (year c <? 10000) with true by (symmetry; apply Z.ltb_lt; lia).
  cbn [digits]. discriminate.
Qed.

Lemma map_fst_erase (p q : string) (fs : Fs.t) :
  In p (map fst (Fs.erase q fs)) -> p <> q /\ In p (map fst fs).
Proof.
  rewrite !in_map_iff. intros (x & <- & Hx). apply In_erase in Hx.
  destruct Hx as [Hx Hne]. split; [exact Hne|]. exists x. auto.
Qed.

Lemma NoDup_erase (q : string) (fs : Fs.t) :
  NoDup (map fst fs) -> NoDup (map fst (Fs.erase q fs)).
Proof.
  induction fs as [|x fs IH]; cbn; intros H; [constructor|].
  inversion H as [|? ? Hnotin Hnd]; subst.
  destruct (negb (String.eqb (fst x) q)); cbn; [|auto].
  constructor; [|auto]. intros Hin. apply map_fst_erase in Hin. tauto.
Qed.

Lemma NoDup_put (p : string) (f : Fs.file) (fs : Fs.t) :
  NoDup (map fst fs) -> NoDup (map fst (Fs.put p f fs)).
Proof.
  intros H. unfold Fs.put. rewrite map_app. cbn [map fst].
  apply (Permutation_NoDup (Permutation_cons_append _ p)).
  constructor; [|apply NoDup_erase; exact H].
  intros Hin. apply map_fst_erase in Hin. tauto.
Qed.

(** A list sorted without ties is what [sort_newer] makes of any of its
    arrangements. *)
Lemma sorted_unique (l1 : list ParsedDumpName.t) :
  forall l2,
  StronglySorted newest_first l1 ->
  StronglySorted strictly_newest_first l2 ->
  Permutation l1 l2 -> l1 = l2.
Proof.
  induction l1 as [|y l1 IH]; intros l2 H1 H2 Hp.
  - apply Permutation_nil in Hp. subst. reflexivity.
  - destruct l2 as [|x l2];
      [apply Permutation_sym, Permutation_nil in Hp; discriminate|].
    inversion H1 as [|? ? H1' Hall1]; subst.
    inversion H2 as [|? ? H2' Hall2]; subst.
    rewrite Forall_forall in Hall1, Hall2.
    assert (Hyx : y = x).
    { assert (Hy : In y (x :: l2))
        by (apply (Permutation_in y Hp); left; reflexivity).
      assert (Hx : In x (y :: l1))
        by (apply (Permutation_in x (Permutation_sym Hp)); left; reflexivity).
      destruct Hy as [Hy | Hy]; [auto|].
      destruct Hx as [Hx | Hx]; [auto|].
      specialize (Hall1 x Hx). specialize (Hall2 y Hy).
      unfold newest_first, strictly_newest_first in *. lia. }
    subst y. f_equal. apply IH; try assumption.
    apply (Permutation_cons_inv Hp).
Qed.

Lemma sort_newer_unique (l sorted : list ParsedDumpName.t) :
  Permutation sorted l ->
  StronglySorted strictly_newest_first sorted ->
  sort_newer l = sorted.
Proof.
  intros Hp Hs. apply sorted_unique; [apply sort_newer_sorted|exact Hs|].
  eapply perm_trans; [apply Permutation_sym, sort_newer_perm|].
  apply Permutation_sym. exact Hp.
Qed.

End ComposeFacts.
Import ComposeFacts.

(** Property X15.  When the first loop of [Cleanup] completes and the
    removal of an excess dump fails, [Cleanup] still returns normally and
    logs the error; the files removed are those of the first loop and the
    excess dumps that precede the failing one, newest first; the failing
    dump and every older excess dump stay.  This is for kept dumps of
    pairwise different update times, [sorted] being their arrangement by
    decreasing time: what [std::sort] makes of dumps of equal time is
    not specified. *)
Theorem Cleanup_excess_stops_at_first_failure (env : Env) (w : World)
  (sorted pre post : list ParsedDumpName.t) (d : ParsedDumpName.t)
  (what : string) :
  let config := config_ w in
  let min_update_time := MinAcceptableUpdateTime env config in
  let all := Fs.entries (dump_directory config) (files w) in
  iterate_fault env (dump_directory config) = None ->
  (forall e, In e all -> treat config min_update_time e = Removed ->
             remove_fault env (Fs.path e) = None) ->
  Permutation sorted (kept config min_update_time all) ->
  StronglySorted strictly_newest_first sorted ->
  skipn (max_dump_count config) sorted = pre ++ d :: post ->
  (forall d', In d' pre -> remove_fault env (dump_path_of config d') = None) ->
  remove_fault env (dump_path_of config d) = Some what ->
  exists w',
    Cleanup env w = (Ok tt, w')
    /\ files w'
       = erase_all (map (dump_path_of config) pre)
           (erase_all (removed_paths config min_update_time all) (files w))
    /\ In (kError, "Error while cleaning up old dumps") (log w').
Proof.
  intros config m all Hit Hsweep Hperm Hsorted Hexcess Hpre Hfail.
  subst config.
  rewrite <- (sort_newer_unique _ _ Hperm Hsorted) in Hexcess.
  assert (Hs : sweep env (config_ w) m all [] (files w)
               = ((kept (config_ w) m all, None),
                  erase_all (removed_paths (config_ w) m all) (files w))).
  { rewrite <- (app_nil_r all) at 1. rewrite sweep_prefix by exact Hsweep.
    reflexivity. }
  unfold Cleanup, bind, Read_config, CleanupBlocking, for_directory.
  rewrite Hit. fold m. fold all.
  destruct (for_each_sweep env (config_ w) m all [] w) as (w1 & -> & Hf & Hc).
  rewrite Hs in *. cbn [fst snd] in *.
  destruct (for_each_trim env (config_ w)
              (skipn (max_dump_count (config_ w))
                 (sort_newer (kept (config_ w) m all))) w1)
    as (w2 & -> & Hf2 & Hc2).
  rewrite Hf, Hexcess, trim_prefix in * by exact Hpre.
  cbn [trim] in *. fold (dump_path_of (config_ w) d) in *.
  rewrite Hfail in *. cbn [fst snd] in *.
  unfold cleanup_handler. cbn [is_std_exception].
  destruct (LOG_run kError "Error while cleaning up old dumps" w2)
    as (w3 & -> & [Hf3 Hc3] & Hlog).
  exists w3. split; [reflexivity|]. split; [congruence|].
  rewrite Hlog. apply in_or_app. right. left. reflexivity.
Qed.

Lemma Cleanup_excess_stops_at_first_failure_witness :
  let env := Examples.cannot_remove "/d/2024-01-02T03:04:02.000000-v3" in
  let w := Examples.four_dumps in
  let config := config_ w in
  let min_update_time := MinAcceptableUpdateTime env config in
  let all := Fs.entries (dump_directory config) (files w) in
  let sorted := [MoreExamples.parsed_04; MoreExamples.parsed_03;
                 MoreExamples.parsed_02; MoreExamples.parsed_01] in
  iterate_fault env (dump_directory config) = None
  /\ (forall e, In e all -> treat config min_update_time e = Removed ->
                remove_fault env (Fs.path e) = None)
  /\ Permutation sorted (kept config min_update_time all)
  /\ StronglySorted strictly_newest_first sorted
  /\ skipn (max_dump_count config) sorted
     = [] ++ MoreExamples.parsed_02 :: [MoreExamples.parsed_01]
  /\ (forall d', In d' [] -> remove_fault env (dump_path_of config d') = None)
  /\ remove_fault env (dump_path_of config MoreExamples.parsed_02)
     = Some "Permission denied"
  /\ exists w',
       Cleanup env w = (Ok tt, w')
       /\ files w'
          = erase_all (map (dump_path_of config) [])
              (erase_all (removed_paths config min_update_time all) (files w))
       /\ In (kError, "Error while cleaning up old dumps") (log w').
Proof.
  cbv zeta.
  assert (H2 : forall e,
             In e (Fs.entries (dump_directory (config_ Examples.four_dumps))
                     (files Examples.four_dumps)) ->
             treat (config_ Examples.four_dumps)
               (MinAcceptableUpdateTime
                  (Examples.cannot_remove "/d/2024-01-02T03:04:02.000000-v3")
                  (config_ Examples.four_dumps)) e = Removed ->
             remove_fault
               (Examples.cannot_remove "/d/2024-01-02T03:04:02.000000-v3")
               (Fs.path e) = None).
  { intros e He. vm_compute in He.
    repeat (destruct He as [<- | He]; [vm_compute; intros H; first [reflexivity | discriminate H]|]).
    destruct He. }
  assert (Hsort : sort_newer
                    (kept (config_ Examples.four_dumps)
                       (MinAcceptableUpdateTime
                          (Examples.cannot_remove "/d/2024-01-02T03:04:02.000000-v3")
                          (config_ Examples.four_dumps))
                       (Fs.entries (dump_directory (config_ Examples.four_dumps))
                          (files Examples.four_dumps)))
                  = [MoreExamples.parsed_04; MoreExamples.parsed_03;
                     MoreExamples.parsed_02; MoreExamples.parsed_01])
    by (vm_compute; reflexivity).
  assert (H3 : Permutation
                 [MoreExamples.parsed_04; MoreExamples.parsed_03;
                  MoreExamples.parsed_02; MoreExamples.parsed_01]
                 (kept (config_ Examples.four_dumps)
                    (MinAcceptableUpdateTime
                       (Examples.cannot_remove "/d/2024-01-02T03:04:02.000000-v3")
                       (config_ Examples.four_dumps))
                    (Fs.entries (dump_directory (config_ Examples.four_dumps))
                       (files Examples.four_dumps))))
    by (rewrite <- Hsort; apply Permutation_sym, sort_newer_perm).
  assert (H4 : StronglySorted strictly_newest_first
                 [MoreExamples.parsed_04; MoreExamples.parsed_03;
                  MoreExamples.parsed_02; MoreExamples.parsed_01])
    by (repeat constructor).
  assert (H5 : remove_fault
                 (Examples.cannot_remove "/d/2024-01-02T03:04:02.000000-v3")
                 (dump_path_of (config_ Examples.four_dumps) MoreExamples.parsed_02)
               = Some "Permission denied")
    by (vm_compute; reflexivity).
  split; [reflexivity|]. split; [exact H2|]. split; [exact H3|].
  split; [exact H4|]. split; [reflexivity|].
  split; [intros d' []|]. split; [exact H5|].
  exact (Cleanup_excess_stops_at_first_failure
           (Examples.cannot_remove "/d/2024-01-02T03:04:02.000000-v3")
           Examples.four_dumps _ [] [MoreExamples.parsed_01] MoreExamples.parsed_02
           "Permission denied" eq_refl H2 H3 H4 eq_refl
           (fun d' (H : In d' []) => match H with end) H5).
Defined.

(** Property X16.  Write, then read.  In a directory of distinct paths
    and with no failure around, when the target path is free, the update
    time is within the range of the clock (1677-09-21T00:12:43.145225 to
    2262-04-11T23:47:16.854775) and not expired, the age limit
    [Round(now) - max_dump_age] is a [TimePoint], the format version is
    below [2^64], and every usable dump already there is strictly older,
    [WriteNewDump] returns [true] and a following [ReadLatestDump] returns
    the very dump written, contents and update time. *)
Theorem WriteNewDump_then_ReadLatestDump (env : Env) (w : World) (dump : DumpContents.t) :
  let config := config_ w in
  let t := DumpContents.update_time dump in
  let dump_path := GenerateDumpPath t config in
  NoDup (map fst (files w)) ->
  exists_fault env dump_path = None ->
  write_fault env dump_path = None ->
  iterate_fault env (dump_directory config) = None ->
  (forall p, read_fault env p = None) ->
  Fs.lookup dump_path (files w) = None ->
  in_clock_range t ->
  0 <= dump_format_version config < 2 ^ 64 ->
  age_limit_fits (Now env) config ->
  (forall bound, min_accept (Now env) config = Some bound -> bound <= t) ->
  (forall e d, In e (Fs.entries (dump_directory config) (files w)) ->
     usable (Now env) config e d -> ParsedDumpName.update_time d < t) ->
  exists w1 w2,
    WriteNewDump env dump w = (Ok true, w1)
    /\ ReadLatestDump env w1 = (Ok (Some dump), w2).
Proof.
  intros config t dump_path Hnd He Hw Hit Hread Habsent Ht Hv Hfit Hfresh Holder.
  set (name := dump_filename t (dump_format_version config)).
  set (d := ParsedDumpName.mk name t (dump_format_version config)).
  set (f := {| Fs.status := Fs.regular_file;
               Fs.data := DumpContents.contents dump; Fs.perms := 384 |}).
  set (rest := Fs.erase (dump_path ++ ".tmp") (files w)).
  assert (Hparse : parse_dump_name name = Some d)
    by (apply parse_format_roundtrip; assumption).
  assert (Hpath : dump_path = FilenameToPath name config)
    by apply GenerateDumpPath_filename.
  assert (Habsent' : Fs.lookup dump_path rest = None).
  { unfold rest. rewrite lookup_erase_other; [exact Habsent|].
    intros Heq. exact (tmp_path_differs _ (eq_sym Heq)). }
  (* the write *)
  assert (Hwrite : exists w1, WriteNewDump env dump w = (Ok true, w1)
                              /\ files w1 = rest ++ [(dump_path, f)]
                              /\ config_ w1 = config).
  { unfold WriteNewDump, bind, Read_config, FileExists, try_catch,
      RewriteFileContentsAtomically, get_files, set_files, LOG, ret.
    fold config. fold t. fold dump_path. rewrite He. cbn. rewrite Habsent. cbn.
    rewrite Hw. cbn. eexists. split; [reflexivity|]. cbn.
    rewrite erase_put_same. fold rest.
    unfold Fs.put. rewrite (erase_absent _ _ Habsent'). split; reflexivity. }
  destruct Hwrite as (w1 & Hrun1 & Hf1 & Hc1).
  exists w1.
  assert (Hnd1 : NoDup (map fst (files w1))).
  { rewrite Hf1, map_app. cbn [map fst].
    apply (Permutation_NoDup (Permutation_cons_append _ dump_path)).
    constructor; [exact (lookup_None_not_In _ _ Habsent')|].
    apply NoDup_erase. exact Hnd. }
  destruct (ReadLatestDump_quiet env w1 Hnd1) as (w2 & Hrun2 & _);
    [rewrite Hc1; exact Hit|exact Hread|].
  exists w2. split; [exact Hrun1|]. rewrite Hrun2, Hc1, Hf1. f_equal. f_equal.
  set (e := {| Fs.path := dump_path; Fs.filename := name;
               Fs.entry_status := Fs.regular_file |}).
  assert (Hentries : Fs.entries (dump_directory config) (rest ++ [(dump_path, f)])
                     = Fs.entries (dump_directory config) rest ++ [e]).
  { rewrite entries_app. f_equal. cbn. unfold Fs.entry_of. cbn [fst snd].
    unfold e. rewrite Hpath. unfold FilenameToPath.
    rewrite (parsed_name_is_child (dump_directory config) name d Hparse).
    reflexivity. }
  rewrite Hentries.
  rewrite (fold_pick_first_newest config (MinAcceptableUpdateTime env config)
             (Fs.entries (dump_directory config) rest) [] e d).
  - cbn [read_best ParsedDumpName.filename ParsedDumpName.update_time d].
    rewrite <- Hpath, lookup_app, Habsent'.
    unfold Fs.lookup. cbn. rewrite String.eqb_refl. cbn.
    destruct dump. reflexivity.
  - apply (usable_candidate env config e d Hfit).
    split; [split; [reflexivity|exact Hparse]|].
    split; [reflexivity|exact Hfresh].
  - intros e' d' He' Hp. apply (Holder e' d').
    + unfold rest in He'. rewrite entries_erase in He'.
      apply filter_In in He'. apply He'.
    + apply candidate_usable. exact Hp.
  - intros e' d' [].
Qed.

Lemma WriteNewDump_then_ReadLatestDump_witness :
  let env := quiet Examples.now in
  let w := Examples.four_dumps in
  let dump := MoreExamples.later_dump in
  let config := config_ w in
  let t := DumpContents.update_time dump in
  let dump_path := GenerateDumpPath t config in
  NoDup (map fst (files w))
  /\ exists_fault env dump_path = None
  /\ write_fault env dump_path = None
  /\ iterate_fault env (dump_directory config) = None
  /\ (forall p, read_fault env p = None)
  /\ Fs.lookup dump_path (files w) = None
  /\ in_clock_range t
  /\ 0 <= dump_format_version config < 2 ^ 64
  /\ age_limit_fits (Now env) config
  /\ (forall bound, min_accept (Now env) config = Some bound -> bound <= t)
  /\ (forall e d, In e (Fs.entries (dump_directory config) (files w)) ->
        usable (Now env) config e d -> ParsedDumpName.update_time d < t)
  /\ exists w1 w2,
       WriteNewDump env dump w = (Ok true, w1)
       /\ ReadLatestDump env w1 = (Ok (Some dump), w2).
Proof.
  cbv zeta.
  assert (H1 : NoDup (map fst (files Examples.four_dumps))).
  { vm_compute. repeat constructor; simpl; intuition discriminate. }
  assert (H6 : Fs.lookup
                 (GenerateDumpPath
                    (DumpContents.update_time MoreExamples.later_dump)
                    (config_ Examples.four_dumps))
                 (files Examples.four_dumps) = None)
    by (vm_compute; reflexivity).
  assert (H7 : in_clock_range (DumpContents.update_time MoreExamples.later_dump))
    by (split; discriminate).
  assert (H8 : 0 <= dump_format_version (config_ Examples.four_dumps) < 2 ^ 64)
    by (vm_compute; split; [discriminate|reflexivity]).
  assert (Hfit : age_limit_fits (Now (quiet Examples.now))
                   (config_ Examples.four_dumps))
    by (intros bound Hb; vm_compute in Hb; injection Hb as <-;
        vm_compute; discriminate).
  assert (H9 : forall bound,
             min_accept (Now (quiet Examples.now)) (config_ Examples.four_dumps)
             = Some bound ->
             bound <= DumpContents.update_time MoreExamples.later_dump)
    by (intros bound Hb; vm_compute in Hb; injection Hb as <-;
        vm_compute; discriminate).
  assert (H10 : forall e d,
             In e (Fs.entries (dump_directory (config_ Examples.four_dumps))
                     (files Examples.four_dumps)) ->
             usable (Now (quiet Examples.now)) (config_ Examples.four_dumps) e d ->
             ParsedDumpName.update_time d
             < DumpContents.update_time MoreExamples.later_dump).
  { intros e d He [[_ Hp] _]. vm_compute in He.
    repeat (destruct He as [<- | He];
            [vm_compute in Hp;
             first [discriminate Hp
                   | injection Hp as <-; vm_compute; reflexivity]|]).
    destruct He. }
  split; [exact H1|]. do 4 (split; [reflexivity|]).
  split; [exact H6|]. split; [exact H7|]. split; [exact H8|].
  split; [exact Hfit|]. split; [exact H9|]. split; [exact H10|].
  exact (WriteNewDump_then_ReadLatestDump (quiet Examples.now)
           Examples.four_dumps MoreExamples.later_dump
           H1 eq_refl eq_refl eq_refl (fun _ => eq_refl) H6 H7 H8 Hfit H9 H10).
Defined.

(* ================================================================= *)
(** * Further properties: bump, then read; the age limit *)

Module BumpFacts.

Lemma Round_monotone (a b : system_time) : a <= b -> Round a <= Round b.
Proof.
  intros H. unfold Round.
  assert (Hq : a / 1000 <= b / 1000) by div_lia.
  destruct (Z.eq_dec (a / 1000) (b / 1000)) as [E | E].
  - assert (Hr : a mod 1000 <= b mod 1000) by div_lia.
    rewrite <- E.
    destruct (a mod 1000 <? 500) eqn:A1; destruct (b mod 1000 <? 500) eqn:B1;
      destruct (500 <? a mod 1000) eqn:A2; destruct (500 <? b mod 1000) eqn:B2;
      destruct (Z.even (a / 1000));
      try apply Z.ltb_lt in A1; try apply Z.ltb_ge in A1;
      try apply Z.ltb_lt in B1; try apply Z.ltb_ge in B1;
      try apply Z.ltb_lt in A2; try apply Z.ltb_ge in A2;
      try apply Z.ltb_lt in B2; try apply Z.ltb_ge in B2; lia.
  - assert (Hlt : a / 1000 + 1 <= b / 1000) by lia.
    destruct (a mod 1000 <? 500); destruct (b mod 1000 <? 500);
      destruct (500 <? a mod 1000); destruct (500 <? b mod 1000);
      destruct (Z.even (a / 1000)); destruct (Z.even (b / 1000)); lia.
Qed.

Lemma Round_nearest (a : system_time) : - 500 <= 1000 * Round a - a <= 500.
Proof.
  unfold Round.
  destruct (a mod 1000 <? 500) eqn:A1; destruct (500 <? a mod 1000) eqn:A2;
    destruct (Z.even (a / 1000));
    try apply Z.ltb_lt in A1; try apply Z.ltb_ge in A1;
    try apply Z.ltb_lt in A2; try apply Z.ltb_ge in A2; div_lia.
Qed.

End BumpFacts.
Import BumpFacts.

(** Property X17.  Bump, then read.  In a directory of distinct paths
    and with no failure around, when the dump of [old_update_time] is a
    regular file, [new_update_time] is within the range of the clock
    (1677-09-21T00:12:43.145225 to 2262-04-11T23:47:16.854775) and not
    expired, the age limit [Round(now) - max_dump_age] is a [TimePoint],
    the format version is below [2^64], and every other usable dump is
    strictly older than [new_update_time], [BumpDumpTime] returns [true]
    and a following [ReadLatestDump] returns the old contents under the
    new update time. *)
Theorem BumpDumpTime_then_ReadLatestDump (env : Env) (w : World)
  (old_update_time new_update_time : TimePoint) (f : Fs.file) :
  let config := config_ w in
  let old_name := GenerateDumpPath old_update_time config in
  let new_name := GenerateDumpPath new_update_time config in
  NoDup (map fst (files w)) ->
  exists_fault env old_name = None ->
  rename_fault env old_name new_name = None ->
  iterate_fault env (dump_directory config) = None ->
  (forall p, read_fault env p = None) ->
  Fs.lookup old_name (files w) = Some f ->
  Fs.status f = Fs.regular_file ->
  in_clock_range new_update_time ->
  0 <= dump_format_version config < 2 ^ 64 ->
  age_limit_fits (Now env) config ->
  (forall bound, min_accept (Now env) config = Some bound ->
                 bound <= new_update_time) ->
  (forall e d, In e (Fs.entries (dump_directory config) (files w)) ->
     usable (Now env) config e d -> Fs.path e <> old_name ->
     ParsedDumpName.update_time d < new_update_time) ->
  exists w1 w2,
    BumpDumpTime env old_update_time new_update_time w = (Ok true, w1)
    /\ ReadLatestDump env w1
       = (Ok (Some (DumpContents.mk (Fs.data f) new_update_time)), w2).
Proof.
  intros config old_name new_name Hnd He Hr Hit Hread Hl Hreg Ht Hv Hfit
    Hfresh Holder.
  set (name := dump_filename new_update_time (dump_format_version config)).
  set (d := ParsedDumpName.mk name new_update_time (dump_format_version config)).
  assert (Hparse : parse_dump_name name = Some d)
    by (apply parse_format_roundtrip; assumption).
  assert (Hpath : new_name = FilenameToPath name config)
    by apply GenerateDumpPath_filename.
  set (rest := Fs.erase new_name (Fs.erase old_name (files w))).
  assert (Hbump : exists w1,
            BumpDumpTime env old_update_time new_update_time w = (Ok true, w1)
            /\ files w1 = rest ++ [(new_name, f)] /\ config_ w1 = config).
  { unfold BumpDumpTime, bind, Read_config, try_catch, FileExists, Rename,
      get_files, set_files, LOG, ret, throw.
    fold config. fold old_name. fold new_name.
    rewrite He. cbn. rewrite Hl. cbn. rewrite Hr. cbn. rewrite Hl. cbn.
    eexists. split; [reflexivity|]. split; reflexivity. }
  destruct Hbump as (w1 & Hrun1 & Hf1 & Hc1).
  exists w1.
  assert (Hnd1 : NoDup (map fst (files w1))).
  { rewrite Hf1. apply (NoDup_put new_name f (Fs.erase old_name (files w))).
    apply NoDup_erase. exact Hnd. }
  destruct (ReadLatestDump_quiet env w1 Hnd1) as (w2 & Hrun2 & _);
    [rewrite Hc1; exact Hit|exact Hread|].
  exists w2. split; [exact Hrun1|]. rewrite Hrun2, Hc1, Hf1. f_equal. f_equal.
  set (e := {| Fs.path := new_name; Fs.filename := name;
               Fs.entry_status := Fs.regular_file |}).
  assert (Hentries : Fs.entries (dump_directory config) (rest ++ [(new_name, f)])
                     = Fs.entries (dump_directory config) rest ++ [e]).
  { rewrite entries_app. f_equal. cbn. unfold Fs.entry_of. cbn [fst snd].
    unfold e. rewrite Hreg, Hpath. unfold FilenameToPath.
    rewrite (parsed_name_is_child (dump_directory config) name d Hparse).
    reflexivity. }
  rewrite Hentries.
  rewrite (fold_pick_first_newest config (MinAcceptableUpdateTime env config)
             (Fs.entries (dump_directory config) rest) [] e d).
  - cbn [read_best ParsedDumpName.filename ParsedDumpName.update_time d].
    rewrite <- Hpath.
    change (rest ++ [(new_name, f)]) with (Fs.put new_name f (Fs.erase old_name (files w))).
    rewrite lookup_put_same. reflexivity.
  - apply (usable_candidate env config e d Hfit).
    split; [split; [reflexivity|exact Hparse]|].
    split; [reflexivity|exact Hfresh].
  - intros e' d' He' Hp. apply candidate_usable in Hp.
    unfold rest in He'. rewrite !entries_erase in He'.
    apply filter_In in He'. destruct He' as [He' _].
    apply filter_In in He'. destruct He' as [He' Hne].
    apply negb_true_iff, String.eqb_neq in Hne.
    exact (Holder e' d' He' Hp Hne).
  - intros e' d' [].
Qed.

Lemma BumpDumpTime_then_ReadLatestDump_witness :
  let env := quiet Examples.now in
  let w := Examples.four_dumps in
  let config := config_ w in
  let f := snd (Examples.dump_file MoreExamples.name_04 "4") in
  let old_name := GenerateDumpPath MoreExamples.t_030404 config in
  let new_name := GenerateDumpPath Examples.t_030500 config in
  NoDup (map fst (files w))
  /\ exists_fault env old_name = None
  /\ rename_fault env old_name new_name = None
  /\ iterate_fault env (dump_directory config) = None
  /\ (forall p, read_fault env p = None)
  /\ Fs.lookup old_name (files w) = Some f
  /\ Fs.status f = Fs.regular_file
  /\ in_clock_range Examples.t_030500
  /\ 0 <= dump_format_version config < 2 ^ 64
  /\ age_limit_fits (Now env) config
  /\ (forall bound, min_accept (Now env) config = Some bound ->
                    bound <= Examples.t_030500)
  /\ (forall e d, In e (Fs.entries (dump_directory config) (files w)) ->
        usable (Now env) config e d -> Fs.path e <> old_name ->
        ParsedDumpName.update_time d < Examples.t_030500)
  /\ exists w1 w2,
       BumpDumpTime env MoreExamples.t_030404 Examples.t_030500 w = (Ok true, w1)
       /\ ReadLatestDump env w1
          = (Ok (Some (DumpContents.mk (Fs.data f) Examples.t_030500)), w2).
Proof.
  cbv zeta.
  assert (H1 : NoDup (map fst (files Examples.four_dumps))).
  { vm_compute. repeat constructor; simpl; intuition discriminate. }
  assert (H6 : Fs.lookup (GenerateDumpPath MoreExamples.t_030404
                            (config_ Examples.four_dumps))
                 (files Examples.four_dumps)
               = Some (snd (Examples.dump_file MoreExamples.name_04 "4")))
    by (vm_compute; reflexivity).
  assert (H8 : in_clock_range Examples.t_030500) by (split; discriminate).
  assert (H9 : 0 <= dump_format_version (config_ Examples.four_dumps) < 2 ^ 64)
    by (vm_compute; split; [discriminate|reflexivity]).
  assert (Hfit : age_limit_fits (Now (quiet Examples.now))
                   (config_ Examples.four_dumps))
    by (intros bound Hb; vm_compute in Hb; injection Hb as <-;
        vm_compute; discriminate).
  assert (H10 : forall bound,
             min_accept (Now (quiet Examples.now)) (config_ Examples.four_dumps)
             = Some bound -> bound <= Examples.t_030500)
    by (intros bound Hb; vm_compute in Hb; injection Hb as <-;
        vm_compute; discriminate).
  assert (H11 : forall e d,
             In e (Fs.entries (dump_directory (config_ Examples.four_dumps))
                     (files Examples.four_dumps)) ->
             usable (Now (quiet Examples.now)) (config_ Examples.four_dumps) e d ->
             Fs.path e
             <> GenerateDumpPath MoreExamples.t_030404 (config_ Examples.four_dumps) ->
             ParsedDumpName.update_time d < Examples.t_030500).
  { intros e d He [[_ Hp] _] _. vm_compute in He.
    repeat (destruct He as [<- | He];
            [vm_compute in Hp;
             first [discriminate Hp
                   | injection Hp as <-; vm_compute; reflexivity]|]).
    destruct He. }
  split; [exact H1|]. do 4 (split; [reflexivity|]).
  split; [exact H6|]. split; [reflexivity|]. split; [exact H8|].
  split; [exact H9|]. split; [exact Hfit|]. split; [exact H10|].
  split; [exact H11|].
  exact (BumpDumpTime_then_ReadLatestDump (quiet Examples.now)
           Examples.four_dumps MoreExamples.t_030404 Examples.t_030500 _
           H1 eq_refl eq_refl eq_refl (fun _ => eq_refl) H6 eq_refl
           H8 H9 Hfit H10 H11).
Defined.

(** Property X18.  Whatever fails around it, a dump that [ReadLatestDump]
    returns is the contents of a regular file of the dump directory whose
    name parses to the current format version and to the update time
    returned, that is not expired, and that no usable dump reached by the
    walk is newer than. *)
Theorem ReadLatestDump_returns_a_usable_file (env : Env) (w w' : World)
  (dump : DumpContents.t) :
  let config := config_ w in
  let seen := walked env (dump_directory config) (files w) in
  ReadLatestDump env w = (Ok (Some dump), w') ->
  exists e d f,
    In e seen /\ usable (Now env) config e d
    /\ Fs.lookup (Fs.path e) (files w) = Some f
    /\ Fs.is_regular_file (Fs.status f) = true
    /\ DumpContents.contents dump = Fs.data f
    /\ DumpContents.update_time dump = ParsedDumpName.update_time d
    /\ forall e' d', In e' seen -> usable (Now env) config e' d' ->
         ParsedDumpName.update_time d' <= ParsedDumpName.update_time d.
Proof.
  intros config seen.
  unfold ReadLatestDump, bind, Read_config, try_catch, GetLatestDumpName.
  destruct (GetLatestDumpNameBlocking_run env (config_ w) w) as (w1 & -> & H1).
  fold config. fold seen.
  pose proof (fold_pick_spec config (MinAcceptableUpdateTime env config) seen None) as Hb.
  destruct (fold_left _ seen None) as [d|]; cbn [option_map].
  2:{ cbn. intros H. discriminate H. }
  destruct Hb as ([Hb | (e & He & Hp)] & _ & Hmax); [discriminate|].
  pose proof Hp as Hpick.
  apply candidate_usable in Hp. pose proof Hp as [[Hreg Hparse] _].
  pose proof (parse_dump_name_filename _ _ Hparse) as Hname.
  assert (Hpath : FilenameToPath (Fs.filename e) config = Fs.path e).
  { symmetry. apply (entry_path config (files w)).
    apply (walked_incl env). exact He. }
  cbn. rewrite Hname, Hpath. unfold ReadFileContents.
  destruct (read_fault env (Fs.path e)); cbn; [intros H; discriminate H|].
  destruct H1 as [Hf1 Hc1]. rewrite Hf1.
  destruct (Fs.lookup (Fs.path e) (files w)) as [f|] eqn:El; cbn;
    [|intros H; discriminate H].
  destruct (Fs.is_regular_file (Fs.status f)) eqn:Ef; cbn;
    [|intros H; discriminate H].
  match goal with |- context [ParseDumpName ?n ?w0] =>
    destruct (ParseDumpName_run n w0) as (w2 & -> & H2) end.
  rewrite Hparse. cbn. intros H. injection H as <- _.
  exists e, d, f. repeat split; try assumption; try apply Hp.
  intros e' d' He' Hu.
  destruct (usable_candidate_or_older env config e' d' Hu) as [Hc | [Hage Hlt]].
  - eapply Hmax; eassumption.
  - pose proof (candidate_not_before_limit env config e d Hpick Hage). lia.
Qed.

Lemma ReadLatestDump_returns_a_usable_file_witness :
  let env := quiet Examples.now in
  let w := Examples.one_dump in
  let config := config_ w in
  let seen := walked env (dump_directory config) (files w) in
  let dump := Examples.hello in
  ReadLatestDump env w = (Ok (Some dump), MoreExamples.one_dump_read)
  /\ exists e d f,
       In e seen /\ usable (Now env) config e d
       /\ Fs.lookup (Fs.path e) (files w) = Some f
       /\ Fs.is_regular_file (Fs.status f) = true
       /\ DumpContents.contents dump = Fs.data f
       /\ DumpContents.update_time dump = ParsedDumpName.update_time d
       /\ forall e' d', In e' seen -> usable (Now env) config e' d' ->
            ParsedDumpName.update_time d' <= ParsedDumpName.update_time d.
Proof.
  cbv zeta.
  assert (H : ReadLatestDump (quiet Examples.now) Examples.one_dump
              = (Ok (Some Examples.hello), MoreExamples.one_dump_read))
    by (vm_compute; reflexivity).
  split; [exact H|].
  exact (ReadLatestDump_returns_a_usable_file (quiet Examples.now)
           Examples.one_dump MoreExamples.one_dump_read Examples.hello H).
Defined.

(** Property X19.  The age limit moves with the clock.  When
    [Round(now) - max_dump_age] is a [TimePoint] at the earlier of two
    clock readings (the 64-bit subtraction does not wrap), the later
    reading gives a limit that is no earlier, so a dump not expired then
    was not expired before; and with a maximum age set, the limit is the
    clock reading minus that age up to the half microsecond of
    [Round]. *)
Theorem MinAcceptableUpdateTime_monotone (env1 env2 : Env)
  (config : CacheConfigStatic) :
  Now env1 <= Now env2 ->
  age_limit_fits (Now env1) config ->
  MinAcceptableUpdateTime env1 config <= MinAcceptableUpdateTime env2 config
  /\ (forall d, not_expired (Now env2) config d -> not_expired (Now env1) config d)
  /\ (forall age, max_dump_age config = Some age ->
        - 500 <= 1000 * (MinAcceptableUpdateTime env1 config
                         + ms_to_us (Z.pos age))
                 - Now env1 <= 500).
Proof.
  intros Hnow Hfit1. pose proof (Round_monotone _ _ Hnow) as Hr.
  assert (Hfit2 : age_limit_fits (Now env2) config).
  { intros bound Hb. unfold age_limit_fits, min_accept in *.
    destruct (max_dump_age config) as [age|]; [|discriminate].
    specialize (Hfit1 _ eq_refl).
    assert (Hbound : bound = Round (Now env2) - ms_to_us (Z.pos age))
      by congruence.
    subst bound. lia. }
  destruct (max_dump_age config) as [age|] eqn:Ea.
  - assert (E1 : min_accept (Now env1) config
                 = Some (Round (Now env1) - ms_to_us (Z.pos age)))
      by (unfold min_accept; rewrite Ea; reflexivity).
    assert (E2 : min_accept (Now env2) config
                 = Some (Round (Now env2) - ms_to_us (Z.pos age)))
      by (unfold min_accept; rewrite Ea; reflexivity).
    rewrite (ChronoFacts.min_accept_exact env1 config _ Hfit1 E1).
    rewrite (ChronoFacts.min_accept_exact env2 config _ Hfit2 E2).
    split; [lia|]. split.
    + intros d H bound Hb. rewrite E1 in Hb.
      assert (Hbound : bound = Round (Now env1) - ms_to_us (Z.pos age))
        by congruence.
      subst bound. specialize (H _ E2). lia.
    + intros age' Ha. assert (age' = age) by congruence. subst age'.
      pose proof (Round_nearest (Now env1)). lia.
  - unfold MinAcceptableUpdateTime, not_expired, min_accept. rewrite Ea.
    split; [lia|]. split; [intros d _ bound Hb; discriminate|discriminate].
Qed.

Lemma MinAcceptableUpdateTime_monotone_witness :
  let env1 := quiet Examples.now in
  let env2 := quiet MoreExamples.later in
  let config := Examples.config_v 3 (Some 3600000%positive) 5 in
  Now env1 <= Now env2
  /\ age_limit_fits (Now env1) config
  /\ MinAcceptableUpdateTime env1 config <= MinAcceptableUpdateTime env2 config
  /\ (forall d, not_expired (Now env2) config d -> not_expired (Now env1) config d)
  /\ (forall age, max_dump_age config = Some age ->
        - 500 <= 1000 * (MinAcceptableUpdateTime env1 config
                         + ms_to_us (Z.pos age))
                 - Now env1 <= 500).
Proof.
  cbv zeta.
  assert (H : Now (quiet Examples.now) <= Now (quiet MoreExamples.later))
    by (vm_compute; discriminate).
  assert (Hfit : age_limit_fits (Now (quiet Examples.now))
                   (Examples.config_v 3 (Some 3600000%positive) 5))
    by (intros bound Hb; vm_compute in Hb; injection Hb as <-;
        vm_compute; discriminate).
  split; [exact H|]. split; [exact Hfit|].
  exact (MinAcceptableUpdateTime_monotone (quiet Examples.now)
           (quiet MoreExamples.later)
           (Examples.config_v 3 (Some 3600000%positive) 5) H Hfit).
Defined.

(* ================================================================= *)
(** * Further properties: a change of configuration *)

(** Property X20.  After [SetConfig], a [Cleanup] in which neither the walk
    nor a removal fails runs under the new configuration: it removes every
    dump of the new dump directory whose parsed version is below the new
    format version, whatever its age and however many dumps there are. *)
Theorem SetConfig_then_Cleanup_drops_older_versions (env : Env)
  (config : CacheConfigStatic) (w : World) (e : Fs.directory_entry)
  (d : ParsedDumpName.t) :
  iterate_fault env (dump_directory config) = None ->
  (forall p, remove_fault env p = None) ->
  In e (Fs.entries (dump_directory config) (files w)) ->
  is_dump e d ->
  ParsedDumpName.format_version d < dump_format_version config ->
  exists w1 w2,
    SetConfig config w = (Ok tt, w1)
    /\ Cleanup env w1 = (Ok tt, w2)
    /\ config_ w2 = config
    /\ forall f, ~ In (Fs.path e, f) (files w2).
Proof.
  intros Hwalk Hrm He [Hreg Hparse] Hlt.
  eexists.
  match goal with |- exists w2, _ = (_, ?w1) /\ _ =>
    destruct (Cleanup_run env w1) as (w2 & Hrun & Hf & Hc)
  end.
  exists w2. split; [reflexivity|]. split; [exact Hrun|].
  cbn [files config_] in Hf, Hc. split; [exact Hc|].
  intros f Hin. rewrite Hf in Hin.
  destruct (cleanup_files_quiet env config (files w) Hwalk Hrm) as (Heq & _).
  rewrite Heq in Hin.
  apply In_erase_all in Hin. destruct Hin as [Hin _].
  apply In_erase_all in Hin. destruct Hin as [_ Hnot].
  apply Hnot. cbn [fst]. apply removed_paths_In; [exact He|].
  unfold treat. rewrite Hreg. cbn [negb].
  destruct (regex_match (Fs.filename e) tmp_filename_regex_); [reflexivity|].
  rewrite Hparse.
  replace (ParsedDumpName.format_version d <? dump_format_version config)
    with true by (symmetry; apply Z.ltb_lt; exact Hlt).
  reflexivity.
Qed.

Lemma SetConfig_then_Cleanup_drops_older_versions_witness :
  let env := quiet Examples.now in
  let config := Examples.config_v 4 None 5 in
  let w := Examples.one_dump in
  let e := MoreExamples.entry Examples.name_v3 in
  let d := MoreExamples.parsed_v3 in
  iterate_fault env (dump_directory config) = None
  /\ (forall p, remove_fault env p = None)
  /\ In e (Fs.entries (dump_directory config) (files w))
  /\ is_dump e d
  /\ ParsedDumpName.format_version d < dump_format_version config
  /\ exists w1 w2,
       SetConfig config w = (Ok tt, w1)
       /\ Cleanup env w1 = (Ok tt, w2)
       /\ config_ w2 = config
       /\ forall f, ~ In (Fs.path e, f) (files w2).
Proof.
  cbv zeta.
  assert (H3 : In (MoreExamples.entry Examples.name_v3)
                 (Fs.entries (dump_directory (Examples.config_v 4 None 5))
                    (files Examples.one_dump)))
    by (vm_compute; left; reflexivity).
  assert (H4 : is_dump (MoreExamples.entry Examples.name_v3)
                 MoreExamples.parsed_v3)
    by (split; vm_compute; reflexivity).
  assert (H5 : ParsedDumpName.format_version MoreExamples.parsed_v3
               < dump_format_version (Examples.config_v 4 None 5))
    by reflexivity.
  split; [reflexivity|]. split; [reflexivity|].
  split; [exact H3|]. split; [exact H4|]. split; [exact H5|].
  exact (SetConfig_then_Cleanup_drops_older_versions (quiet Examples.now)
           (Examples.config_v 4 None 5) Examples.one_dump _ _
           eq_refl (fun _ => eq_refl) H3 H4 H5).
Defined.
